(** * Cross-service consistency pipeline: ingestion, event publication, aggregation

    A shallow embedding of three services of the platform:

    - [Ingestion]: the ingestion service's managers
      (asset_class_manager.py, investor_manager.py, commitment_manager.py),
      its CSV parser (csv_parser.py) and its orchestrator (data_processor.py);
    - [CommitmentService]: the commitment repository's create paths
      (commitment_repository.py) and the event publisher (event_publisher.py);
    - [InvestorService]: the event subscriber (event_subscriber.py) over the
      investor repository (investor_repository.py).

    Remote collaborators are oracles: a record of functions giving the answer
    of each endpoint.  Every remote call a function issues is appended to a
    trace, so that "which calls were made" is a statement about a list.
    Loops that poll a remote service carry fuel; running out of fuel is
    [None], a value that no returning run has. *)

From stdpp Require Import gmap strings list pretty.
From Stdlib Require Import ZArith Lia.

(* ===================================================================== *)
(** * Ingestion service *)
(* ===================================================================== *)

Module Ingestion.

(** An awaited [httpx] call either raises (connection refused, timeout, ...)
    or yields a response with a status code and a body. *)
Inductive Http (B : Type) : Type :=
  | TransportError : Http B
  | Reply (status_code : nat) (body : B) : Http B.
Arguments TransportError {B}.
Arguments Reply {B} status_code body.

(** Python truthiness of a string id: [if asset_class_id:]. *)
Definition truthy (s : string) : bool :=
  match s with
  | EmptyString => false
  | String _ _ => true
  end.

(** [not x] for [x = d.get(k)]: a missing key or an empty id. *)
Definition falsy_id (o : option string) : bool :=
  match o with
  | Some s => negb (truthy s)
  | None => true
  end.

(** ** Shapes of the data (the TypedDicts of the managers) *)

Record AssetClassData := {
  ac_name : string;
  ac_description : string;
  ac_status : string
}.

Record InvestorData := {
  inv_name : string;
  inv_investor_type : string;
  inv_country : string;
  inv_date_added : string
}.

(** An element of a list endpoint, read as [item['name']] and [item['id']]:
    [None] is a key whose access raises. *)
Record ListItem := {
  item_name : option string;
  item_id : option string
}.

(** An element of a bulk-create answer, read as [item.get('id')]. *)
Inductive BulkItem :=
  | ItemObject (id : option string)
  | ItemNotObject.

(** The body of a bulk-create answer after [response.json()]. *)
Inductive BulkBody :=
  | BodyList (items : list BulkItem)
  | BodyNotList
  | BodyInvalid.

(** The body of an individual create answer: [result['data']['id']] and
    [result['id']], each possibly missing. *)
Record CreateBody := {
  body_data_id : option string;
  body_id : option string
}.

(** A page of the investor list endpoint; [data.get('investors', [])] and
    [data.get('has_next', False)] supply the defaults of missing fields. *)
Record InvestorListResponse := {
  investors : list ListItem;
  investors_has_next : bool
}.

Record AssetClassService := {
  ac_get_list : Http (option (list ListItem));
  ac_post_bulk : list AssetClassData -> Http BulkBody;
  ac_post_one : AssetClassData -> Http (option CreateBody)
}.

Record InvestorService := {
  inv_get_page : nat -> Http (option InvestorListResponse);
  inv_post_bulk : list InvestorData -> Http BulkBody;
  inv_post_one : InvestorData -> Http (option CreateBody)
}.

(** ** CSV cells: [str.strip] on the ASCII whitespace characters *)

Definition is_space (c : Ascii.ascii) : bool :=
  let n := Ascii.nat_of_ascii c in
  ((9 <=? n) && (n <=? 13)) || ((28 <=? n) && (n <=? 32)).

Fixpoint lstrip (s : string) : string :=
  match s with
  | EmptyString => EmptyString
  | String c s' => if is_space c then lstrip s' else s
  end.

Fixpoint rstrip (s : string) : string :=
  match s with
  | EmptyString => EmptyString
  | String c s' =>
      match rstrip s' with
      | EmptyString => if is_space c then EmptyString else String c EmptyString
      | r => String c r
      end
  end.

Definition strip (s : string) : string := rstrip (lstrip s).

Section WithAmount.

(** Commitment amounts are Python floats.  The ingestion code never computes
    with them: it prints them into the dedup key ([amount_str], the text of
    [f"{amount}"]), tests their sign once in the parser ([amount_positive],
    [amount > 0]) and forwards them. *)
Context {Amount : Type}.
Variable amount_str : Amount -> string.
Variable amount_positive : Amount -> bool.

Record CommitmentData := {
  investor_name : string;
  asset_class_name : string;
  amount : Amount;
  currency : string
}.

Record CommitmentCreateRequest := {
  req_investor_id : string;
  req_asset_class_id : string;
  req_amount : Amount;
  req_currency : string
}.

Record CreatedCommitmentResponse := {
  created_id : string;
  created_investor_id : string;
  created_asset_class_id : string;
  created_amount : Amount;
  created_currency : string
}.

Record CommitmentListResponse := {
  commitments : list CreatedCommitmentResponse;
  commitments_has_next : bool
}.

(** The list endpoint of the commitment service is asked again for the same
    page after a transport error, so its answer is indexed by the number of
    requests already made as well as by the page. *)
Record CommitmentService := {
  cm_get_page : nat -> nat -> Http (option CommitmentListResponse);
  cm_post_bulk :
    list CommitmentCreateRequest ->
    Http (option (list CreatedCommitmentResponse))
}.

(** ** Remote calls and the monad that records them *)

Inductive Call :=
  | GetAssetClasses
  | PostAssetClassesBulk (payload : list AssetClassData)
  | PostAssetClass (payload : AssetClassData)
  | GetInvestors (page : nat)
  | PostInvestorsBulk (payload : list InvestorData)
  | PostInvestor (payload : InvestorData)
  | GetCommitments (page : nat)
  | PostCommitmentsBulk (payload : list CommitmentCreateRequest).

(** A run either does not return within its fuel ([None]) or returns a value
    together with the remote calls it issued, oldest first. *)
Definition M (A : Type) : Type := option (A * list Call).

Global Instance M_ret : MRet M := fun A a => Some (a, []).

Global Instance M_bind : MBind M := fun A B f m =>
  match m with
  | None => None
  | Some (a, t1) =>
      match f a with
      | None => None
      | Some (b, t2) => Some (b, t1 ++ t2)
      end
  end.

Definition call (c : Call) : M unit := Some (tt, [c]).

Definition diverge {A : Type} : M A := None.

(** [asyncio.gather] over coroutines that do not raise: the results in the
    order of the tasks.  The oracles are stateless, so the interleaving of
    the requests does not show in the results. *)
Fixpoint gather {A B : Type} (f : A -> M B) (tasks : list A) : M (list B) :=
  match tasks with
  | [] => mret []
  | x :: rest =>
      y ← f x;
      ys ← gather f rest;
      mret (y :: ys)
  end.

(** ** Helpers shared by the two entity managers *)

(** The loop [for e in existing: if e['name'] in names: m[e['name']] = e['id']].
    A key error ends the loop through the enclosing handler, which returns
    what was built so far. *)
Fixpoint scan_existing (names : list string) (existing : list ListItem)
    (name_to_id : gmap string string) : gmap string string :=
  match existing with
  | [] => name_to_id
  | e :: rest =>
      match item_name e with
      | None => name_to_id
      | Some name =>
          if bool_decide (name ∈ names) then
            match item_id e with
            | None => name_to_id
            | Some id => scan_existing names rest (<[name := id]> name_to_id)
            end
          else scan_existing names rest name_to_id
      end
  end.

(** [if entity_id: name_to_id[name] = entity_id], for [entity_id] possibly
    [None]. *)
Definition assign_id (name : string) (entity_id : option string)
    (name_to_id : gmap string string) : gmap string string :=
  match entity_id with
  | Some id => if truthy id then <[name := id]> name_to_id else name_to_id
  | None => name_to_id
  end.

(** The loop [for i, created in enumerate(created_list)] of the bulk path;
    [None] is the [AttributeError] of [created.get] on a non-object. *)
Fixpoint zip_created (name_order : list string) (i : nat)
    (created : list BulkItem) (name_to_id : gmap string string)
    : option (gmap string string) :=
  match created with
  | [] => Some name_to_id
  | c :: rest =>
      match name_order !! i with
      | Some name =>
          match c with
          | ItemNotObject => None
          | ItemObject entity_id =>
              zip_created name_order (S i) rest
                (assign_id name entity_id name_to_id)
          end
      | None => zip_created name_order (S i) rest name_to_id
      end
  end.

(** The loop over the gathered [(name, id)] results of the fallback. *)
Definition collect_created (results : list (string * option string))
    : gmap string string :=
  foldl (fun name_to_id (r : string * option string) =>
           assign_id r.1 r.2 name_to_id)
        ∅ results.

(** ** asset_class_manager.py *)

Definition _fetch_existing_asset_classes (client : AssetClassService)
    (asset_class_names : list string) : M (gmap string string) :=
  call GetAssetClasses;;
  match ac_get_list client with
  | TransportError => mret ∅
  | Reply _ None => mret ∅
  | Reply _ (Some asset_classes) =>
      mret (scan_existing asset_class_names asset_classes ∅)
  end.

Definition _create_single_asset_class (client : AssetClassService)
    (task : string * AssetClassData) : M (string * option string) :=
  let '(name, data) := task in
  call (PostAssetClass data);;
  match ac_post_one client data with
  | TransportError => mret (name, None)
  | Reply status_code body =>
      if status_code =? 201 then
        match body with
        | None => mret (name, None)
        | Some result =>
            match body_data_id result with
            | Some actual_id => mret (name, Some actual_id)
            | None =>
                match body_id result with
                | Some actual_id => mret (name, Some actual_id)
                | None => mret (name, None)
                end
            end
        end
      else mret (name, None)
  end.

Definition _create_asset_classes_individually_fallback
    (client : AssetClassService)
    (asset_classes : list (string * AssetClassData))
    : M (gmap string string) :=
  results ← gather (_create_single_asset_class client) asset_classes;
  mret (collect_created results).

Definition _bulk_create_asset_classes (client : AssetClassService)
    (asset_classes : list (string * AssetClassData))
    : M (gmap string string) :=
  match asset_classes with
  | [] => mret ∅
  | _ :: _ =>
      let asset_classes_list := asset_classes.*2 in
      let name_order := asset_classes.*1 in
      call (PostAssetClassesBulk asset_classes_list);;
      match ac_post_bulk client asset_classes_list with
      | TransportError =>
          _create_asset_classes_individually_fallback client asset_classes
      | Reply status_code body =>
          if status_code =? 200 then
            match body with
            | BodyInvalid =>
                _create_asset_classes_individually_fallback client asset_classes
            | BodyNotList => mret ∅
            | BodyList created_asset_classes =>
                match zip_created name_order 0 created_asset_classes ∅ with
                | Some name_to_id => mret name_to_id
                | None =>
                    _create_asset_classes_individually_fallback
                      client asset_classes
                end
            end
          else _create_asset_classes_individually_fallback client asset_classes
      end
  end.

(** [name_to_id.update(bulk_mapping)]: the entries of [bulk_mapping] win;
    stdpp's union is left-biased. *)
Definition bulk_create_asset_classes (client : AssetClassService)
    (asset_classes : list (string * AssetClassData))
    : M (gmap string string) :=
  match asset_classes with
  | [] => mret ∅
  | _ :: _ =>
      name_to_id ← _fetch_existing_asset_classes client asset_classes.*1;
      let new_asset_classes :=
        filter (fun nd => name_to_id !! nd.1 = None) asset_classes in
      match new_asset_classes with
      | _ :: _ =>
          bulk_mapping ← _bulk_create_asset_classes client new_asset_classes;
          mret (bulk_mapping ∪ name_to_id)
      | [] => mret name_to_id
      end
  end.

(** ** investor_manager.py *)

(** The [while True] loop of [_fetch_existing_investors].  The inner result
    is [None] when the loop is left by an exception (a transport error or a
    body that is not JSON), which the handler of the function catches. *)
Fixpoint fetch_investor_pages (fuel : nat) (client : InvestorService)
    (page : nat) (all_existing_investors : list ListItem)
    : M (option (list ListItem)) :=
  match fuel with
  | 0 => diverge
  | S fuel' =>
      call (GetInvestors page);;
      match inv_get_page client page with
      | TransportError => mret None
      | Reply status_code body =>
          if status_code =? 200 then
            match body with
            | None => mret None
            | Some data =>
                let all_existing_investors :=
                  all_existing_investors ++ investors data in
                if investors_has_next data then
                  fetch_investor_pages fuel' client (S page)
                    all_existing_investors
                else mret (Some all_existing_investors)
            end
          else mret (Some all_existing_investors)
      end
  end.

Definition _fetch_existing_investors (fuel : nat) (client : InvestorService)
    (investor_names : list string) : M (gmap string string) :=
  fetched ← fetch_investor_pages fuel client 1 [];
  match fetched with
  | None => mret ∅
  | Some all_existing_investors =>
      mret (scan_existing investor_names all_existing_investors ∅)
  end.

Definition _create_single_investor (client : InvestorService)
    (task : string * InvestorData) : M (string * option string) :=
  let '(name, data) := task in
  call (PostInvestor data);;
  match inv_post_one client data with
  | TransportError => mret (name, None)
  | Reply status_code body =>
      if status_code =? 201 then
        match body with
        | None => mret (name, None)
        | Some result =>
            match body_id result with
            | Some actual_id => mret (name, Some actual_id)
            | None => mret (name, None)
            end
        end
      else mret (name, None)
  end.

Definition _create_investors_individually_fallback (client : InvestorService)
    (investors_ : list (string * InvestorData)) : M (gmap string string) :=
  results ← gather (_create_single_investor client) investors_;
  mret (collect_created results).

Definition _bulk_create_investors (client : InvestorService)
    (investors_ : list (string * InvestorData)) : M (gmap string string) :=
  match investors_ with
  | [] => mret ∅
  | _ :: _ =>
      let investors_list := investors_.*2 in
      let name_order := investors_.*1 in
      call (PostInvestorsBulk investors_list);;
      match inv_post_bulk client investors_list with
      | TransportError =>
          _create_investors_individually_fallback client investors_
      | Reply status_code body =>
          if status_code =? 200 then
            match body with
            | BodyInvalid =>
                _create_investors_individually_fallback client investors_
            | BodyNotList => mret ∅
            | BodyList created_investors =>
                match zip_created name_order 0 created_investors ∅ with
                | Some name_to_id => mret name_to_id
                | None =>
                    _create_investors_individually_fallback client investors_
                end
            end
          else _create_investors_individually_fallback client investors_
      end
  end.

Definition bulk_create_investors (fuel : nat) (client : InvestorService)
    (investors_ : list (string * InvestorData)) : M (gmap string string) :=
  match investors_ with
  | [] => mret ∅
  | _ :: _ =>
      name_to_id ← _fetch_existing_investors fuel client investors_.*1;
      let new_investors :=
        filter (fun nd => name_to_id !! nd.1 = None) investors_ in
      match new_investors with
      | _ :: _ =>
          bulk_mapping ← _bulk_create_investors client new_investors;
          mret (bulk_mapping ∪ name_to_id)
      | [] => mret name_to_id
      end
  end.

(** ** commitment_manager.py *)

(** The dedup key [f"{investor_id}:{asset_class_id}:{amount}:{currency}"]. *)
Definition unique_commitment_key (investor_id asset_class_id : string)
    (a : Amount) (cur : string) : string :=
  investor_id +:+ ":" +:+ asset_class_id +:+ ":" +:+ amount_str a
    +:+ ":" +:+ cur.

Definition existing_key (c : CreatedCommitmentResponse) : string :=
  unique_commitment_key (created_investor_id c) (created_asset_class_id c)
    (created_amount c) (created_currency c).

(** The [while True] loop of [_fetch_existing_commitments], statement by
    statement: the [try] around the request ([continue] on an exception,
    [break] on status 200), the test [if not response or
    response.status_code != 200] (a response object is truthy), and the
    statements that read the page. *)
Fixpoint fetch_commitment_pages (fuel : nat) (client : CommitmentService)
    (requests page : nat) (existing_keys : gset string) : M (gset string) :=
  match fuel with
  | 0 => diverge
  | S fuel' =>
      call (GetCommitments page);;
      match cm_get_page client requests page with
      | TransportError =>
          fetch_commitment_pages fuel' client (S requests) page existing_keys
      | Reply status_code body =>
          if status_code =? 200 then mret existing_keys
          else if negb (status_code =? 200) then mret existing_keys
          else
            match body with
            | None => mret existing_keys
            | Some data =>
                match commitments data with
                | [] => mret existing_keys
                | _ :: _ =>
                    let existing_keys :=
                      foldl (fun keys c => {[ existing_key c ]} ∪ keys)
                        existing_keys (commitments data) in
                    if commitments_has_next data then
                      fetch_commitment_pages fuel' client (S requests)
                        (S page) existing_keys
                    else mret existing_keys
                end
            end
      end
  end.

Definition _fetch_existing_commitments (fuel : nat)
    (client : CommitmentService) : M (gset string) :=
  fetch_commitment_pages fuel client 0 1 ∅.

(** The body of the loop [for commitment in commitments_data]: [None] for a
    [continue], the request appended otherwise. *)
Definition candidate_request (existing_commitments : gset string)
    (investor_name_to_id asset_class_name_to_id : gmap string string)
    (commitment : CommitmentData) : option CommitmentCreateRequest :=
  let investor_id := investor_name_to_id !! investor_name commitment in
  let asset_class_id := asset_class_name_to_id !! asset_class_name commitment in
  if falsy_id investor_id || falsy_id asset_class_id then None
  else
    match investor_id, asset_class_id with
    | Some investor_id, Some asset_class_id =>
        let key :=
          unique_commitment_key investor_id asset_class_id
            (amount commitment) (currency commitment) in
        if bool_decide (key ∈ existing_commitments) then None
        else Some {| req_investor_id := investor_id;
                     req_asset_class_id := asset_class_id;
                     req_amount := amount commitment;
                     req_currency := currency commitment |}
    | _, _ => None
    end.

Definition bulk_create_commitments (fuel : nat) (client : CommitmentService)
    (commitments_data : list CommitmentData)
    (investor_name_to_id asset_class_name_to_id : gmap string string)
    : M nat :=
  existing_commitments ← _fetch_existing_commitments fuel client;
  let bulk_commitments :=
    omap (candidate_request existing_commitments investor_name_to_id
            asset_class_name_to_id) commitments_data in
  match bulk_commitments with
  | [] => mret 0
  | _ :: _ =>
      call (PostCommitmentsBulk bulk_commitments);;
      match cm_post_bulk client bulk_commitments with
      | TransportError => mret 0
      | Reply status_code body =>
          if status_code =? 200 then
            match body with
            | Some created => mret (length created)
            | None => mret 0
            end
          else mret 0
      end
  end.

(** ** csv_parser.py *)

(** [float(row['Commitment Amount'])] yields a float or raises. *)
Inductive AmountCell :=
  | AmountValue (a : Amount)
  | AmountInvalid (error : string).

Record CsvRow := {
  cell_investor_name : string;
  cell_investory_type : string;
  cell_investor_country : string;
  cell_investor_date_added : string;
  cell_commitment_asset_class : string;
  cell_commitment_amount : AmountCell;
  cell_commitment_currency : string
}.

Record DataFrame := {
  columns : list string;
  rows : list CsvRow
}.

Definition required_columns : list string :=
  [ "Investor Name"; "Investory Type"; "Investor Country";
    "Investor Date Added"; "Commitment Asset Class"; "Commitment Amount";
    "Commitment Currency" ].

Definition validate_csv_structure (df : DataFrame) : bool :=
  let missing_columns :=
    filter (fun col => col ∉ columns df) required_columns in
  match missing_columns with
  | _ :: _ => false
  | [] => true
  end.

(** The three results of the parser: the dicts keep their insertion order. *)
Definition Parsed : Type :=
  list (string * InvestorData) * list (string * AssetClassData)
  * list CommitmentData.

(** The loop [for _, row in df.iterrows()]; [inl] carries the message of the
    exception that [float] raised. *)
Fixpoint parse_rows (todo : list CsvRow)
    (unique_investors : list (string * InvestorData))
    (unique_asset_classes : list (string * AssetClassData))
    (commitments_data : list CommitmentData) : string + Parsed :=
  match todo with
  | [] => inr (unique_investors, unique_asset_classes, commitments_data)
  | row :: rest =>
      let investor_name := strip (cell_investor_name row) in
      let unique_investors :=
        if bool_decide (investor_name ∈ unique_investors.*1)
        then unique_investors
        else unique_investors ++
               [(investor_name,
                 {| inv_name := investor_name;
                    inv_investor_type := strip (cell_investory_type row);
                    inv_country := strip (cell_investor_country row);
                    inv_date_added := strip (cell_investor_date_added row) |})]
      in
      let asset_class_name := strip (cell_commitment_asset_class row) in
      let unique_asset_classes :=
        if bool_decide (asset_class_name ∈ unique_asset_classes.*1)
        then unique_asset_classes
        else unique_asset_classes ++
               [(asset_class_name,
                 {| ac_name := asset_class_name;
                    ac_description :=
                      asset_class_name +:+ " investment opportunities";
                    ac_status := "active" |})]
      in
      match cell_commitment_amount row with
      | AmountInvalid e => inl e
      | AmountValue a =>
          let commitments_data :=
            if amount_positive a
            then commitments_data ++
                   [{| investor_name := investor_name;
                       asset_class_name := asset_class_name;
                       amount := a;
                       currency := strip (cell_commitment_currency row) |}]
            else commitments_data
          in
          parse_rows rest unique_investors unique_asset_classes
            commitments_data
      end
  end.

Definition parse_csv_data (df : DataFrame) : string + Parsed :=
  parse_rows (rows df) [] [] [].

(** ** data_processor.py *)

Inductive JobStatus := completed | failed.

Record Summary := {
  unique_investors_in_csv : nat;
  unique_asset_classes_in_csv : nat;
  total_commitment_rows_in_csv : nat;
  dependencies_valid : nat;
  dependencies_invalid : nat
}.

(** The result dict, without the [success_rates] strings. *)
Record JobResult := {
  job_id : string;
  status : JobStatus;
  error : option string;
  asset_classes_created : nat;
  investors_created : nat;
  commitments_created : nat;
  total_rows_processed : nat;
  summary : option Summary
}.

Record DataProcessor := {
  asset_class_manager : AssetClassService;
  investor_manager : InvestorService;
  commitment_manager : CommitmentService
}.

Definition _error_result (job : string) (total_rows : nat)
    (error_msg : string)
    (asset_classes_created_ investors_created_ commitments_created_ : nat)
    : JobResult :=
  {| job_id := job;
     status := failed;
     error := Some error_msg;
     asset_classes_created := asset_classes_created_;
     investors_created := investors_created_;
     commitments_created := commitments_created_;
     total_rows_processed := total_rows;
     summary := None |}.

Fixpoint _count_valid_commitments (commitments_ : list CommitmentData)
    (investor_mapping asset_class_mapping : gmap string string) : nat :=
  match commitments_ with
  | [] => 0
  | commitment :: rest =>
      let has_investor :=
        bool_decide (is_Some (investor_mapping !! investor_name commitment)) in
      let has_asset_class :=
        bool_decide
          (is_Some (asset_class_mapping !! asset_class_name commitment)) in
      (if has_investor && has_asset_class then 1 else 0)
      + _count_valid_commitments rest investor_mapping asset_class_mapping
  end.

(** [process_dataframe]; closing the HTTP client in the [finally] clause is
    not a remote call and leaves no entry in the trace. *)
Definition process_dataframe (fuel : nat) (self : DataProcessor)
    (df : DataFrame) (job : string) : M JobResult :=
  if negb (validate_csv_structure df) then
    mret (_error_result job (length (rows df)) "Invalid CSV structure" 0 0 0)
  else
    match parse_csv_data df with
    | inl e => mret (_error_result job (length (rows df)) e 0 0 0)
    | inr (investors_, asset_classes, commitments_) =>
        asset_class_mapping ←
          bulk_create_asset_classes (asset_class_manager self) asset_classes;
        if (size asset_class_mapping =? 0) && (0 <? length asset_classes) then
          mret (_error_result job (length (rows df))
                  "Failed to create asset classes" 0 0 0)
        else
          investor_mapping ←
            bulk_create_investors fuel (investor_manager self) investors_;
          if (size investor_mapping =? 0) && (0 <? length investors_) then
            mret (_error_result job (length (rows df))
                    "Failed to create investors"
                    (size asset_class_mapping) 0 0)
          else
            let valid_commitments :=
              _count_valid_commitments commitments_ investor_mapping
                asset_class_mapping in
            if valid_commitments =? 0 then
              mret (_error_result job (length (rows df))
                      "No valid commitments: missing dependencies"
                      (size asset_class_mapping) (size investor_mapping) 0)
            else
              commitment_count ←
                bulk_create_commitments fuel (commitment_manager self)
                  commitments_ investor_mapping asset_class_mapping;
              mret {| job_id := job;
                      status := completed;
                      error := None;
                      asset_classes_created := size asset_class_mapping;
                      investors_created := size investor_mapping;
                      commitments_created := commitment_count;
                      total_rows_processed := length (rows df);
                      summary :=
                        Some {| unique_investors_in_csv := length investors_;
                                unique_asset_classes_in_csv :=
                                  length asset_classes;
                                total_commitment_rows_in_csv :=
                                  length commitments_;
                                dependencies_valid := valid_commitments;
                                dependencies_invalid :=
                                  length commitments_ - valid_commitments |}
                   |}
    end.

End WithAmount.

End Ingestion.

(* ===================================================================== *)
(** * Commitment service: repository create paths and event publisher *)
(* ===================================================================== *)

Module CommitmentService.

Inductive LogLevel := INFO | WARNING | ERROR.

(** The exceptions the create paths meet.  [RedisError] stands for the
    classes the publisher lists ([redis.RedisError] and its subclasses
    [ConnectionError] and [TimeoutError]). *)
Inductive Exn :=
  | RedisError
  | RuntimeError (msg : string)
  | DatabaseError
  | OtherError.

Definition is_redis_error (e : Exn) : bool :=
  match e with
  | RedisError => true
  | _ => false
  end.

(** Amounts are decimals with two places ([CommitmentBase.amount]); the
    model keeps the number of hundredths. *)
Record CommitmentCreate := {
  new_investor_id : string;
  new_asset_class_id : string;
  new_amount : Z;
  new_currency : string
}.

Record CommitmentResponse := {
  id : string;
  investor_id : string;
  asset_class_id : string;
  amount : Z;
  currency : string
}.

Record CommitmentCreatedEvent := {
  event_type : string;
  event_commitment_id : string;
  event_investor_id : string;
  event_asset_class_id : string;
  event_amount : Z;
  event_currency : string
}.

(** What the two create paths act on: the table of the SQLite connection
    (committed rows, and the rows of the open transaction), the
    [investor_updates] channel, and the log. *)
Record World := {
  committed : list CommitmentResponse;
  pending : list CommitmentResponse;
  channel : list CommitmentCreatedEvent;
  log : list (LogLevel * string)
}.

Inductive Result (A : Type) : Type :=
  | Returned (a : A)
  | Raised (e : Exn).
Arguments Returned {A} a.
Arguments Raised {A} e.

Definition P (A : Type) : Type := World -> Result A * World.

#[global] Instance P_ret : MRet P := fun A a w => (Returned a, w).

#[global] Instance P_bind : MBind P := fun A B f m w =>
  match m w with
  | (Returned a, w') => f a w'
  | (Raised e, w') => (Raised e, w')
  end.

Definition raise {A : Type} (e : Exn) : P A := fun w => (Raised e, w).

(** [try: body except <classes>: handler]; the handler answers [None] for an
    exception outside its classes, which then propagates. *)
Definition try_except {A : Type} (body : P A) (handler : Exn -> option (P A))
    : P A := fun w =>
  match body w with
  | (Returned a, w') => (Returned a, w')
  | (Raised e, w') =>
      match handler e with
      | Some h => h w'
      | None => (Raised e, w')
      end
  end.

(** [try: body finally: cleanup]. *)
Definition try_finally {A : Type} (body : P A) (cleanup : P unit) : P A :=
  fun w =>
  match body w with
  | (r, w') =>
      match cleanup w' with
      | (Returned _, w'') => (r, w'')
      | (Raised e, w'') => (Raised e, w'')
      end
  end.

Definition logger (level : LogLevel) (msg : string) : P unit := fun w =>
  (Returned tt,
   {| committed := committed w; pending := pending w; channel := channel w;
      log := log w ++ [(level, msg)] |}).

(** ** event_publisher.py *)

(** [_redis] is [None] until [connect] ran; a connection answers a publish
    with the exception it raises, if any. *)
Record EventPublisher := {
  _redis : option (CommitmentCreatedEvent -> option Exn)
}.

Definition redis_publish (event : CommitmentCreatedEvent) : P unit := fun w =>
  (Returned tt,
   {| committed := committed w; pending := pending w;
      channel := channel w ++ [event]; log := log w |}).

Definition publish_commitment_created (self : EventPublisher)
    (commitment_data : CommitmentResponse) : P unit :=
  try_finally
    (try_except
       (let event :=
          {| event_type := "commitment_created";
             event_commitment_id := id commitment_data;
             event_investor_id := investor_id commitment_data;
             event_asset_class_id := asset_class_id commitment_data;
             event_amount := amount commitment_data;
             event_currency := currency commitment_data |} in
        match _redis self with
        | None => raise (RuntimeError "No Redis connection found")
        | Some connection =>
            match connection event with
            | Some e => raise e
            | None =>
                redis_publish event;;
                logger INFO "Published commitment_created event for investor"
            end
        end)
       (fun e =>
          if is_redis_error e
          then Some (logger ERROR "Redis error in event publisher")
          else None))
    (logger INFO "Stopped publishing events").

(** ** commitment_repository.py *)

(** [uuid4] supplies the ids of the rows a call creates, by position;
    [insert_raises] tells whether the INSERT statement raises. *)
Record CommitmentRepository := {
  uuid4 : nat -> string;
  insert_raises : bool;
  event_publisher : EventPublisher
}.

Definition prepare_commitment_for_db (new_id : string)
    (commitment : CommitmentCreate) : CommitmentResponse :=
  {| id := new_id;
     investor_id := new_investor_id commitment;
     asset_class_id := new_asset_class_id commitment;
     amount := new_amount commitment;
     currency := new_currency commitment |}.

Definition execute_insert (self : CommitmentRepository)
    (docs : list CommitmentResponse) : P unit := fun w =>
  if insert_raises self then (Raised DatabaseError, w)
  else
    (Returned tt,
     {| committed := committed w; pending := pending w ++ docs;
        channel := channel w; log := log w |}).

Definition commit : P unit := fun w =>
  (Returned tt,
   {| committed := committed w ++ pending w; pending := [];
      channel := channel w; log := log w |}).

Definition rollback : P unit := fun w =>
  (Returned tt,
   {| committed := committed w; pending := [];
      channel := channel w; log := log w |}).

(** The SELECT statements read through the connection that wrote: committed
    rows and the rows of its open transaction. *)
Definition select_where (keep : CommitmentResponse -> bool)
    : P (list CommitmentResponse) := fun w =>
  (Returned (filter (fun row => keep row = true) (committed w ++ pending w)),
   w).

Definition get_commitment_by_id (commitment_id : string)
    : P (option CommitmentResponse) :=
  found ← select_where (fun row => bool_decide (id row = commitment_id));
  mret (head found).

Definition create_commitment (self : CommitmentRepository)
    (commitment_data : CommitmentCreate) : P (option CommitmentResponse) :=
  try_except
    (let db_doc := prepare_commitment_for_db (uuid4 self 0) commitment_data in
     logger INFO "Creating commitment for investor";;
     execute_insert self [db_doc];;
     commit;;
     created_commitment ← get_commitment_by_id (id db_doc);
     match created_commitment with
     | Some created =>
         logger INFO "Successfully created commitment with ID";;
         publish_commitment_created (event_publisher self) created;;
         mret (Some created)
     | None =>
         logger ERROR "Failed to retrieve created commitment with id";;
         mret None
     end)
    (fun e =>
       Some (logger ERROR "Error creating commitment";;
             rollback;;
             mret None)).

(** [asyncio.gather] with [return_exceptions=True]: every task runs, and a
    task that raises contributes its exception as a result. *)
Fixpoint gather_return_exceptions {A : Type} (tasks : list (P A))
    : P (list (Result A)) := fun w =>
  match tasks with
  | [] => (Returned [], w)
  | task :: rest =>
      match task w with
      | (r, w') =>
          match gather_return_exceptions rest w' with
          | (Returned rs, w'') => (Returned (r :: rs), w'')
          | (Raised e, w'') => (Raised e, w'')
          end
      end
  end.

(** The loop [for result in results: if isinstance(results, BaseException)]:
    the test is on the list [results], which is no exception. *)
Fixpoint log_publish_failures {A : Type} (results_is_exception : bool)
    (todo : list (Result A)) : P unit :=
  match todo with
  | [] => mret tt
  | _ :: rest =>
      (if results_is_exception
       then logger ERROR "Concurrent task failed for commitment publish"
       else mret tt);;
      log_publish_failures results_is_exception rest
  end.

Definition bulk_create_commitments (self : CommitmentRepository)
    (commitments : list CommitmentCreate) : P (list CommitmentResponse) :=
  match commitments with
  | [] => mret []
  | _ :: _ =>
      try_except
        (logger INFO "Bulk creating commitments";;
         let commitment_docs :=
           imap (fun i c => prepare_commitment_for_db (uuid4 self i) c)
             commitments in
         let commitment_ids := id <$> commitment_docs in
         execute_insert self commitment_docs;;
         commit;;
         created_commitments ←
           select_where (fun row => bool_decide (id row ∈ commitment_ids));
         logger INFO "Successfully bulk created commitments";;
         results ←
           gather_return_exceptions
             (publish_commitment_created (event_publisher self)
                <$> created_commitments);
         log_publish_failures false results;;
         mret created_commitments)
        (fun e =>
           Some (logger ERROR "Error bulk creating commitments";;
                 rollback;;
                 mret []))
  end.

End CommitmentService.

(* ===================================================================== *)
(** * Investor service: the event subscriber and the aggregate it updates *)
(* ===================================================================== *)

Module InvestorService.

(** The fields of an investor document the subscriber reads and writes.
    The total is kept in hundredths, as the amounts of the events are. *)
Record InvestorResponse := {
  id : string;
  name : string;
  commitment_count : nat;
  total_commitment_amount : Z
}.

(** The collection, by the [id] field of its documents. *)
Abbreviation Collection := (gmap string InvestorResponse).

(** [event_data['amount']] as [Decimal(...)] meets it: a number (or its
    text), a missing key ([KeyError]), a value that is no number
    ([TypeError]), or a text that is no number ([decimal.InvalidOperation]). *)
Inductive AmountField :=
  | AmountNumber (a : Z)
  | AmountMissing
  | AmountWrongType
  | AmountMalformed.

Record EventData := {
  event_type : option string;
  investor_id : option string;
  amount : AmountField
}.

(** [json.loads(message['data'])]. *)
Inductive Payload :=
  | InvalidJson
  | JsonNotObject
  | JsonObject (event_data : EventData).

(** The exceptions that none of the handlers of the subscriber lists. *)
Inductive Exn :=
  | AttributeError
  | InvalidOperation.

Inductive Result :=
  | Returned
  | Raised (e : Exn).

(** The message the publisher of the commitment service puts on the channel,
    as the subscriber decodes it. *)
Definition decode (event : CommitmentService.CommitmentCreatedEvent)
    : Payload :=
  JsonObject
    {| event_type := Some (CommitmentService.event_type event);
       investor_id := Some (CommitmentService.event_investor_id event);
       amount := AmountNumber (CommitmentService.event_amount event) |}.

(** ** investor_repository.py *)

Definition get_investor_by_id (collection : Collection)
    (investor_id_ : string) : option InvestorResponse :=
  collection !! investor_id_.

(** [update_one({"id": investor_id}, {"$set": ...})]; the result is
    [modified_count > 0]. *)
Definition update_commitment_metrics (collection : Collection)
    (investor_id_ : string) (commitment_count_ : nat) (total_amount : Z)
    : Collection * bool :=
  match collection !! investor_id_ with
  | Some doc =>
      (<[investor_id_ :=
           {| id := id doc; name := name doc;
              commitment_count := commitment_count_;
              total_commitment_amount := total_amount |}]> collection,
       true)
  | None => (collection, false)
  end.

(** ** event_subscriber.py *)

Definition _handle_commitment_created (event_data : EventData)
    (investor_repo : Collection) : Collection * Result :=
  match investor_id event_data with
  | None => (investor_repo, Returned)
  | Some investor_id_ =>
      match amount event_data with
      | AmountMissing => (investor_repo, Returned)
      | AmountWrongType => (investor_repo, Returned)
      | AmountMalformed => (investor_repo, Raised InvalidOperation)
      | AmountNumber amount_ =>
          match get_investor_by_id investor_repo investor_id_ with
          | None => (investor_repo, Returned)
          | Some investor =>
              let new_count := commitment_count investor + 1 in
              let new_total :=
                (total_commitment_amount investor + amount_)%Z in
              let '(investor_repo, success) :=
                update_commitment_metrics investor_repo investor_id_
                  new_count new_total in
              (investor_repo, Returned)
          end
      end
  end.

Definition _handle_message (message : Payload) (investor_repo : Collection)
    : Collection * Result :=
  match message with
  | InvalidJson => (investor_repo, Returned)
  | JsonNotObject => (investor_repo, Raised AttributeError)
  | JsonObject event_data =>
      if Ingestion.falsy_id (investor_id event_data) then
        (investor_repo, Returned)
      else if bool_decide (event_type event_data = Some "commitment_created")
      then _handle_commitment_created event_data investor_repo
      else (investor_repo, Returned)
  end.

(** What [get_message] yields at one turn of the consumer loop. *)
Inductive Poll :=
  | NoMessage
  | Message (message : Payload)
  | RedisFailure.

Inductive Listener :=
  | Listening
  | Stopped
  | Crashed (e : Exn).

(** The loop [while self._running] of a subscriber whose [connect] ran,
    over the polls the channel delivers: [Listening] when every poll was
    served and the loop is at its next turn, [Stopped] after a Redis error,
    [Crashed] when a handler raised an exception that no clause of the loop
    lists. *)
Fixpoint start_listening (polls : list Poll) (investor_repo : Collection)
    : Collection * Listener :=
  match polls with
  | [] => (investor_repo, Listening)
  | NoMessage :: rest => start_listening rest investor_repo
  | RedisFailure :: _ => (investor_repo, Stopped)
  | Message message :: rest =>
      match _handle_message message investor_repo with
      | (investor_repo, Returned) => start_listening rest investor_repo
      | (investor_repo, Raised e) => (investor_repo, Crashed e)
      end
  end.

End InvestorService.

(* ===================================================================== *)
(** * Vocabulary of the statements, and the runs they are tried on *)
(* ===================================================================== *)

Module IngestionSpec.
Import Ingestion.

(** An individual create of an asset class succeeded with [id]: status 201
    and a non-empty id under [data] or, without one there, at the top. *)
Definition asset_class_created (client : AssetClassService)
    (data : AssetClassData) (id : string) : Prop :=
  ∃ result,
    ac_post_one client data = Reply 201 (Some result)
    ∧ (body_data_id result = Some id
       ∨ (body_data_id result = None ∧ body_id result = Some id))
    ∧ truthy id = true.

Definition investor_created (client : InvestorService)
    (data : InvestorData) (id : string) : Prop :=
  ∃ result,
    inv_post_one client data = Reply 201 (Some result)
    ∧ body_id result = Some id
    ∧ truthy id = true.

(** The bulk-create call failed: a transport error or a non-2xx answer. *)
Definition bulk_call_failed (answer : Http BulkBody) : Prop :=
  answer = TransportError
  ∨ ∃ status_code body,
      answer = Reply status_code body ∧ ¬ (200 <= status_code < 300).

(** The id the [i]-th element of a bulk answer carries, when it carries a
    non-empty one. *)
Definition positional_id (ids : list (option string)) (i : nat)
    : option string :=
  match ids !! i with
  | Some (Some id) => if truthy id then Some id else None
  | _ => None
  end.

(** A page of the investor list that makes the loop ask for the next one. *)
Definition page_continues (client : InvestorService) (page : nat) : Prop :=
  ∃ data, inv_get_page client page = Reply 200 (Some data)
          ∧ investors_has_next data = true.

(** A page on which the loop is left by an exception. *)
Definition page_raises (client : InvestorService) (page : nat) : bool :=
  match inv_get_page client page with
  | TransportError => true
  | Reply status_code None => status_code =? 200
  | Reply _ (Some _) => false
  end.

(** The investors of a successful page; none for any other page. *)
Definition page_items (client : InvestorService) (page : nat)
    : list ListItem :=
  match inv_get_page client page with
  | Reply status_code (Some data) =>
      if status_code =? 200 then investors data else []
  | _ => []
  end.

Definition snapshot (client : InvestorService) (first count : nat)
    : list ListItem :=
  concat (page_items client <$> seq first count).

Section WithAmount.
Context {Amount : Type}.

(** Both names of a commitment row are keys of the resolved mappings. *)
Definition dependencies_resolved
    (investor_mapping asset_class_mapping : gmap string string)
    (commitment : @CommitmentData Amount) : Prop :=
  is_Some (investor_mapping !! investor_name commitment)
  ∧ is_Some (asset_class_mapping !! asset_class_name commitment).

#[global] Instance dependencies_resolved_dec
    (investor_mapping asset_class_mapping : gmap string string)
    (commitment : @CommitmentData Amount) :
  Decision (dependencies_resolved investor_mapping asset_class_mapping
              commitment) :=
  and_dec _ _.

(** [request] is the create request of [commitment] under the mappings. *)
Definition request_for
    (investor_mapping asset_class_mapping : gmap string string)
    (commitment : @CommitmentData Amount)
    (request : @CommitmentCreateRequest Amount) : Prop :=
  investor_mapping !! investor_name commitment
    = Some (req_investor_id request)
  ∧ asset_class_mapping !! asset_class_name commitment
    = Some (req_asset_class_id request)
  ∧ req_amount request = amount commitment
  ∧ req_currency request = currency commitment.


End WithAmount.

(** ** Runs on whole amounts *)

(** Whole amounts, printed as Python prints such a float ([100.0]). *)
Definition whole_str (a : Z) : string := pretty a +:+ ".0".
Definition whole_positive (a : Z) : bool := bool_decide (0 < a)%Z.

Definition item (name id : string) : ListItem :=
  {| item_name := Some name; item_id := Some id |}.

Definition asset_class (name : string) : string * AssetClassData :=
  (name,
   {| ac_name := name;
      ac_description := name +:+ " investment opportunities";
      ac_status := "active" |}).

Definition investor (name : string) : string * InvestorData :=
  (name,
   {| inv_name := name; inv_investor_type := "fund manager";
      inv_country := "Singapore"; inv_date_added := "2024-07-26" |}).

Definition csv_row (investor_name_ asset_class_name_ : string) (a : Z)
    : @CsvRow Z :=
  {| cell_investor_name := investor_name_;
     cell_investory_type := "fund manager";
     cell_investor_country := "Singapore";
     cell_investor_date_added := "2024-07-26";
     cell_commitment_asset_class := asset_class_name_;
     cell_commitment_amount := AmountValue a;
     cell_commitment_currency := "USD" |}.

(** An asset-class service that knows "PE" and can create nothing. *)
Definition asset_classes_pe_only : AssetClassService :=
  {| ac_get_list := Reply 200 (Some [item "PE" "ac-pe"]);
     ac_post_bulk := fun _ => Reply 500 BodyInvalid;
     ac_post_one := fun _ => Reply 500 None |}.

(** An investor service that knows three investors and can create none. *)
Definition investors_three_known : InvestorService :=
  {| inv_get_page := fun _ =>
       Reply 200
         (Some {| investors := [item "Alpha" "inv-a"; item "Beta" "inv-b";
                                item "Gamma" "inv-c"];
                  investors_has_next := false |});
     inv_post_bulk := fun _ => Reply 500 BodyInvalid;
     inv_post_one := fun _ => TransportError |}.

(** A commitment service holding [records] on one page. *)
Definition commitments_holding (records : list (@CreatedCommitmentResponse Z))
    : @CommitmentService Z :=
  {| cm_get_page := fun _ page =>
       Reply 200
         (Some {| commitments := if page =? 1 then records else [];
                  commitments_has_next := false |});
     cm_post_bulk := fun requests =>
       Reply 200
         (Some (imap (fun i q =>
                        {| created_id := "c-new-" +:+ pretty i;
                           created_investor_id := req_investor_id q;
                           created_asset_class_id := req_asset_class_id q;
                           created_amount := req_amount q;
                           created_currency := req_currency q |})
                  requests)) |}.

Definition processor : @DataProcessor Z :=
  {| asset_class_manager := asset_classes_pe_only;
     investor_manager := investors_three_known;
     commitment_manager := commitments_holding [] |}.


(** Five investors of which three resolve; every row names "PE". *)
Definition frame_with_valid_rows : @DataFrame Z :=
  {| columns := required_columns;
     rows := [csv_row " Alpha " "PE" 100; csv_row "Beta" "PE" 200;
              csv_row "Gamma" "PE" 300; csv_row "Delta" "PE" 400;
              csv_row "Epsilon" "PE" 500] |}.

Definition five_investors : list (string * InvestorData) :=
  investor <$> ["Alpha"; "Beta"; "Gamma"; "Delta"; "Epsilon"].

Definition five_commitments : list (@CommitmentData Z) :=
  (fun na : string * Z =>
     {| investor_name := na.1; asset_class_name := "PE";
        amount := na.2; currency := "USD" |})
  <$> [("Alpha", 100%Z); ("Beta", 200%Z); ("Gamma", 300%Z);
       ("Delta", 400%Z); ("Epsilon", 500%Z)].

Definition three_resolved : gmap string string :=
  {[ "Alpha" := "inv-a"; "Beta" := "inv-b"; "Gamma" := "inv-c" ]}.

Definition empty_frame : @DataFrame Z :=
  {| columns := required_columns; rows := [] |}.

(** The record a previous run persisted, and the row that maps to its key. *)
Definition persisted : @CreatedCommitmentResponse Z :=
  {| created_id := "c-1"; created_investor_id := "inv-a";
     created_asset_class_id := "ac-pe"; created_amount := 100%Z;
     created_currency := "USD" |}.

Definition resubmitted : @CommitmentData Z :=
  {| investor_name := "Alpha"; asset_class_name := "PE";
     amount := 100%Z; currency := "USD" |}.

(** Four asset classes to create: the bulk endpoint is down, two individual
    creates succeed, one is refused and one meets a transport error. *)
Definition four_asset_classes : list (string * AssetClassData) :=
  asset_class <$> ["Infra"; "PE"; "Credit"; "Hedge"].

Definition asset_classes_two_of_four : AssetClassService :=
  {| ac_get_list := Reply 200 (Some []);
     ac_post_bulk := fun _ => Reply 503 BodyInvalid;
     ac_post_one := fun data =>
       if String.eqb (ac_name data) "Infra" then
         Reply 201 (Some {| body_data_id := Some "ac-1"; body_id := None |})
       else if String.eqb (ac_name data) "PE" then
         Reply 201 (Some {| body_data_id := None; body_id := Some "ac-2" |})
       else if String.eqb (ac_name data) "Credit" then Reply 500 None
       else TransportError |}.

(** A bulk endpoint that answers 201 with the created list, after which the
    individual creates are refused as duplicates. *)
Definition asset_classes_bulk_201 : AssetClassService :=
  {| ac_get_list := Reply 200 (Some []);
     ac_post_bulk := fun _ => Reply 201 (BodyList [ItemObject (Some "ac-1")]);
     ac_post_one := fun _ => Reply 409 None |}.

(** Bulk endpoints that answer 200 with fewer elements than requested. *)
Definition asset_classes_short_answer : AssetClassService :=
  {| ac_get_list := Reply 200 (Some []);
     ac_post_bulk := fun _ =>
       Reply 200 (BodyList (ItemObject <$> [Some "ac-1"; Some "ac-2"]));
     ac_post_one := fun _ => TransportError |}.

Definition investors_short_answer : InvestorService :=
  {| inv_get_page := fun _ => Reply 500 None;
     inv_post_bulk := fun _ =>
       Reply 200 (BodyList (ItemObject <$> [Some "inv-1"; None]));
     inv_post_one := fun _ => TransportError |}.

(** An investor list whose first page is served and whose second page meets
    a transport error, respectively an error status. *)
Definition investors_second_page (second : Http (option InvestorListResponse))
    : InvestorService :=
  {| inv_get_page := fun page =>
       if page =? 1 then
         Reply 200 (Some {| investors := [item "Alpha" "inv-a"];
                            investors_has_next := true |})
       else second;
     inv_post_bulk := fun _ => TransportError;
     inv_post_one := fun _ => TransportError |}.

End IngestionSpec.

Module CommitmentSpec.
Import CommitmentService.

(** The rows a call creates from its input. *)
Definition docs_of (self : CommitmentRepository)
    (commitments : list CommitmentCreate) : list CommitmentResponse :=
  imap (fun i c => prepare_commitment_for_db (uuid4 self i) c) commitments.

(** The table is the same in both worlds. *)
Definition same_table (w w' : World) : Prop :=
  committed w' = committed w ∧ pending w' = pending w.

(** Publishing the event of [created] raises [e]. *)
Definition publish_raises (self : EventPublisher)
    (created : CommitmentResponse) (e : Exn) : Prop :=
  match _redis self with
  | None => e = RuntimeError "No Redis connection found"
  | Some connection =>
      connection
        {| event_type := "commitment_created";
           event_commitment_id := id created;
           event_investor_id := investor_id created;
           event_asset_class_id := asset_class_id created;
           event_amount := amount created;
           event_currency := currency created |} = Some e
  end.

Definition empty_world : World :=
  {| committed := []; pending := []; channel := []; log := [] |}.

(** A repository whose publisher never connected. *)
Definition repository_without_redis : CommitmentRepository :=
  {| uuid4 := fun i => "c-" +:+ pretty i;
     insert_raises := false;
     event_publisher := {| _redis := None |} |}.

Definition one_commitment : CommitmentCreate :=
  {| new_investor_id := "inv-1"; new_asset_class_id := "ac-1";
     new_amount := 10000; new_currency := "GBP" |}.

End CommitmentSpec.

Module InvestorSpec.
Import InvestorService.


(** The polls in which the channel delivers [events], one message each. *)
Definition deliveries (events : list CommitmentService.CommitmentCreatedEvent)
    : list Poll :=
  (fun event => Message (decode event)) <$> events.


Definition with_metrics (investor : InvestorResponse) (count : nat) (total : Z)
    : InvestorResponse :=
  {| id := id investor; name := name investor;
     commitment_count := count; total_commitment_amount := total |}.

Definition commitment_created (investor_id_ : string) (amount_ : Z)
    : CommitmentService.CommitmentCreatedEvent :=
  {| CommitmentService.event_type := "commitment_created";
     CommitmentService.event_commitment_id := "c-" +:+ pretty amount_;
     CommitmentService.event_investor_id := investor_id_;
     CommitmentService.event_asset_class_id := "ac-1";
     CommitmentService.event_amount := amount_;
     CommitmentService.event_currency := "GBP" |}.

Definition acme : InvestorResponse :=
  {| id := "inv-1"; name := "Acme"; commitment_count := 0;
     total_commitment_amount := 0 |}.

Definition one_investor : Collection := {[ "inv-1" := acme ]}.

End InvestorSpec.

(* ===================================================================== *)
(** * Further code of the three services *)
(* ===================================================================== *)

(** ** Ingestion service, main.py: waiting for the services at startup *)

Module IngestionStartup.
Import Ingestion.

(** The keys of the [services] dict, in its order. *)
Inductive Service :=
  | AssetClassHealth
  | InvestorHealth
  | CommitmentHealth.

Definition services : list Service :=
  [AssetClassHealth; InvestorHealth; CommitmentHealth].

(** What [wait_for_services] does, oldest first: a GET of a health URL, or
    an [asyncio.sleep(delay)]. *)
Inductive Step :=
  | GetHealth (service : Service)
  | Sleep.

(** The function returns, or raises
    [Exception(f"Services not ready after {max_retries} attempts")]. *)
Inductive Outcome :=
  | Ready
  | NotReady (max_retries : nat).

(** The loop [for service_name, health_url in services.items()]: every
    service is asked, whatever the earlier ones answered. *)
Fixpoint poll_services (health : nat -> Service -> Http unit) (attempt : nat)
    (todo : list Service) (all_ready : bool) : bool * list Step :=
  match todo with
  | [] => (all_ready, [])
  | service :: rest =>
      let all_ready :=
        match health attempt service with
        | Reply status_code _ =>
            if status_code =? 200 then all_ready else false
        | TransportError => false
        end in
      let '(all_ready, steps) := poll_services health attempt rest all_ready in
      (all_ready, GetHealth service :: steps)
  end.

(** The loop [for attempt in range(max_retries)], from [attempt] on with
    [remaining] turns left. *)
Fixpoint attempts (health : nat -> Service -> Http unit) (max_retries : nat)
    (attempt remaining : nat) : Outcome * list Step :=
  match remaining with
  | 0 => (NotReady max_retries, [])
  | S remaining' =>
      let '(all_ready, steps) := poll_services health attempt services true in
      if all_ready then (Ready, steps)
      else
        let pause := if attempt <? max_retries - 1 then [Sleep] else [] in
        let '(outcome, later) :=
          attempts health max_retries (S attempt) remaining' in
        (outcome, steps ++ pause ++ later)
  end.

Definition wait_for_services (health : nat -> Service -> Http unit)
    (max_retries : nat) : Outcome * list Step :=
  attempts health max_retries 0 max_retries.

End IngestionStartup.

(** ** Commitment service: the list query and its route *)

Module CommitmentQueries.
Import CommitmentService.

(** [str.lower] on the ASCII letters. *)
Definition lower_ascii (c : Ascii.ascii) : Ascii.ascii :=
  let n := Ascii.nat_of_ascii c in
  if (65 <=? n) && (n <=? 90) then Ascii.ascii_of_nat (n + 32) else c.

Fixpoint lower (s : string) : string :=
  match s with
  | EmptyString => EmptyString
  | String c s' => String (lower_ascii c) (lower s')
  end.

(** [value or None] for an optional text. *)
Definition or_none (value : option string) : option string :=
  match value with
  | Some s => if Ingestion.truthy s then Some s else None
  | None => None
  end.

(** The clause built from the filters dict: the conditions [field = ?] in
    the order of the dict, each with its parameter. *)
Fixpoint __build_where_clause (filters : list (string * option string))
    : list (string * string) :=
  match filters with
  | [] => []
  | (field, value) :: rest =>
      match value with
      | Some v => (field, v) :: __build_where_clause rest
      | None => __build_where_clause rest
      end
  end.

(** The text columns of a row that a condition can name. *)
Definition column (field : string) (row : CommitmentResponse)
    : option string :=
  if String.eqb field "investor_id" then Some (investor_id row)
  else if String.eqb field "asset_class_id" then Some (asset_class_id row)
  else if String.eqb field "currency" then Some (currency row)
  else None.

(** A row satisfies [WHERE c1 AND c2 ...]; the empty clause holds. *)
Definition where_holds (clause : list (string * string))
    (row : CommitmentResponse) : bool :=
  forallb (fun condition =>
             bool_decide (column condition.1 row = Some condition.2))
    clause.

Record PaginationInfo := {
  page : nat;
  size : nat;
  total_pages : nat;
  has_next : bool;
  has_prev : bool
}.

Definition __get_pagination_info (skip limit total : nat) : PaginationInfo :=
  {| page := skip / limit + 1;
     size := limit;
     total_pages := (total + limit - 1) / limit;
     has_next := skip + limit <? total;
     has_prev := 0 <? skip |}.

(** The result dict, without the [asset_breakdowns] list. *)
Record CommitmentListResult := {
  commitments : list CommitmentResponse;
  total : nat;
  total_amount : Z;
  pagination : PaginationInfo
}.

Definition valid_sort_fields : list string :=
  ["id"; "investor_id"; "asset_class_id"; "amount"; "currency"; "created_at";
   "updated_at"].

(** What a route answers: the body with status 200, or an [HTTPException]. *)
Inductive Response (A : Type) : Type :=
  | Ok (body : A)
  | HTTPException (status_code : nat) (detail : string).
Arguments Ok {A} body.
Arguments HTTPException {A} status_code detail.

Section WithOrder.

(** [ORDER BY sort_by sort_dir] on the rows of a query: the order in which
    the database returns them. *)
Variable order_by : string -> string -> list CommitmentResponse ->
                    list CommitmentResponse.

(** [get_commitments]; [database_raises] tells whether a statement of the
    function raises. *)
Definition get_commitments (database_raises : bool) (skip limit : nat)
    (investor_id_ asset_class_id_ currency_ : option string)
    (sort_by sort_order : string) : P CommitmentListResult :=
  try_except
    (let sort_by :=
       if bool_decide (sort_by ∈ valid_sort_fields) then sort_by
       else "created_at" in
     let sort_dir :=
       if String.eqb (lower sort_order) "desc" then "DESC" else "ASC" in
     let where_clause :=
       __build_where_clause
         [("investor_id", investor_id_);
          ("asset_class_id", or_none asset_class_id_);
          ("currency", or_none currency_)] in
     let asset_class_breakdown_where_clause :=
       __build_where_clause
         [("investor_id", investor_id_);
          ("asset_class_id", None);
          ("currency", or_none currency_)] in
     if database_raises then raise DatabaseError
     else
       counted ← select_where (where_holds where_clause);
       summed ← select_where (where_holds asset_class_breakdown_where_clause);
       let total_count := length counted in
       let total_amount_ := foldr Z.add 0%Z (amount <$> summed) in
       rows ← select_where (where_holds where_clause);
       mret {| commitments := take limit (drop skip (order_by sort_by sort_dir rows));
               total := total_count;
               total_amount := total_amount_;
               pagination := __get_pagination_info skip limit total_count |})
    (fun e =>
       Some (logger ERROR "Database error querying commitments";;
             mret {| commitments := [];
                     total := 0;
                     total_amount := 0;
                     pagination := __get_pagination_info skip limit 0 |})).

(** The route [GET /commitments/]: the checks of its [Query] parameters
    ([page >= 1], [1 <= size <= 100], [sort_order] one of asc and desc), then
    the handler. *)
Definition list_commitments (database_raises : bool) (page_ size_ : nat)
    (investor_id_ asset_class_id_ currency_ : option string)
    (sort_by sort_order : string) : P (Response CommitmentListResult) :=
  if negb ((1 <=? page_) && (1 <=? size_) && (size_ <=? 100)
           && (String.eqb sort_order "asc" || String.eqb sort_order "desc"))
  then mret (HTTPException 422 "Validation error")
  else
    let skip := (page_ - 1) * size_ in
    logger INFO "Fetching commitments page";;
    result ← get_commitments database_raises skip size_ investor_id_
               asset_class_id_ currency_ sort_by sort_order;
    mret (Ok result).

End WithOrder.

End CommitmentQueries.

(** ** Investor service: the list query, its route, and the page the
    ingestion service reads from it *)

Module InvestorQueries.
Import InvestorService.

(** Which of the database calls of [get_all_investors] raise. *)
Record MongoFaults := {
  count_raises : bool;
  total_raises : bool;
  find_raises : bool
}.

(** The dict [get_all_investors] returns; its [except] branch leaves
    [total_commitment_amount] out. *)
Record InvestorPageResult := {
  result_investors : list InvestorResponse;
  result_total : nat;
  result_total_commitment_amount : option Z;
  result_page : nat;
  result_size : nat;
  result_total_pages : nat;
  result_has_next : bool;
  result_has_prev : bool
}.

(** The response model of the list route: it declares no [has_next] and no
    [has_prev] field. *)
Record InvestorListResponse := {
  response_investors : list InvestorResponse;
  response_total_commitment_amount : Z;
  response_total : nat;
  response_page : nat;
  response_size : nat;
  response_total_pages : nat
}.

Inductive Response (A : Type) : Type :=
  | Ok (body : A)
  | HTTPException (status_code : nat) (detail : string).
Arguments Ok {A} body.
Arguments HTTPException {A} status_code detail.

(** [_get_total_commitment_amount]: the sum over all documents, 0.0 when
    the aggregation raises. *)
Definition _get_total_commitment_amount (faults : MongoFaults)
    (collection : Collection) : Z :=
  if total_raises faults then 0%Z
  else foldr Z.add 0%Z
         (total_commitment_amount <$> (map_to_list collection).*2).

Section WithCursor.

(** [collection.find({}).sort([(sort_by, direction)])]: the documents in the
    order the database returns them; [true] is [ASCENDING]. *)
Variable find_sorted : Collection -> string -> bool -> list InvestorResponse.

Definition get_all_investors (faults : MongoFaults) (collection : Collection)
    (skip limit : nat) (sort_by sort_order : string) : InvestorPageResult :=
  let sort_direction :=
    String.eqb (CommitmentQueries.lower sort_order) "asc" in
  let total_count :=
    if count_raises faults then 0 else size collection in
  let total_commitment_amount_ :=
    _get_total_commitment_amount faults collection in
  if find_raises faults then
    {| result_investors := [];
       result_total := 0;
       result_total_commitment_amount := None;
       result_page := 1;
       result_size := limit;
       result_total_pages := 0;
       result_has_next := false;
       result_has_prev := false |}
  else
    {| result_investors :=
         take limit (drop skip (find_sorted collection sort_by sort_direction));
       result_total := total_count;
       result_total_commitment_amount := Some total_commitment_amount_;
       result_page := skip / limit + 1;
       result_size := limit;
       result_total_pages := (total_count + limit - 1) / limit;
       result_has_next := skip + limit <? total_count;
       result_has_prev := 0 <? skip |}.

(** The route [GET /investors/]: the checks of its [Query] parameters, the
    query, and the [InvestorListResponse] built from the result dict, which
    drops the keys the model does not declare and raises on a missing one. *)
Definition get_investors (faults : MongoFaults) (collection : Collection)
    (page_ size_ : nat) (sort_by sort_order : string)
    : Response InvestorListResponse :=
  if negb ((1 <=? page_) && (1 <=? size_) && (size_ <=? 100)
           && (String.eqb sort_order "asc" || String.eqb sort_order "desc"))
  then HTTPException 422 "Validation error"
  else
    let skip := (page_ - 1) * size_ in
    let result :=
      get_all_investors faults collection skip size_ sort_by sort_order in
    match result_total_commitment_amount result with
    | None =>
        HTTPException 500 "Internal server error while fetching investors"
    | Some amount_ =>
        Ok {| response_investors := result_investors result;
              response_total_commitment_amount := amount_;
              response_total := result_total result;
              response_page := result_page result;
              response_size := result_size result;
              response_total_pages := result_total_pages result |}
    end.

(** The element of the JSON list for an investor, as the ingestion service
    reads it. *)
Definition list_item (investor : InvestorResponse) : Ingestion.ListItem :=
  {| Ingestion.item_name := Some (name investor);
     Ingestion.item_id := Some (id investor) |}.

(** What the ingestion service receives for
    [GET /api/investors/?page={page}&size=100]: the body of the route with
    its defaults for the sort, read with [data.get('investors', [])] and
    [data.get('has_next', False)]. *)
Definition served_page (faults : MongoFaults) (collection : Collection)
    (page_ : nat)
    : Ingestion.Http (option Ingestion.InvestorListResponse) :=
  match get_investors faults collection page_ 100 "name" "asc" with
  | Ok body =>
      Ingestion.Reply 200
        (Some {| Ingestion.investors :=
                   list_item <$> response_investors body;
                 Ingestion.investors_has_next := false |})
  | HTTPException status_code _ => Ingestion.Reply status_code None
  end.

End WithCursor.

End InvestorQueries.

(** ** Vocabulary of the further properties *)

Module IngestionExtraSpec.
Import Ingestion IngestionSpec.

Section WithAmount.
Context {Amount : Type}.

(** The service a remote call goes to. *)
Inductive Target :=
  | ToAssetClassService
  | ToInvestorService
  | ToCommitmentService.

Definition call_target (c : @Call Amount) : Target :=
  match c with
  | GetAssetClasses | PostAssetClassesBulk _ | PostAssetClass _ =>
      ToAssetClassService
  | GetInvestors _ | PostInvestorsBulk _ | PostInvestor _ =>
      ToInvestorService
  | GetCommitments _ | PostCommitmentsBulk _ => ToCommitmentService
  end.

(** The asset classes a trace asks a service to create, in bulk or one by
    one. *)
Definition asset_classes_sent (t : list (@Call Amount))
    : list AssetClassData :=
  t ≫= fun c =>
    match c with
    | PostAssetClassesBulk payload => payload
    | PostAssetClass payload => [payload]
    | _ => []
    end.

Definition investors_sent (t : list (@Call Amount)) : list InvestorData :=
  t ≫= fun c =>
    match c with
    | PostInvestorsBulk payload => payload
    | PostInvestor payload => [payload]
    | _ => []
    end.

(** What the parser keeps of the rows: the names of a dict are distinct,
    every entry is filed under its own name, and every commitment names an
    investor and an asset class of the dicts and has a positive amount. *)
Definition parsed_ok (amount_positive : Amount -> bool)
    (investors_ : list (string * InvestorData))
    (asset_classes : list (string * AssetClassData))
    (commitments_ : list (@CommitmentData Amount)) : Prop :=
  NoDup investors_.*1
  ∧ NoDup asset_classes.*1
  ∧ Forall (fun nd => inv_name nd.2 = nd.1) investors_
  ∧ Forall (fun nd => ac_name nd.2 = nd.1) asset_classes
  ∧ Forall (fun c => investor_name c ∈ investors_.*1
                     ∧ asset_class_name c ∈ asset_classes.*1
                     ∧ amount_positive (amount c) = true) commitments_.

End WithAmount.

(** A text without the separator of the dedup key. *)
Fixpoint colon_free (s : string) : bool :=
  match s with
  | EmptyString => true
  | String c s' => negb (Ascii.eqb c (Ascii.ascii_of_nat 58)) && colon_free s'
  end.

(** ** Further runs on whole amounts *)



(** A frame without the currency column. *)
Definition frame_without_currency : @DataFrame Z :=
  {| columns := ["Investor Name"; "Investory Type"; "Investor Country";
                 "Investor Date Added"; "Commitment Asset Class";
                 "Commitment Amount"];
     rows := [] |}.

Definition two_asset_classes : list (string * AssetClassData) :=
  asset_class <$> ["PE"; "Infra"].

(** A bulk endpoint that answers 200 with a list whose second element is
    no object; the individual creates succeed for "Infra" only. *)
Definition asset_classes_malformed_answer : AssetClassService :=
  {| ac_get_list := Reply 200 (Some []);
     ac_post_bulk := fun _ =>
       Reply 200 (BodyList [ItemObject (Some "ac-1"); ItemNotObject]);
     ac_post_one := fun data =>
       if String.eqb (ac_name data) "Infra" then
         Reply 201 (Some {| body_data_id := Some "ac-7"; body_id := None |})
       else Reply 500 None |}.

End IngestionExtraSpec.

Module IngestionStartupSpec.
Import Ingestion IngestionStartup.

(** The answer counts as ready: status 200. *)
Definition ready (answer : Http unit) : bool :=
  match answer with
  | Reply status_code _ => status_code =? 200
  | TransportError => false
  end.

(** All three services answer as ready at the given attempt. *)
Definition all_ready_at (health : nat -> Service -> Http unit)
    (attempt : nat) : bool :=
  forallb (fun service => ready (health attempt service)) services.

(** The health requests of one attempt. *)
Definition round : list Step := GetHealth <$> services.

(** The commitment service answers 503 until the attempt [n]. *)
Definition commitment_service_up_at (n : nat) (attempt : nat)
    (service : Service) : Http unit :=
  match service with
  | CommitmentHealth => if n <=? attempt then Reply 200 () else Reply 503 ()
  | _ => Reply 200 ()
  end.

End IngestionStartupSpec.

Module CommitmentQueriesSpec.
Import CommitmentService CommitmentQueries.

(** A filter value keeps a row: no value keeps every row. *)
Definition keeps (wanted : option string) (actual : string) : bool :=
  match wanted with
  | None => true
  | Some v => bool_decide (actual = v)
  end.

(** The rows the list of a query counts: all three filters, an empty text
    for the asset class or the currency standing for no filter. *)
Definition listed (investor_id_ asset_class_id_ currency_ : option string)
    (row : CommitmentResponse) : bool :=
  keeps investor_id_ (investor_id row)
  && keeps (or_none asset_class_id_) (asset_class_id row)
  && keeps (or_none currency_) (currency row).

(** The table a statement of the connection reads. *)
Definition table (w : World) : list CommitmentResponse :=
  committed w ++ pending w.

(** The rows of the table that the three filters keep. *)
Definition listed_rows (investor_id_ asset_class_id_ currency_ : option string)
    (w : World) : list CommitmentResponse :=
  filter (fun r => listed investor_id_ asset_class_id_ currency_ r = true)
    (table w).

(** The sort column and direction that reach the ORDER BY. *)
Definition sort_column (sort_by : string) : string :=
  if bool_decide (sort_by ∈ valid_sort_fields) then sort_by else "created_at".

Definition sort_direction (sort_order : string) : string :=
  if String.eqb (lower sort_order) "desc" then "DESC" else "ASC".

Section WithOrder.
Variable order_by : string -> string -> list CommitmentResponse ->
                    list CommitmentResponse.

(** The commitments on page [page_] of the list route, read in world [w]. *)
Definition page_served (w : World) (size_ : nat)
    (investor_id_ asset_class_id_ currency_ : option string)
    (sort_by sort_order : string) (page_ : nat) : list CommitmentResponse :=
  match list_commitments order_by false page_ size_ investor_id_
          asset_class_id_ currency_ sort_by sort_order w with
  | (Returned (Ok result), _) => commitments result
  | _ => []
  end.

End WithOrder.

(** Rows in the order of their ids' lengths: an order for the runs. *)
Definition by_insertion (sort_by sort_dir : string)
    (rows : list CommitmentResponse) : list CommitmentResponse :=
  if String.eqb sort_dir "DESC" then reverse rows else rows.

Definition row (i : string) (investor asset_class : string) (a : Z)
    : CommitmentResponse :=
  {| id := i; investor_id := investor; asset_class_id := asset_class;
     amount := a; currency := "USD" |}.

Definition five_rows : World :=
  {| committed :=
       [row "c-1" "inv-1" "ac-1" 100; row "c-2" "inv-1" "ac-2" 200;
        row "c-3" "inv-2" "ac-1" 300; row "c-4" "inv-1" "ac-1" 400;
        row "c-5" "inv-1" "ac-1" 500];
     pending := []; channel := []; log := [] |}.

End CommitmentQueriesSpec.

Module CommitmentExtraSpec.
Import CommitmentService CommitmentSpec.

(** The event the publisher builds for a created row. *)
Definition event_of (created : CommitmentResponse) : CommitmentCreatedEvent :=
  {| event_type := "commitment_created";
     event_commitment_id := id created;
     event_investor_id := investor_id created;
     event_asset_class_id := asset_class_id created;
     event_amount := amount created;
     event_currency := currency created |}.

(** The publisher is connected and its connection raises for no event. *)
Definition delivers (self : EventPublisher) : Prop :=
  ∃ connection, _redis self = Some connection ∧ ∀ event, connection event = None.

(** None of the first [n] ids the repository draws is the id of a row of
    the table. *)
Definition fresh_ids (self : CommitmentRepository) (n : nat) (w : World)
    : Prop :=
  ∀ i, i < n -> Forall (fun row => id row ≠ uuid4 self i)
                  (committed w ++ pending w).


(** A repository whose INSERT statement raises. *)
Definition repository_insert_fails : CommitmentRepository :=
  {| uuid4 := fun i => "c-" +:+ pretty i;
     insert_raises := true;
     event_publisher := {| _redis := Some (fun _ => None) |} |}.

Definition commitment_of (investor : string) (a : Z) : CommitmentCreate :=
  {| new_investor_id := investor; new_asset_class_id := "ac-1";
     new_amount := a; new_currency := "GBP" |}.

(** A world with one committed row and one row of an open transaction. *)
Definition world_with_pending : World :=
  {| committed :=
       [{| id := "old-1"; investor_id := "inv-1"; asset_class_id := "ac-1";
           amount := 700; currency := "GBP" |}];
     pending :=
       [{| id := "old-2"; investor_id := "inv-2"; asset_class_id := "ac-1";
           amount := 900; currency := "GBP" |}];
     channel := []; log := [] |}.

End CommitmentExtraSpec.

Module InvestorExtraSpec.
Import InvestorService InvestorQueries.

(** The document [after] is [before] with its metrics possibly raised: the
    same id and name, and a count that is no smaller. *)
Definition grown (before after : InvestorResponse) : Prop :=
  id after = id before ∧ name after = name before
  ∧ commitment_count before <= commitment_count after.

(** An investor client whose list endpoint is the list route of the
    investor service over [collection]; its create endpoints are down. *)
Definition client_of
    (find_sorted : Collection -> string -> bool -> list InvestorResponse)
    (faults : MongoFaults) (collection : Collection)
    : Ingestion.InvestorService :=
  {| Ingestion.inv_get_page := served_page find_sorted faults collection;
     Ingestion.inv_post_bulk := fun _ => Ingestion.TransportError;
     Ingestion.inv_post_one := fun _ => Ingestion.TransportError |}.

(** The documents of a collection in the order of their keys. *)
Definition by_key (collection : Collection) (sort_by : string)
    (ascending : bool) : list InvestorResponse :=
  if ascending then (map_to_list collection).*2
  else reverse (map_to_list collection).*2.

Definition no_faults : MongoFaults :=
  {| count_raises := false; total_raises := false; find_raises := false |}.

End InvestorExtraSpec.

(* ===================================================================== *)
(** * Properties of the ingestion service *)
(* ===================================================================== *)

Module IngestionProps.
Import Ingestion IngestionSpec.

Section Facts.
Context {Amount : Type}.
Variable amount_str : Amount -> string.
Variable amount_positive : Amount -> bool.

Abbreviation Run A := (@M Amount A).

(** ** The trace monad *)

Lemma bind_Some {A B : Type} (m : Run A) (f : A -> Run B) b t :
  m ≫= f = Some (b, t) ->
  ∃ a t1 t2, m = Some (a, t1) ∧ f a = Some (b, t2) ∧ t = t1 ++ t2.
Proof.
  unfold mbind, M_bind. destruct m as [[a t1]|]; [|done].
  destruct (f a) as [[b' t2]|] eqn:E; [|done].
  intros [= <- <-]. eauto 6.
Qed.

Lemma bind_eq {A B : Type} (m : Run A) (f : A -> Run B) a t1 :
  m = Some (a, t1) ->
  m ≫= f = match f a with
           | Some (b, t2) => Some (b, t1 ++ t2)
           | None => None
           end.
Proof. intros ->. reflexivity. Qed.

Lemma call_bind {A : Type} (c : Call) (k : Run A) :
  (call c;; k) = match k with
                 | Some (a, t) => Some (a, c :: t)
                 | None => None
                 end.
Proof. reflexivity. Qed.

(** ** The loops that build a mapping *)

Lemma assign_id_lookup name oid (m : gmap string string) k :
  assign_id name oid m !! k =
    if decide (name = k) then
      match oid with
      | Some id => if truthy id then Some id else m !! k
      | None => m !! k
      end
    else m !! k.
Proof.
  unfold assign_id. destruct oid as [id|]; [destruct (truthy id)|];
    rewrite ?lookup_insert; repeat case_decide; try done.
Qed.

Lemma assign_id_dom name oid (m : gmap string string) k :
  is_Some (assign_id name oid m !! k) -> is_Some (m !! k) ∨ k = name.
Proof. rewrite assign_id_lookup. case_decide; auto. Qed.

Lemma scan_existing_dom names existing (acc : gmap string string) k :
  is_Some (scan_existing names existing acc !! k) ->
  is_Some (acc !! k) ∨ k ∈ names.
Proof.
  revert acc. induction existing as [|e rest IH]; intros acc; simpl; [auto|].
  destruct (item_name e) as [n|]; [|auto].
  case_bool_decide as Hn.
  - destruct (item_id e) as [i|]; [|auto].
    intros H. apply IH in H as [H|H]; [|auto].
    rewrite lookup_insert in H. case_decide; subst; auto.
  - apply IH.
Qed.

Lemma zip_created_dom names i created (acc m : gmap string string) k :
  zip_created names i created acc = Some m ->
  is_Some (m !! k) -> is_Some (acc !! k) ∨ k ∈ names.
Proof.
  revert i acc. induction created as [|c rest IH]; intros i acc; simpl.
  - intros [= ->]. auto.
  - destruct (names !! i) as [n|] eqn:En; [|apply IH].
    destruct c as [oid|]; [|done].
    intros Hz Hk. destruct (IH _ _ Hz Hk) as [H|H]; [|auto].
    apply assign_id_dom in H as [H| ->]; [auto|].
    right. eapply list_elem_of_lookup_2. exact En.
Qed.

Lemma zip_created_lookup names ids :
  NoDup names ->
  ∀ i (acc : gmap string string),
  ∃ m, zip_created names i (ItemObject <$> ids) acc = Some m
       ∧ ∀ j name, names !! j = Some name ->
           m !! name =
             if j <? i then acc !! name
             else match positional_id ids (j - i) with
                  | Some id => Some id
                  | None => acc !! name
                  end.
Proof.
  intros Hnd. induction ids as [|oid ids IH]; intros i acc.
  - exists acc. split; [done|]. intros j name _.
    unfold positional_id. rewrite lookup_nil. by destruct (j <? i).
  - simpl. destruct (names !! i) as [n|] eqn:Hi.
    + destruct (IH (S i) (assign_id n oid acc)) as (m & Hz & Hm).
      exists m. split; [done|]. intros j name Hj.
      rewrite (Hm j name Hj). rewrite assign_id_lookup.
      destruct (decide (j = i)) as [->|Hji].
      * assert (n = name) as -> by congruence.
        rewrite decide_True by done.
        rewrite (proj2 (Nat.ltb_lt i (S i))) by lia.
        rewrite Nat.ltb_irrefl, Nat.sub_diag.
        unfold positional_id. simpl.
        destruct oid as [id|]; [|done]. by destruct (truthy id).
      * assert (n ≠ name) as Hne.
        { intros ->. apply Hji. eapply NoDup_lookup; eauto. }
        rewrite decide_False by done.
        destruct (Nat.ltb_spec j i) as [Hlt|Hge].
        -- by rewrite (proj2 (Nat.ltb_lt j (S i))) by lia.
        -- rewrite (proj2 (Nat.ltb_ge j (S i))) by lia.
           unfold positional_id.
           replace (j - i) with (S (j - S i)) by lia. done.
    + destruct (IH (S i) acc) as (m & Hz & Hm).
      exists m. split; [done|]. intros j name Hj.
      rewrite (Hm j name Hj).
      apply lookup_ge_None in Hi. apply lookup_lt_Some in Hj.
      rewrite (proj2 (Nat.ltb_lt j (S i))) by lia.
      by rewrite (proj2 (Nat.ltb_lt j i)) by lia.
Qed.

Lemma foldl_assign_dom results (acc : gmap string string) k :
  is_Some (foldl (fun m (r : string * option string) =>
                    assign_id r.1 r.2 m) acc results !! k) ->
  is_Some (acc !! k) ∨ k ∈ results.*1.
Proof.
  revert acc. induction results as [|r rest IH]; intros acc; simpl; [auto|].
  intros H. apply IH in H as [H|H].
  - apply assign_id_dom in H as [H| ->]; [auto|]. right. left.
  - right. by right.
Qed.

Lemma collect_created_dom results k :
  is_Some (collect_created results !! k) -> k ∈ results.*1.
Proof.
  intros H. apply foldl_assign_dom in H as [H|H]; [|done].
  rewrite lookup_empty in H. by destruct H.
Qed.

Lemma foldl_assign_lookup_notin results (acc : gmap string string) k :
  k ∉ results.*1 ->
  foldl (fun m (r : string * option string) => assign_id r.1 r.2 m)
    acc results !! k = acc !! k.
Proof.
  revert acc. induction results as [|r rest IH]; intros acc Hk; simpl; [done|].
  rewrite fmap_cons in Hk. apply not_elem_of_cons in Hk as [Hne Hk].
  rewrite (IH _ Hk), assign_id_lookup. by rewrite decide_False.
Qed.

Lemma Forall2_names {D : Type}
    (R : string * D -> string * option string -> Prop) tasks results :
  Forall2 (fun task r => r.1 = task.1 ∧ R task r) tasks results ->
  results.*1 = tasks.*1.
Proof.
  induction 1 as [|t r ts rs [Ht _] _ IH]; [done|].
  rewrite !fmap_cons. by f_equal.
Qed.

(** With distinct names, the collected mapping holds exactly the names whose
    task came back with a non-empty id. *)
Lemma collect_created_lookup {D : Type} (ok : D -> string -> Prop)
    (tasks : list (string * D)) results name id :
  NoDup tasks.*1 ->
  Forall2 (fun task r =>
             r.1 = task.1
             ∧ ∀ id, (r.2 = Some id ∧ truthy id = true) ↔ ok task.2 id)
          tasks results ->
  collect_created results !! name = Some id
  ↔ ∃ data, (name, data) ∈ tasks ∧ ok data id.
Proof.
  unfold collect_created. intros Hnd HF.
  assert (∀ acc : gmap string string,
    (∀ k, k ∈ tasks.*1 -> acc !! k = None) ->
    foldl (fun m (r : string * option string) => assign_id r.1 r.2 m)
      acc results !! name = Some id
    ↔ acc !! name = Some id ∨ ∃ data, (name, data) ∈ tasks ∧ ok data id)
    as Hgen.
  { clear -Hnd HF.
    induction HF as [|[n d] [n' oid] tasks results [Hn Hok] HF IH];
      intros acc Hacc.
    - simpl. split; [auto|]. intros [H|(d & H & _)]; [done|].
      by apply elem_of_nil in H.
    - simpl in *. subst n'. apply NoDup_cons in Hnd as [Hn Hnd].
      pose proof (Forall2_names _ _ _ HF) as Hnames.
      destruct (decide (n = name)) as [->|Hne].
      + rewrite foldl_assign_lookup_notin by (by rewrite Hnames).
        rewrite assign_id_lookup. rewrite decide_True by done.
        rewrite Hacc by left. split.
        * intros H. right. exists d. split; [left|]. apply Hok.
          destruct oid as [i|]; [|done]. destruct (truthy i) eqn:Ht; [|done].
          by injection H as ->.
        * intros [H|(d' & Hin & Hd')]; [done|].
          apply elem_of_cons in Hin as [[= <-]|Hin].
          -- apply Hok in Hd' as [-> ->]. done.
          -- exfalso. apply Hn. apply list_elem_of_fmap. by exists (name, d').
      + rewrite IH; [|done|].
        * rewrite assign_id_lookup. rewrite decide_False by done.
          split; (intros [H|(d' & Hin & Hd')];
                  [by left|right; exists d'; split; [|done]]).
          -- by right.
          -- apply elem_of_cons in Hin as [[= ? ?]|Hin]; [congruence|done].
        * intros k Hk. rewrite assign_id_lookup.
          case_decide; [subst; done|]. apply Hacc. by right. }
  rewrite Hgen; [|intros; apply lookup_empty].
  rewrite lookup_empty. split; [intros [?|?]; done|auto].
Qed.

(** ** Individual creates and the fallback *)

Lemma single_asset_class_returns client name data :
  ∃ oid,
    (_create_single_asset_class client (name, data) : Run _)
      = Some ((name, oid), [PostAssetClass data])
    ∧ ∀ id, (oid = Some id ∧ truthy id = true)
            ↔ asset_class_created client data id.
Proof.
  unfold _create_single_asset_class, asset_class_created.
  destruct (ac_post_one client data) as [|status_code body] eqn:E.
  - exists None. split; [reflexivity|]. intros id.
    split; [intros [? _]; done|]. intros (? & ? & _); done.
  - destruct (Nat.eqb_spec status_code 201) as [->|Hne].
    + destruct body as [result|].
      * destruct (body_data_id result) as [i|] eqn:E1.
        -- exists (Some i). split; [reflexivity|]. intros id. split.
           ++ intros [[= ->] Ht]. exists result. auto.
           ++ intros (r & [= <-] & [H|[H _]] & Ht); split; congruence.
        -- destruct (body_id result) as [i|] eqn:E2.
           ++ exists (Some i). split; [reflexivity|]. intros id. split.
              ** intros [[= ->] Ht]. exists result. auto.
              ** intros (r & [= <-] & [H|[_ H]] & Ht); split; congruence.
           ++ exists None. split; [reflexivity|]. intros id. split.
              ** intros [? _]; done.
              ** intros (r & [= <-] & [H|[_ H]] & Ht); congruence.
      * exists None. split; [reflexivity|]. intros id.
        split; [intros [? _]; done|]. intros (? & ? & _); done.
    + exists None. split; [reflexivity|]. intros id.
      split; [intros [? _]; done|]. intros (? & [= ? ?] & _); done.
Qed.

Lemma single_investor_returns client name data :
  ∃ oid,
    (_create_single_investor client (name, data) : Run _)
      = Some ((name, oid), [PostInvestor data])
    ∧ ∀ id, (oid = Some id ∧ truthy id = true)
            ↔ investor_created client data id.
Proof.
  unfold _create_single_investor, investor_created.
  destruct (inv_post_one client data) as [|status_code body] eqn:E.
  - exists None. split; [reflexivity|]. intros id.
    split; [intros [? _]; done|]. intros (? & ? & _); done.
  - destruct (Nat.eqb_spec status_code 201) as [->|Hne].
    + destruct body as [result|].
      * destruct (body_id result) as [i|] eqn:E2.
        ++ exists (Some i). split; [reflexivity|]. intros id. split.
           ** intros [[= ->] Ht]. exists result. auto.
           ** intros (r & [= <-] & H & Ht); split; congruence.
        ++ exists None. split; [reflexivity|]. intros id. split.
           ** intros [? _]; done.
           ** intros (r & [= <-] & H & Ht); congruence.
      * exists None. split; [reflexivity|]. intros id.
        split; [intros [? _]; done|]. intros (? & ? & _); done.
    + exists None. split; [reflexivity|]. intros id.
      split; [intros [? _]; done|]. intros (? & [= ? ?] & _); done.
Qed.

(** The gathered results of tasks that each issue one call and return. *)
Lemma gather_singles {D : Type}
    (f : string * D -> Run (string * option string))
    (c : D -> Call) (ok : D -> string -> Prop) (tasks : list (string * D)) :
  (∀ name data, ∃ oid,
      f (name, data) = Some ((name, oid), [c data])
      ∧ ∀ id, (oid = Some id ∧ truthy id = true) ↔ ok data id) ->
  ∃ results,
    gather f tasks = Some (results, c <$> tasks.*2)
    ∧ Forall2 (fun task r =>
                 r.1 = task.1
                 ∧ ∀ id, (r.2 = Some id ∧ truthy id = true) ↔ ok task.2 id)
              tasks results.
Proof.
  intros Hf. induction tasks as [|[name data] rest IH].
  - exists []. split; [reflexivity|constructor].
  - destruct IH as (results & Hg & HF).
    destruct (Hf name data) as (oid & Hrun & Hok).
    exists ((name, oid) :: results). split.
    + simpl. rewrite Hrun. unfold mbind, M_bind, mret, M_ret.
      rewrite Hg. simpl. by rewrite app_nil_r.
    + constructor; [split; [reflexivity|exact Hok]|exact HF].
Qed.

Lemma asset_class_fallback client (acs : list (string * AssetClassData)) :
  ∃ m,
    (_create_asset_classes_individually_fallback client acs : Run _)
      = Some (m, PostAssetClass <$> acs.*2)
    ∧ (∀ k, is_Some (m !! k) -> k ∈ acs.*1)
    ∧ (NoDup acs.*1 ->
       ∀ name id,
         m !! name = Some id
         ↔ ∃ data, (name, data) ∈ acs ∧ asset_class_created client data id).
Proof.
  destruct (gather_singles (_create_single_asset_class client)
              PostAssetClass (asset_class_created client) acs
              (single_asset_class_returns client)) as (results & Hg & HF).
  exists (collect_created results). split; [|split].
  - unfold _create_asset_classes_individually_fallback.
    rewrite (bind_eq _ _ _ _ Hg). simpl. by rewrite app_nil_r.
  - intros k Hk. apply collect_created_dom in Hk.
    by rewrite (Forall2_names _ _ _ HF) in Hk.
  - intros Hnd name id. by apply collect_created_lookup.
Qed.

Lemma investor_fallback client (invs : list (string * InvestorData)) :
  ∃ m,
    (_create_investors_individually_fallback client invs : Run _)
      = Some (m, PostInvestor <$> invs.*2)
    ∧ (∀ k, is_Some (m !! k) -> k ∈ invs.*1)
    ∧ (NoDup invs.*1 ->
       ∀ name id,
         m !! name = Some id
         ↔ ∃ data, (name, data) ∈ invs ∧ investor_created client data id).
Proof.
  destruct (gather_singles (_create_single_investor client)
              PostInvestor (investor_created client) invs
              (single_investor_returns client)) as (results & Hg & HF).
  exists (collect_created results). split; [|split].
  - unfold _create_investors_individually_fallback.
    rewrite (bind_eq _ _ _ _ Hg). simpl. by rewrite app_nil_r.
  - intros k Hk. apply collect_created_dom in Hk.
    by rewrite (Forall2_names _ _ _ HF) in Hk.
  - intros Hnd name id. by apply collect_created_lookup.
Qed.

(** C4: when the bulk-create call for the asset classes fails (transport
    error or non-2xx answer), one individual create is issued for every
    entity, in order, whatever the others answer, and the returned mapping
    holds exactly the names whose individual create answered 201 with a
    non-empty id, each with that id. *)
Theorem fallback_creates_each_entity
    (client : AssetClassService)
    (asset_classes : list (string * AssetClassData)) :
  asset_classes ≠ [] ->
  NoDup asset_classes.*1 ->
  bulk_call_failed (ac_post_bulk client asset_classes.*2) ->
  ∃ name_to_id,
    (_bulk_create_asset_classes client asset_classes : Run _)
      = Some (name_to_id,
              PostAssetClassesBulk asset_classes.*2
                :: (PostAssetClass <$> asset_classes.*2))
    ∧ ∀ name id,
        name_to_id !! name = Some id
        ↔ ∃ data, (name, data) ∈ asset_classes
                  ∧ asset_class_created client data id.
Proof.
  intros Hne Hnd Hfail.
  destruct (asset_class_fallback client asset_classes) as (m & Hf & _ & Hm).
  exists m. split; [|by apply Hm].
  unfold _bulk_create_asset_classes.
  destruct asset_classes as [|a rest]; [done|].
  rewrite call_bind, Hf.
  destruct Hfail as [->|(status_code & body & -> & Hst)]; [done|].
  destruct (Nat.eqb_spec status_code 200) as [->|_]; [lia|done].
Qed.

(** The investor manager's fallback does the same. *)
Lemma investor_fallback_creates_each_entity
    (client : InvestorService) (investors_ : list (string * InvestorData)) :
  investors_ ≠ [] ->
  NoDup investors_.*1 ->
  bulk_call_failed (inv_post_bulk client investors_.*2) ->
  ∃ name_to_id,
    (_bulk_create_investors client investors_ : Run _)
      = Some (name_to_id,
              PostInvestorsBulk investors_.*2
                :: (PostInvestor <$> investors_.*2))
    ∧ ∀ name id,
        name_to_id !! name = Some id
        ↔ ∃ data, (name, data) ∈ investors_
                  ∧ investor_created client data id.
Proof.
  intros Hne Hnd Hfail.
  destruct (investor_fallback client investors_) as (m & Hf & _ & Hm).
  exists m. split; [|by apply Hm].
  unfold _bulk_create_investors.
  destruct investors_ as [|a rest]; [done|].
  rewrite call_bind, Hf.
  destruct Hfail as [->|(status_code & body & -> & Hst)]; [done|].
  destruct (Nat.eqb_spec status_code 200) as [->|_]; [lia|done].
Qed.

(** C7 (amended): a bulk-create request of n entities answered with status
    200 and a list of m objects issues no further call, and maps the i-th
    requested name to the id of the i-th element when that element carries a
    non-empty id; the names at positions m and beyond, and the names whose
    element carries no id, are absent from the mapping. *)
Theorem bulk_answer_zipped_by_position
    (ac_client : AssetClassService) (inv_client : InvestorService)
    (asset_classes : list (string * AssetClassData))
    (investors_ : list (string * InvestorData))
    (ac_ids inv_ids : list (option string)) :
  asset_classes ≠ [] ->
  NoDup asset_classes.*1 ->
  ac_post_bulk ac_client asset_classes.*2
    = Reply 200 (BodyList (ItemObject <$> ac_ids)) ->
  investors_ ≠ [] ->
  NoDup investors_.*1 ->
  inv_post_bulk inv_client investors_.*2
    = Reply 200 (BodyList (ItemObject <$> inv_ids)) ->
  (∃ name_to_id,
     (_bulk_create_asset_classes ac_client asset_classes : Run _)
       = Some (name_to_id, [PostAssetClassesBulk asset_classes.*2])
     ∧ ∀ i name, asset_classes.*1 !! i = Some name ->
         name_to_id !! name = positional_id ac_ids i)
  ∧ (∃ name_to_id,
       (_bulk_create_investors inv_client investors_ : Run _)
         = Some (name_to_id, [PostInvestorsBulk investors_.*2])
       ∧ ∀ i name, investors_.*1 !! i = Some name ->
           name_to_id !! name = positional_id inv_ids i).
Proof.
  intros Hne1 Hnd1 Hr1 Hne2 Hnd2 Hr2. split.
  - destruct (zip_created_lookup _ ac_ids Hnd1 0 ∅) as (m & Hz & Hm).
    exists m. split.
    + unfold _bulk_create_asset_classes.
      destruct asset_classes as [|a rest]; [done|].
      rewrite call_bind, Hr1, Nat.eqb_refl, Hz. reflexivity.
    + intros i name Hi. rewrite (Hm i name Hi). simpl.
      rewrite Nat.sub_0_r, lookup_empty.
      by destruct (positional_id ac_ids i).
  - destruct (zip_created_lookup _ inv_ids Hnd2 0 ∅) as (m & Hz & Hm).
    exists m. split.
    + unfold _bulk_create_investors.
      destruct investors_ as [|a rest]; [done|].
      rewrite call_bind, Hr2, Nat.eqb_refl, Hz. reflexivity.
    + intros i name Hi. rewrite (Hm i name Hi). simpl.
      rewrite Nat.sub_0_r, lookup_empty.
      by destruct (positional_id inv_ids i).
Qed.

(** ** The keys of the resolved mappings *)

Lemma bulk_create_asset_classes_inner_keys client acs m t k :
  (_bulk_create_asset_classes client acs : Run _) = Some (m, t) ->
  is_Some (m !! k) -> k ∈ acs.*1.
Proof.
  destruct (asset_class_fallback client acs) as (mf & Hf & Hkeys & _).
  unfold _bulk_create_asset_classes.
  destruct acs as [|a acs'];
    [intros [= <- <-]; rewrite lookup_empty; by intros []|].
  rewrite call_bind, Hf.
  destruct (ac_post_bulk client _) as [|status_code body].
  { intros [= <- <-]. apply Hkeys. }
  destruct (status_code =? 200); [|intros [= <- <-]; apply Hkeys].
  destruct body as [items| |];
    [|intros [= <- <-]; rewrite lookup_empty; by intros []
     |intros [= <- <-]; apply Hkeys].
  destruct (zip_created _ 0 items ∅) as [mz|] eqn:Hz;
    [|intros [= <- <-]; apply Hkeys].
  intros [= <- <-] Hk.
  destruct (zip_created_dom _ _ _ _ _ _ Hz Hk) as [H|H]; [|done].
  rewrite lookup_empty in H. by destruct H.
Qed.

Lemma bulk_create_investors_inner_keys client invs m t k :
  (_bulk_create_investors client invs : Run _) = Some (m, t) ->
  is_Some (m !! k) -> k ∈ invs.*1.
Proof.
  destruct (investor_fallback client invs) as (mf & Hf & Hkeys & _).
  unfold _bulk_create_investors.
  destruct invs as [|a invs'];
    [intros [= <- <-]; rewrite lookup_empty; by intros []|].
  rewrite call_bind, Hf.
  destruct (inv_post_bulk client _) as [|status_code body].
  { intros [= <- <-]. apply Hkeys. }
  destruct (status_code =? 200); [|intros [= <- <-]; apply Hkeys].
  destruct body as [items| |];
    [|intros [= <- <-]; rewrite lookup_empty; by intros []
     |intros [= <- <-]; apply Hkeys].
  destruct (zip_created _ 0 items ∅) as [mz|] eqn:Hz;
    [|intros [= <- <-]; apply Hkeys].
  intros [= <- <-] Hk.
  destruct (zip_created_dom _ _ _ _ _ _ Hz Hk) as [H|H]; [|done].
  rewrite lookup_empty in H. by destruct H.
Qed.

Lemma fetch_existing_asset_classes_keys client names m t k :
  (_fetch_existing_asset_classes client names : Run _) = Some (m, t) ->
  is_Some (m !! k) -> k ∈ names.
Proof.
  unfold _fetch_existing_asset_classes. rewrite call_bind.
  destruct (ac_get_list client) as [|status_code [items|]];
    intros [= <- <-] Hk; try (rewrite lookup_empty in Hk; by destruct Hk).
  apply scan_existing_dom in Hk as [Hk|Hk]; [|done].
  rewrite lookup_empty in Hk. by destruct Hk.
Qed.

Lemma fetch_existing_investors_keys fuel client names m t k :
  (_fetch_existing_investors fuel client names : Run _) = Some (m, t) ->
  is_Some (m !! k) -> k ∈ names.
Proof.
  unfold _fetch_existing_investors. intros H.
  apply bind_Some in H as ([all|] & t1 & t2 & _ & H & _);
    injection H as <- <-; intros Hk;
    try (rewrite lookup_empty in Hk; by destruct Hk).
  apply scan_existing_dom in Hk as [Hk|Hk]; [|done].
  rewrite lookup_empty in Hk. by destruct Hk.
Qed.

Lemma filter_names_subseteq {D : Type} (P : string * D -> Prop)
    `{!∀ x, Decision (P x)} (l : list (string * D)) k :
  k ∈ (filter P l).*1 -> k ∈ l.*1.
Proof.
  intros ([n d] & -> & Hin)%list_elem_of_fmap.
  apply list_elem_of_filter in Hin as [_ Hin].
  apply list_elem_of_fmap. by exists (n, d).
Qed.

(** C10: every key of the mapping a resolver returns is one of the names it
    was asked for, for the asset-class resolver and for the investor
    resolver alike. *)
Theorem resolved_keys_are_requested_names
    (fuel : nat) (ac_client : AssetClassService) (inv_client : InvestorService)
    (asset_classes : list (string * AssetClassData))
    (investors_ : list (string * InvestorData))
    (ac_map inv_map : gmap string string) (t1 t2 : list (@Call Amount)) :
  bulk_create_asset_classes ac_client asset_classes = Some (ac_map, t1) ->
  bulk_create_investors fuel inv_client investors_ = Some (inv_map, t2) ->
  (∀ k, is_Some (ac_map !! k) -> k ∈ asset_classes.*1)
  ∧ (∀ k, is_Some (inv_map !! k) -> k ∈ investors_.*1).
Proof.
  intros Hac Hinv. split; intros k Hk.
  - unfold bulk_create_asset_classes in Hac.
    destruct asset_classes as [|a rest];
      [injection Hac as <- <-; rewrite lookup_empty in Hk; by destruct Hk|].
    apply bind_Some in Hac as (existing & u1 & u2 & Hfetch & Hrest & _).
    destruct (filter _ (a :: rest)) as [|n news] eqn:Hnew.
    + injection Hrest as <- <-.
      eapply fetch_existing_asset_classes_keys; eauto.
    + apply bind_Some in Hrest as (bulk & v1 & v2 & Hbulk & Hret & _).
      injection Hret as <- <-.
      apply lookup_union_is_Some in Hk as [Hk|Hk].
      * eapply filter_names_subseteq. rewrite Hnew.
        eapply bulk_create_asset_classes_inner_keys; eauto.
      * eapply fetch_existing_asset_classes_keys; eauto.
  - unfold bulk_create_investors in Hinv.
    destruct investors_ as [|a rest];
      [injection Hinv as <- <-; rewrite lookup_empty in Hk; by destruct Hk|].
    apply bind_Some in Hinv as (existing & u1 & u2 & Hfetch & Hrest & _).
    destruct (filter _ (a :: rest)) as [|n news] eqn:Hnew.
    + injection Hrest as <- <-.
      eapply fetch_existing_investors_keys; eauto.
    + apply bind_Some in Hrest as (bulk & v1 & v2 & Hbulk & Hret & _).
      injection Hret as <- <-.
      apply lookup_union_is_Some in Hk as [Hk|Hk].
      * eapply filter_names_subseteq. rewrite Hnew.
        eapply bulk_create_investors_inner_keys; eauto.
      * eapply fetch_existing_investors_keys; eauto.
Qed.

(** ** Pagination of the investor snapshot *)

Lemma fetch_investor_pages_stops client :
  ∀ n page fuel acc,
    (∀ p, page <= p < page + n -> page_continues client p) ->
    ¬ page_continues client (page + n) ->
    n < fuel ->
    (fetch_investor_pages fuel client page acc : Run _)
      = Some (if page_raises client (page + n) then None
              else Some (acc ++ snapshot client page (S n)),
              GetInvestors <$> seq page (S n)).
Proof.
  induction n as [|n IH]; intros page fuel acc Hcont Hstop Hfuel;
    (destruct fuel as [|fuel]; [lia|]);
    cbn [fetch_investor_pages]; rewrite call_bind.
  - rewrite Nat.add_0_r in *. unfold page_raises, snapshot, page_items.
    simpl. unfold page_continues in Hstop.
    destruct (inv_get_page client page) as [|status_code body]; [done|].
    destruct (Nat.eqb_spec status_code 200) as [->|_].
    + destruct body as [data|]; [|done].
      destruct (investors_has_next data) eqn:Hn; [exfalso; eauto|].
      by rewrite !app_nil_r.
    + destruct body; try done; by rewrite !app_nil_r.
  - destruct (Hcont page ltac:(lia)) as (data & Hpage & Hnext).
    rewrite Hpage. simpl. rewrite Hnext.
    rewrite (IH (S page) fuel (acc ++ investors data)); try lia.
    + replace (S page + n) with (page + S n) by lia.
      f_equal. f_equal.
      destruct (page_raises client (page + S n)); [done|].
      f_equal. unfold snapshot. simpl seq. rewrite !fmap_cons. simpl concat.
      unfold page_items at 3. rewrite Hpage. simpl. by rewrite <- app_assoc.
    + intros p Hp. apply Hcont. lia.
    + by replace (S page + n) with (page + S n) by lia.
Qed.

(** C8 (amended): when some page of the investor list does not lead to a
    next one (a transport error, a non-200 answer, an unreadable body, or a
    200 page without [has_next]), the existing-investor fetch returns, having
    asked for each page up to the first such page once.  Stopped by a non-200
    answer or by the last page, it returns the entries of the requested
    names found on the successful pages; stopped by a transport error or an
    unreadable body, it returns the empty mapping. *)
Theorem investor_snapshot_stops_at_first_failure
    (fuel : nat) (client : InvestorService) (investor_names : list string)
    (last : nat) :
  (∀ p, 1 <= p < 1 + last -> page_continues client p) ->
  ¬ page_continues client (1 + last) ->
  last < fuel ->
  (_fetch_existing_investors fuel client investor_names : Run _)
    = Some (if page_raises client (1 + last) then ∅
            else scan_existing investor_names
                   (snapshot client 1 (S last)) ∅,
            GetInvestors <$> seq 1 (S last)).
Proof.
  intros Hcont Hstop Hfuel. unfold _fetch_existing_investors.
  rewrite (bind_eq _ _ _ _
             (fetch_investor_pages_stops client last 1 fuel [] Hcont Hstop
                Hfuel)).
  destruct (page_raises client (1 + last)); simpl; by rewrite app_nil_r.
Qed.

(** A list endpoint that always announces a next page keeps the loop going
    for any amount of fuel. *)
Lemma investor_snapshot_never_ends (fuel : nat) (client : InvestorService) :
  (∀ p, page_continues client p) ->
  ∀ page acc, (fetch_investor_pages fuel client page acc : Run _) = None.
Proof.
  intros Hcont. induction fuel as [|fuel IH]; intros page acc; [done|].
  cbn [fetch_investor_pages]. rewrite call_bind.
  destruct (Hcont page) as (data & -> & Hn).
  simpl. by rewrite Hn, IH.
Qed.

(** ** The commitment snapshot and the dedup filter *)

(** Whatever the pages hold, the loop returns the set it started with: the
    statements that add keys come after a [break]. *)
Lemma fetch_commitment_pages_keeps fuel client :
  ∀ requests page keys r t,
    fetch_commitment_pages amount_str fuel client requests page keys
      = Some (r, t) ->
    r = keys.
Proof.
  induction fuel as [|fuel IH]; intros requests page keys r t; [done|].
  cbn [fetch_commitment_pages]. rewrite call_bind.
  destruct (cm_get_page client requests page) as [|status_code body].
  - destruct (fetch_commitment_pages _ fuel _ _ _ _) as [[r' t']|] eqn:E;
      [|done].
    intros [= <- <-]. eapply IH. exact E.
  - destruct (status_code =? 200); simpl; by intros [= <- <-].
Qed.

Lemma fetch_existing_commitments_empty fuel client keys t :
  _fetch_existing_commitments amount_str fuel client = Some (keys, t) ->
  keys = ∅.
Proof. apply fetch_commitment_pages_keeps. Qed.


(** While the commitment list endpoint keeps raising, the loop asks for the
    same page again and does not return. *)
Lemma fetch_commitment_pages_retries_forever client page keys :
  (∀ k, cm_get_page client k page = TransportError) ->
  ∀ fuel requests,
    fetch_commitment_pages amount_str fuel client requests page keys = None.
Proof.
  intros Hdown. induction fuel as [|fuel IH]; intros requests; [done|].
  cbn [fetch_commitment_pages]. by rewrite call_bind, Hdown, IH.
Qed.

Lemma candidate_request_sound existing inv_map ac_map
    (c : @CommitmentData Amount) q :
  candidate_request amount_str existing inv_map ac_map c = Some q ->
  request_for inv_map ac_map c q.
Proof.
  unfold candidate_request, request_for.
  destruct (inv_map !! investor_name c) as [i|]; [|done].
  destruct (ac_map !! asset_class_name c) as [a|]; [|by rewrite orb_true_r].
  destruct (_ || _); [done|].
  case_bool_decide; [done|]. by intros [= <-].
Qed.

(** For a set [existing] of dedup keys and a candidate whose names resolved
    to non-empty ids, the candidate yields a request exactly when its key is
    not in the set. *)
Lemma candidate_request_iff existing inv_map ac_map
    (c : @CommitmentData Amount) i a :
  inv_map !! investor_name c = Some i ->
  ac_map !! asset_class_name c = Some a ->
  truthy i = true -> truthy a = true ->
  candidate_request amount_str existing inv_map ac_map c
    = Some {| req_investor_id := i; req_asset_class_id := a;
              req_amount := amount c; req_currency := currency c |}
  ↔ unique_commitment_key amount_str i a (amount c) (currency c) ∉ existing.
Proof.
  intros Hi Ha Hti Hta. unfold candidate_request. rewrite Hi, Ha. simpl.
  rewrite Hti, Hta. simpl. case_bool_decide; split; try done.
Qed.


(** ** The orchestrator *)




(** C9: a batch that passes the structural validation and parses to no
    investor, no asset class and no commitment makes the orchestrator return
    at once, for any fuel, with the three counts at 0 and an empty trace of
    remote calls. *)
Theorem empty_batch_issues_no_calls
    (fuel : nat) (self : DataProcessor) (df : DataFrame) (job : string) :
  validate_csv_structure df = true ->
  parse_csv_data amount_positive df = inr ([], [], []) ->
  ∃ result,
    process_dataframe amount_str amount_positive fuel self df job
      = Some (result, [])
    ∧ asset_classes_created result = 0
    ∧ investors_created result = 0
    ∧ commitments_created result = 0.
Proof.
  intros Hvalid Hparse. unfold process_dataframe.
  rewrite Hvalid, Hparse. cbn. eexists. split; [reflexivity|]. done.
Qed.

End Facts.
(** ** The runs *)

(** C1 (the code departs from the claim): a commitment persisted by an
    earlier run is on the one page the commitment service holds, a row of the
    batch maps to the same dedup key, and the row is sent for creation
    again: the snapshot loop leaves at the first successful page before it
    reads it, so the set of existing keys is empty. *)
Theorem persisted_commitment_is_created_again :
  existing_key whole_str persisted
    = unique_commitment_key whole_str "inv-a" "ac-pe" 100%Z "USD"
  ∧ bulk_create_commitments whole_str 1 (commitments_holding [persisted])
      [resubmitted] {[ "Alpha" := "inv-a" ]} {[ "PE" := "ac-pe" ]}
    = Some (1,
            [GetCommitments 1;
             PostCommitmentsBulk
               [{| req_investor_id := "inv-a"; req_asset_class_id := "ac-pe";
                   req_amount := 100%Z; req_currency := "USD" |}]]).
Proof. split; vm_compute; reflexivity. Qed.

(** Two of four individual creates succeed after the bulk endpoint answered
    503. *)
Lemma fallback_creates_each_entity_witness :
  ∃ name_to_id,
    @_bulk_create_asset_classes Z asset_classes_two_of_four four_asset_classes
      = Some (name_to_id,
              PostAssetClassesBulk four_asset_classes.*2
                :: (PostAssetClass <$> four_asset_classes.*2))
    ∧ ∀ name id,
        name_to_id !! name = Some id
        ↔ ∃ data, (name, data) ∈ four_asset_classes
                  ∧ asset_class_created asset_classes_two_of_four data id.
Proof.
  apply fallback_creates_each_entity.
  - discriminate.
  - compute_done.
  - right. exists 503, BodyInvalid. split; [reflexivity|lia].
Defined.

(** The mapping of that run holds the two created asset classes only. *)
Example two_of_four_mapping :
  ∃ t, @_bulk_create_asset_classes Z asset_classes_two_of_four
         four_asset_classes
       = Some ({[ "Infra" := "ac-1"; "PE" := "ac-2" ]}, t).
Proof. eexists. vm_compute. reflexivity. Qed.



(** A frame with the required columns and no row. *)
Lemma empty_batch_issues_no_calls_witness :
  ∃ result,
    process_dataframe whole_str whole_positive 0 processor empty_frame "job-1"
      = Some (result, [])
    ∧ asset_classes_created result = 0
    ∧ investors_created result = 0
    ∧ commitments_created result = 0.
Proof.
  apply empty_batch_issues_no_calls; reflexivity.
Defined.

(** A bulk answer with status 201 and the created list is not zipped: the
    fallback runs, its creates are refused, and the name stays unresolved
    although the first element of the answer carries its id. *)
Lemma bulk_201_counterexample :
  ac_post_bulk asset_classes_bulk_201 [asset_class "Infra"].*2
    = Reply 201 (BodyList [ItemObject (Some "ac-1")])
  ∧ ∃ name_to_id t,
      @_bulk_create_asset_classes Z asset_classes_bulk_201
        [asset_class "Infra"] = Some (name_to_id, t)
      ∧ name_to_id !! "Infra" = None
      ∧ t = [PostAssetClassesBulk [asset_class "Infra"].*2;
             PostAssetClass (asset_class "Infra").2].
Proof.
  split; [reflexivity|]. eexists _, _. split; [vm_compute; reflexivity|].
  split; reflexivity.
Qed.

(** Three asset classes answered with two elements, two investors answered
    with two elements of which the second has no id. *)
Lemma bulk_answer_zipped_by_position_witness :
  (∃ name_to_id,
     @_bulk_create_asset_classes Z asset_classes_short_answer
       (asset_class <$> ["Infra"; "PE"; "Credit"])
       = Some (name_to_id,
               [PostAssetClassesBulk
                  (asset_class <$> ["Infra"; "PE"; "Credit"]).*2])
     ∧ ∀ i name,
         (asset_class <$> ["Infra"; "PE"; "Credit"]).*1 !! i = Some name ->
         name_to_id !! name = positional_id [Some "ac-1"; Some "ac-2"] i)
  ∧ (∃ name_to_id,
       @_bulk_create_investors Z investors_short_answer
         (investor <$> ["Delta"; "Epsilon"])
         = Some (name_to_id,
                 [PostInvestorsBulk (investor <$> ["Delta"; "Epsilon"]).*2])
       ∧ ∀ i name,
           (investor <$> ["Delta"; "Epsilon"]).*1 !! i = Some name ->
           name_to_id !! name = positional_id [Some "inv-1"; None] i).
Proof.
  apply bulk_answer_zipped_by_position.
  - discriminate.
  - compute_done.
  - reflexivity.
  - discriminate.
  - compute_done.
  - reflexivity.
Defined.

(** The first page holds a requested investor and announces a second page,
    which meets a transport error: the fetch returns the empty mapping, not
    the entry of the first page. *)
Lemma transport_error_discards_pages_counterexample :
  inv_get_page (investors_second_page TransportError) 2 = TransportError
  ∧ scan_existing ["Alpha"]
      (page_items (investors_second_page TransportError) 1) ∅ !! "Alpha"
    = Some "inv-a"
  ∧ @_fetch_existing_investors Z 5 (investors_second_page TransportError)
      ["Alpha"]
    = Some (∅, [GetInvestors 1; GetInvestors 2]).
Proof. repeat split; vm_compute; reflexivity. Qed.

(** The same first page, and a second page answered with status 503. *)
Lemma investor_snapshot_stops_at_first_failure_witness :
  @_fetch_existing_investors Z 2 (investors_second_page (Reply 503 None))
    ["Alpha"]
  = Some (if page_raises (investors_second_page (Reply 503 None)) (1 + 1)
          then ∅
          else scan_existing ["Alpha"]
                 (snapshot (investors_second_page (Reply 503 None)) 1 (S 1))
                 ∅,
          GetInvestors <$> seq 1 (S 1)).
Proof.
  apply investor_snapshot_stops_at_first_failure.
  - intros p Hp. assert (p = 1) as -> by lia.
    eexists. split; reflexivity.
  - intros (data & Hpage & _). discriminate Hpage.
  - lia.
Defined.

(** In that run the entry of the first page is returned. *)
Example status_503_keeps_pages :
  @_fetch_existing_investors Z 2 (investors_second_page (Reply 503 None))
    ["Alpha"]
  = Some ({[ "Alpha" := "inv-a" ]}, [GetInvestors 1; GetInvestors 2]).
Proof. vm_compute. reflexivity. Qed.

(** The resolvers of the run with three known investors. *)
Lemma resolved_keys_are_requested_names_witness :
  (∀ k, is_Some (({[ "PE" := "ac-pe" ]} : gmap string string) !! k) ->
        k ∈ [asset_class "PE"].*1)
  ∧ (∀ k, is_Some (three_resolved !! k) -> k ∈ five_investors.*1).
Proof.
  eapply (resolved_keys_are_requested_names (Amount:=Z) 1
            asset_classes_pe_only investors_three_known).
  - vm_compute. reflexivity.
  - vm_compute. reflexivity.
Defined.

End IngestionProps.

(* ===================================================================== *)
(** * Properties of the commitment service *)
(* ===================================================================== *)

Module CommitmentProps.
Import CommitmentService CommitmentSpec.

Lemma publish_keeps_table self data w :
  same_table w (publish_commitment_created self data w).2.
Proof.
  unfold publish_commitment_created, try_finally, try_except, same_table.
  destruct (_redis self) as [connection|]; simpl; [|done].
  destruct (connection _) as [e|]; simpl; [|done].
  destruct (is_redis_error e); simpl; done.
Qed.

(** A Redis error is caught in the publisher. *)
Lemma publish_swallows_redis_errors self created w :
  (∀ e, publish_raises self created e -> is_redis_error e = true) ->
  ∃ w', publish_commitment_created self created w = (Returned tt, w').
Proof.
  unfold publish_raises, publish_commitment_created, try_finally, try_except.
  intros Hredis. destruct (_redis self) as [connection|]; simpl.
  - destruct (connection _) as [e|]; simpl; [|eauto].
    rewrite (Hredis e eq_refl). simpl. eauto.
  - by specialize (Hredis _ eq_refl).
Qed.

(** Any other exception leaves the publisher. *)
Lemma publish_propagates_other_errors self created e w :
  publish_raises self created e ->
  is_redis_error e = false ->
  ∃ w', publish_commitment_created self created w = (Raised e, w')
        ∧ same_table w w'.
Proof.
  unfold publish_raises, publish_commitment_created, try_finally, try_except.
  intros Hraise Hother. destruct (_redis self) as [connection|]; simpl.
  - rewrite Hraise. simpl. rewrite Hother. simpl. eexists. by split.
  - subst e. simpl. eexists. by split.
Qed.

Lemma select_fresh_row (table : list CommitmentResponse) doc :
  Forall (fun row => id row ≠ id doc) table ->
  head (filter (fun row => bool_decide (id row = id doc) = true)
          (table ++ [doc])) = Some doc.
Proof.
  induction 1 as [|row rest Hrow _ IH]; simpl.
  - rewrite filter_cons.
    rewrite decide_True; [done|by apply bool_decide_eq_true].
  - rewrite filter_cons. rewrite decide_False; [exact IH|].
    by rewrite bool_decide_eq_true.
Qed.

(** The single create up to its publish: the row is committed and read back
    before the event is published, and the outcome of the call is decided by
    the outcome of the publish. *)
Lemma create_runs_to_publish self data w :
  insert_raises self = false ->
  Forall (fun row => id row ≠ uuid4 self 0) (committed w ++ pending w) ->
  let doc := prepare_commitment_for_db (uuid4 self 0) data in
  let w1 :=
    {| committed := committed w ++ pending w ++ [doc]; pending := [];
       channel := channel w;
       log := log w ++ [(INFO, "Creating commitment for investor");
                        (INFO, "Successfully created commitment with ID")] |}
  in
  create_commitment self data w
  = match publish_commitment_created (event_publisher self) doc w1 with
    | (Returned _, w2) => (Returned (Some doc), w2)
    | (Raised _, w2) =>
        (Returned None,
         {| committed := committed w2; pending := [];
            channel := channel w2;
            log := log w2 ++ [(ERROR, "Error creating commitment")] |})
    end.
Proof.
  intros Hins Hfresh doc w1.
  unfold create_commitment, try_except.
  unfold mbind at 1, P_bind at 1. cbn [logger].
  unfold mbind at 1, P_bind at 1. unfold execute_insert at 1. rewrite Hins.
  cbn [committed pending channel log].
  unfold mbind at 1, P_bind at 1. cbn [commit committed pending channel log].
  unfold mbind at 1, P_bind at 1. unfold get_commitment_by_id at 1.
  unfold mbind at 1, P_bind at 1.
  cbn [select_where committed pending channel log].
  unfold mret at 1, P_ret at 1.
  rewrite app_nil_r.
  replace (committed w ++ pending w
           ++ [prepare_commitment_for_db (uuid4 self 0) data])
    with ((committed w ++ pending w) ++ [doc]) by (by rewrite <- app_assoc).
  fold doc. rewrite (select_fresh_row _ doc Hfresh).
  unfold mbind at 1, P_bind at 1. cbn [logger committed pending channel log].
  rewrite <- !app_assoc. cbn [app]. fold w1.
  unfold mbind at 1, P_bind at 1.
  destruct (publish_commitment_created (event_publisher self) doc w1)
    as [[[]|e] w2]; done.
Qed.

(** With a publish that can only fail by a Redis error, the single create
    returns the created commitment. *)
Lemma create_succeeds_despite_redis_error self data w :
  insert_raises self = false ->
  Forall (fun row => id row ≠ uuid4 self 0) (committed w ++ pending w) ->
  (∀ e, publish_raises (event_publisher self)
          (prepare_commitment_for_db (uuid4 self 0) data) e ->
        is_redis_error e = true) ->
  ∃ w',
    create_commitment self data w
    = (Returned (Some (prepare_commitment_for_db (uuid4 self 0) data)), w').
Proof.
  intros Hins Hfresh Hredis.
  rewrite (create_runs_to_publish self data w Hins Hfresh).
  edestruct publish_swallows_redis_errors as (w' & ->); [exact Hredis|].
  eauto.
Qed.

(** With a publish that raises anything else, the single create returns
    [None] although the row is committed. *)
Lemma create_reports_failure_when_publish_raises self data w e :
  insert_raises self = false ->
  Forall (fun row => id row ≠ uuid4 self 0) (committed w ++ pending w) ->
  publish_raises (event_publisher self)
    (prepare_commitment_for_db (uuid4 self 0) data) e ->
  is_redis_error e = false ->
  ∃ w',
    create_commitment self data w = (Returned None, w')
    ∧ prepare_commitment_for_db (uuid4 self 0) data ∈ committed w'.
Proof.
  intros Hins Hfresh Hraise Hother.
  rewrite (create_runs_to_publish self data w Hins Hfresh).
  edestruct publish_propagates_other_errors as (w' & -> & Hc & _);
    [exact Hraise|exact Hother|].
  eexists. split; [done|]. cbn [committed] in *. rewrite Hc.
  rewrite !elem_of_app. right. right. by apply list_elem_of_singleton.
Qed.

Lemma gather_return_exceptions_returns self created :
  ∀ w, ∃ results w',
    gather_return_exceptions
      (publish_commitment_created self <$> created) w
    = (Returned results, w')
    ∧ same_table w w'.
Proof.
  induction created as [|c rest IH]; intros w.
  - exists [], w. done.
  - cbn [fmap list_fmap gather_return_exceptions].
    pose proof (publish_keeps_table self c w) as [Hc Hp].
    destruct (publish_commitment_created self c w) as [r w1].
    simpl in Hc, Hp.
    destruct (IH w1) as (rs & w2 & -> & Hc2 & Hp2).
    exists (r :: rs), w2. split; [done|]. split; congruence.
Qed.

Lemma log_publish_failures_silent {A : Type} (results : list (Result A)) w :
  log_publish_failures false results w = (Returned tt, w).
Proof.
  induction results as [|r rest IH]; [done|].
  cbn [log_publish_failures]. unfold mbind, P_bind. simpl. exact IH.
Qed.

(** The bulk create returns the rows it committed whatever the publishes
    raise. *)
Lemma bulk_create_swallows_publish_failures self commitments w :
  commitments ≠ [] ->
  insert_raises self = false ->
  ∃ w',
    bulk_create_commitments self commitments w
    = (Returned
         (filter (fun row => id row ∈ id <$> docs_of self commitments)
            (committed w ++ pending w ++ docs_of self commitments)),
       w')
    ∧ committed w' = committed w ++ pending w ++ docs_of self commitments
    ∧ pending w' = [].
Proof.
  intros Hne Hins. destruct commitments as [|c rest]; [done|].
  unfold bulk_create_commitments, try_except.
  set (cs := c :: rest).
  unfold mbind at 1, P_bind at 1. cbn [logger].
  unfold mbind at 1, P_bind at 1. unfold execute_insert at 1. rewrite Hins.
  cbn [committed pending channel log].
  unfold mbind at 1, P_bind at 1. cbn [commit committed pending channel log].
  unfold mbind at 1, P_bind at 1.
  cbn [select_where committed pending channel log].
  unfold mbind at 1, P_bind at 1. cbn [logger committed pending channel log].
  unfold mbind at 1, P_bind at 1.
  edestruct (gather_return_exceptions_returns (event_publisher self))
    as (results & w' & -> & Hc & Hp).
  unfold mbind at 1, P_bind at 1. rewrite log_publish_failures_silent.
  exists w'. cbn [committed pending] in Hc, Hp. rewrite Hc, Hp.
  fold (docs_of self cs). split; [|done].
  unfold mret, P_ret. do 2 f_equal.
  rewrite app_nil_r. apply list_filter_iff. intros row.
  by rewrite bool_decide_eq_true.
Qed.


(** The bulk create of the same commitment with the same publisher returns
    the created row, and logs no error for the publish that raised. *)
Example bulk_create_returns_despite_publish_failure :
  bulk_create_commitments repository_without_redis [one_commitment]
    empty_world
  = (Returned
       [{| id := "c-0"; investor_id := "inv-1"; asset_class_id := "ac-1";
           amount := 10000; currency := "GBP" |}],
     {| committed :=
          [{| id := "c-0"; investor_id := "inv-1"; asset_class_id := "ac-1";
              amount := 10000; currency := "GBP" |}];
        pending := [];
        channel := [];
        log := [(INFO, "Bulk creating commitments");
                (INFO, "Successfully bulk created commitments");
                (INFO, "Stopped publishing events")] |}).
Proof. vm_compute. reflexivity. Qed.

End CommitmentProps.

(* ===================================================================== *)
(** * Properties of the event subscriber *)
(* ===================================================================== *)

Module InvestorProps.
Import InvestorService InvestorSpec.





Lemma handle_message_keeps_unknown message
    (collection final : Collection) r k :
  _handle_message message collection = (final, r) ->
  collection !! k = None -> final !! k = None.
Proof.
  unfold _handle_message. destruct message as [| |event_data];
    try (by intros [= <- <-]).
  destruct (Ingestion.falsy_id _); [by intros [= <- <-]|].
  case_bool_decide; [|by intros [= <- <-]].
  unfold _handle_commitment_created, get_investor_by_id,
    update_commitment_metrics.
  destruct (investor_id event_data) as [i|]; [|by intros [= <- <-]].
  destruct (amount event_data); try (by intros [= <- <-]).
  destruct (collection !! i) as [doc|] eqn:Hi; [|by intros [= <- <-]].
  intros [= <- <-] Hk. rewrite lookup_insert_ne; [done|congruence].
Qed.

Lemma handle_unknown_investor (collection : Collection) event :
  collection !! CommitmentService.event_investor_id event = None ->
  _handle_message (decode event) collection = (collection, Returned).
Proof.
  intros Hx. unfold _handle_message, decode. simpl.
  destruct (negb _); [done|]. case_bool_decide; [|done].
  unfold _handle_commitment_created, get_investor_by_id. simpl.
  by rewrite Hx.
Qed.

(** C6: a CommitmentCreated event whose investor id is the id of no stored
    investor is handled without an exception and without a change of the
    collection, and the consumer loop goes on to the messages after it: the
    loop ends as it would have without that message. *)
Theorem unknown_investor_event_is_dropped
    (collection : Collection)
    (event : CommitmentService.CommitmentCreatedEvent)
    (before after : list Poll) :
  collection !! CommitmentService.event_investor_id event = None ->
  _handle_message (decode event) collection = (collection, Returned)
  ∧ start_listening (before ++ Message (decode event) :: after) collection
    = start_listening (before ++ after) collection.
Proof.
  intros Hx. split; [by apply handle_unknown_investor|].
  revert collection Hx.
  induction before as [|poll rest IH]; intros collection Hx.
  - cbn [app start_listening]. by rewrite handle_unknown_investor.
  - destruct poll as [|message|]; cbn [app start_listening];
      [by apply IH| |done].
    destruct (_handle_message message collection) as [final r] eqn:Hm.
    destruct r; [|done]. apply IH.
    eapply handle_message_keeps_unknown; eauto.
Qed.

(** A message whose amount is a text that is no number does make the
    handler raise, and ends the loop. *)
Example malformed_amount_crashes_listener :
  start_listening
    [Message (JsonObject {| event_type := Some "commitment_created";
                            investor_id := Some "inv-1";
                            amount := AmountMalformed |});
     Message (decode (commitment_created "inv-1" 10000))]
    one_investor
  = (one_investor, Crashed InvalidOperation).
Proof. reflexivity. Qed.


(** The aggregate of that run: three commitments, 400.00 in total. *)
Example three_events_any_order :
  (start_listening
     (deliveries (commitment_created "inv-1" <$> [5000; 10000; 25000]%Z))
     one_investor).1 !! "inv-1"
  = Some (with_metrics acme 3 40000)
  ∧ (start_listening
       (deliveries (commitment_created "inv-1" <$> [25000; 5000; 10000]%Z))
       one_investor).1 !! "inv-1"
    = Some (with_metrics acme 3 40000).
Proof. split; vm_compute; reflexivity. Qed.

(** An event for an investor the collection does not hold, between two
    events for one it holds. *)
Lemma unknown_investor_event_is_dropped_witness :
  _handle_message (decode (commitment_created "ghost" 5000)) one_investor
    = (one_investor, Returned)
  ∧ start_listening
      (deliveries [commitment_created "inv-1" 10000]
       ++ Message (decode (commitment_created "ghost" 5000))
          :: deliveries [commitment_created "inv-1" 25000])
      one_investor
    = start_listening
        (deliveries [commitment_created "inv-1" 10000]
         ++ deliveries [commitment_created "inv-1" 25000])
        one_investor.
Proof.
  apply unknown_investor_event_is_dropped. reflexivity.
Defined.

End InvestorProps.

(* ===================================================================== *)
(** * Further properties of the ingestion service *)
(* ===================================================================== *)

Module IngestionExtraProps.
Import Ingestion IngestionSpec IngestionProps IngestionExtraSpec.

Section Facts.
Context {Amount : Type}.
Variable amount_str : Amount -> string.
Variable amount_positive : Amount -> bool.
Abbreviation Run A := (@M Amount A).

(** ** The parser *)

Lemma parse_rows_invariant (todo : list CsvRow) :
  ∀ investors_ asset_classes commitments_ investors' asset_classes'
    commitments',
    parsed_ok amount_positive investors_ asset_classes commitments_ ->
    parse_rows amount_positive todo investors_ asset_classes commitments_
      = inr (investors', asset_classes', commitments') ->
    parsed_ok amount_positive investors' asset_classes' commitments'
    ∧ length investors_ <= length investors'
    ∧ length asset_classes <= length asset_classes'
    ∧ length investors' <= length investors_ + length todo
    ∧ length asset_classes' <= length asset_classes + length todo
    ∧ length commitments' <= length commitments_ + length todo
    ∧ (todo ≠ [] -> investors' ≠ [] ∧ asset_classes' ≠ []).
Proof.
  induction todo as [|row rest IH];
    intros investors_ asset_classes commitments_ investors' asset_classes'
      commitments' Hok.
  - simpl. intros [= <- <- <-]. split; [done|]. repeat split; try lia; done.
  - cbn [parse_rows].
    set (iname := strip (cell_investor_name row)).
    set (aname := strip (cell_commitment_asset_class row)).
    set (investors1 := if bool_decide (iname ∈ investors_.*1) then investors_ else _).
    set (asset_classes1 := if bool_decide (aname ∈ asset_classes.*1) then asset_classes else _).
    destruct (cell_commitment_amount row) as [a|e]; [|done].
    set (commitments1 := if amount_positive a then _ else commitments_).
    intros Hrun.
    destruct Hok as (Hnd1 & Hnd2 & Hn1 & Hn2 & Hc).
    assert (iname ∈ investors1.*1 ∧ NoDup investors1.*1
            ∧ Forall (fun nd => inv_name nd.2 = nd.1) investors1
            ∧ (∀ k, k ∈ investors_.*1 -> k ∈ investors1.*1)
            ∧ length investors_ <= length investors1 <= length investors_ + 1
            ∧ investors1 ≠ []) as (Hi1 & Hi2 & Hi3 & Hi4 & Hi5 & Hi6).
    { unfold investors1. case_bool_decide as Hin.
      - repeat split; try done; try lia. intros ->. by apply elem_of_nil in Hin.
      - rewrite fmap_app, length_app. simpl. repeat split; try lia.
        + apply elem_of_app. right. left.
        + apply NoDup_app. split; [done|]. split; [|apply NoDup_singleton].
          intros k Hk ->%list_elem_of_singleton. done.
        + apply Forall_app. split; [done|]. by constructor.
        + intros k Hk. apply elem_of_app. by left.
        + by destruct investors_. }
    assert (aname ∈ asset_classes1.*1 ∧ NoDup asset_classes1.*1
            ∧ Forall (fun nd => ac_name nd.2 = nd.1) asset_classes1
            ∧ (∀ k, k ∈ asset_classes.*1 -> k ∈ asset_classes1.*1)
            ∧ length asset_classes <= length asset_classes1 <= length asset_classes + 1
            ∧ asset_classes1 ≠ []) as (Ha1 & Ha2 & Ha3 & Ha4 & Ha5 & Ha6).
    { unfold asset_classes1. case_bool_decide as Hin.
      - repeat split; try done; try lia. intros ->. by apply elem_of_nil in Hin.
      - rewrite fmap_app, length_app. simpl. repeat split; try lia.
        + apply elem_of_app. right. left.
        + apply NoDup_app. split; [done|]. split; [|apply NoDup_singleton].
          intros k Hk ->%list_elem_of_singleton. done.
        + apply Forall_app. split; [done|]. by constructor.
        + intros k Hk. apply elem_of_app. by left.
        + by destruct asset_classes. }
    assert (parsed_ok amount_positive investors1 asset_classes1 commitments1
            ∧ length commitments1 <= length commitments_ + 1) as [Hok1 Hlen1].
    { split.
      - repeat split; try done.
        assert (Forall (fun c => investor_name c ∈ investors1.*1
                     ∧ asset_class_name c ∈ asset_classes1.*1
                     ∧ amount_positive (amount c) = true) commitments_) as Hc'.
        { eapply Forall_impl; [exact Hc|]. intros c (? & ? & ?). auto. }
        unfold commitments1. destruct (amount_positive a) eqn:Hpos; [|done].
        apply Forall_app. split; [done|]. constructor; [|constructor].
        simpl. auto.
      - unfold commitments1. destruct (amount_positive a); [|lia].
        rewrite length_app. simpl. lia. }
    destruct (IH _ _ _ _ _ _ Hok1 Hrun) as (Hok' & L1 & L2 & L3 & L4 & L5 & _).
    split; [done|]. simpl. repeat split; try lia.
    + intros ->. simpl in L1. destruct investors1; [done|simpl in L1; lia].
    + intros ->. simpl in L2. destruct asset_classes1; [done|simpl in L2; lia].
Qed.

Lemma parsed_ok_nil : parsed_ok amount_positive [] [] [].
Proof. repeat split; constructor. Qed.

(** X1: whatever the parser returns for a frame, the names of the investor dict
    are distinct, so are the names of the asset-class dict, every entry is
    filed under the name its data carries, and every commitment kept names
    an investor and an asset class of these dicts and has a positive
    amount. *)
Theorem parsed_entities_are_consistent (df : DataFrame)
    (investors_ : list (string * InvestorData))
    (asset_classes : list (string * AssetClassData))
    (commitments_ : list CommitmentData) :
  parse_csv_data amount_positive df
    = inr (investors_, asset_classes, commitments_) ->
  NoDup investors_.*1
  ∧ NoDup asset_classes.*1
  ∧ Forall (fun nd => inv_name nd.2 = nd.1) investors_
  ∧ Forall (fun nd => ac_name nd.2 = nd.1) asset_classes
  ∧ Forall (fun c => investor_name c ∈ investors_.*1
                     ∧ asset_class_name c ∈ asset_classes.*1
                     ∧ amount_positive (amount c) = true) commitments_.
Proof.
  intros Hparse.
  by destruct (parse_rows_invariant _ _ _ _ _ _ _ parsed_ok_nil Hparse) as [H _].
Qed.

(** X2: the parser returns three empty collections exactly for a frame
    without rows: one row is enough to put an investor and an asset class in
    the dicts, also when its amount is not positive. *)
Theorem parse_is_empty_only_for_no_rows (df : DataFrame) :
  parse_csv_data amount_positive df = inr ([], [], []) ↔ rows df = [].
Proof.
  unfold parse_csv_data. split.
  - intros Hparse.
    destruct (parse_rows_invariant _ _ _ _ _ _ _ parsed_ok_nil Hparse)
      as (_ & _ & _ & _ & _ & _ & Hne).
    destruct (rows df) as [|r rs]; [done|].
    by destruct Hne as [Hne _].
  - intros ->. reflexivity.
Qed.



(** X4: a frame that lacks one of the seven required columns ends the run as
    failed with the error Invalid CSV structure and all counts 0, before any
    request is sent. *)
Theorem missing_column_aborts_before_any_call
    (fuel : nat) (self : DataProcessor) (df : DataFrame) (job : string)
    (col : string) :
  col ∈ required_columns ->
  col ∉ columns df ->
  process_dataframe amount_str amount_positive fuel self df job
  = Some (_error_result job (length (rows df)) "Invalid CSV structure" 0 0 0,
          []).
Proof.
  intros Hreq Hmiss. unfold process_dataframe.
  assert (validate_csv_structure df = false) as ->; [|done].
  unfold validate_csv_structure.
  destruct (filter _ required_columns) as [|c cs] eqn:Hf; [|done].
  assert (col ∈ filter (fun c => c ∉ columns df) required_columns) as Hin
    by (by apply list_elem_of_filter).
  rewrite Hf in Hin. by apply elem_of_nil in Hin.
Qed.


(** ** The entity resolvers *)


Lemma fetch_existing_asset_classes_trace client names m t :
  (_fetch_existing_asset_classes client names : Run _) = Some (m, t) ->
  t = [GetAssetClasses].
Proof.
  unfold _fetch_existing_asset_classes. rewrite call_bind.
  destruct (ac_get_list client) as [|status_code [items|]];
    by intros [= <- <-].
Qed.

(** The three shapes of the trace of the asset-class creator. *)
Lemma bulk_create_asset_classes_inner_trace client acs m t :
  (_bulk_create_asset_classes client acs : Run _) = Some (m, t) ->
  (acs = [] ∧ t = [])
  ∨ t = [PostAssetClassesBulk acs.*2]
  ∨ t = PostAssetClassesBulk acs.*2 :: (PostAssetClass <$> acs.*2).
Proof.
  destruct (asset_class_fallback (Amount:=Amount) client acs) as (mf & Hf & _).
  unfold _bulk_create_asset_classes.
  destruct acs as [|a acs']; [intros [= <- <-]; by left|].
  rewrite call_bind, Hf.
  destruct (ac_post_bulk client _) as [|status_code body];
    [intros [= <- <-]; right; by right|].
  destruct (status_code =? 200); [|intros [= <- <-]; right; by right].
  destruct body as [items| |];
    [|intros [= <- <-]; right; by left|intros [= <- <-]; right; by right].
  destruct (zip_created _ 0 items ∅) as [mz|];
    intros [= <- <-]; right; [by left|by right].
Qed.

Lemma bulk_create_investors_inner_trace client invs m t :
  (_bulk_create_investors client invs : Run _) = Some (m, t) ->
  (invs = [] ∧ t = [])
  ∨ t = [PostInvestorsBulk invs.*2]
  ∨ t = PostInvestorsBulk invs.*2 :: (PostInvestor <$> invs.*2).
Proof.
  destruct (investor_fallback (Amount:=Amount) client invs) as (mf & Hf & _).
  unfold _bulk_create_investors.
  destruct invs as [|a invs']; [intros [= <- <-]; by left|].
  rewrite call_bind, Hf.
  destruct (inv_post_bulk client _) as [|status_code body];
    [intros [= <- <-]; right; by right|].
  destruct (status_code =? 200); [|intros [= <- <-]; right; by right].
  destruct body as [items| |];
    [|intros [= <- <-]; right; by left|intros [= <- <-]; right; by right].
  destruct (zip_created _ 0 items ∅) as [mz|];
    intros [= <- <-]; right; [by left|by right].
Qed.

Lemma sent_of_bulk_trace (payload : list AssetClassData) (t : list (@Call Amount)) d :
  t = [PostAssetClassesBulk payload]
  ∨ t = PostAssetClassesBulk payload :: (PostAssetClass <$> payload) ->
  d ∈ asset_classes_sent t -> d ∈ payload.
Proof.
  unfold asset_classes_sent. intros [->| ->].
  - simpl. by rewrite app_nil_r.
  - rewrite bind_cons. intros [H|H]%elem_of_app; [done|].
    apply list_elem_of_bind in H as (c & Hd & Hc).
    apply list_elem_of_fmap in Hc as (d' & -> & Hd').
    by apply list_elem_of_singleton in Hd as ->.
Qed.

Lemma investors_sent_of_bulk_trace (payload : list InvestorData) (t : list (@Call Amount)) d :
  t = [PostInvestorsBulk payload]
  ∨ t = PostInvestorsBulk payload :: (PostInvestor <$> payload) ->
  d ∈ investors_sent t -> d ∈ payload.
Proof.
  unfold investors_sent. intros [->| ->].
  - simpl. by rewrite app_nil_r.
  - rewrite bind_cons. intros [H|H]%elem_of_app; [done|].
    apply list_elem_of_bind in H as (c & Hd & Hc).
    apply list_elem_of_fmap in Hc as (d' & -> & Hd').
    by apply list_elem_of_singleton in Hd as ->.
Qed.

(** The resolver of the asset classes, taken apart: the snapshot, then the
    creation of the names the snapshot lacks. *)
Lemma bulk_create_asset_classes_steps client acs m t :
  acs ≠ [] ->
  (bulk_create_asset_classes client acs : Run _) = Some (m, t) ->
  ∃ existing created tb,
    (_fetch_existing_asset_classes client acs.*1 : Run _)
      = Some (existing, [GetAssetClasses])
    ∧ (_bulk_create_asset_classes client
         (filter (fun nd => existing !! nd.1 = None) acs) : Run _)
      = Some (created, tb)
    ∧ m = created ∪ existing
    ∧ t = GetAssetClasses :: tb.
Proof.
  intros Hne. unfold bulk_create_asset_classes.
  destruct acs as [|a rest]; [done|].
  intros H. apply bind_Some in H as (existing & u1 & u2 & Hfetch & Hrest & ->).
  pose proof (fetch_existing_asset_classes_trace _ _ _ _ Hfetch) as ->.
  exists existing.
  destruct (filter _ (a :: rest)) as [|n news] eqn:Hnew.
  - injection Hrest as <- <-. exists ∅, []. rewrite Hfetch.
    split; [done|]. split; [done|]. split; [by rewrite (left_id_L ∅ (∪))|done].
  - apply bind_Some in Hrest as (created & v1 & v2 & Hbulk & [= <- <-] & ->).
    exists created, v1. rewrite Hfetch, app_nil_r. done.
Qed.

(** X5: the asset-class resolver asks for the list once, keeps every id of
    that snapshot in the mapping it returns (a created id never replaces
    it), sends for creation only asset classes whose name the snapshot
    lacks, and when the snapshot has every requested name it sends nothing
    after the list request and returns the snapshot. *)
Theorem known_asset_classes_are_not_created client
    (asset_classes : list (string * AssetClassData))
    (name_to_id : gmap string string) (t : list (@Call Amount)) :
  asset_classes ≠ [] ->
  bulk_create_asset_classes client asset_classes = Some (name_to_id, t) ->
  ∃ existing,
    (_fetch_existing_asset_classes client asset_classes.*1 : Run _)
      = Some (existing, [GetAssetClasses])
    ∧ (∀ name id, existing !! name = Some id -> name_to_id !! name = Some id)
    ∧ (∀ data, data ∈ asset_classes_sent t ->
         ∃ name, (name, data) ∈ asset_classes ∧ existing !! name = None)
    ∧ ((∀ name, name ∈ asset_classes.*1 -> is_Some (existing !! name)) ->
       t = [GetAssetClasses] ∧ name_to_id = existing).
Proof.
  intros Hne Hrun.
  destruct (bulk_create_asset_classes_steps _ _ _ _ Hne Hrun)
    as (existing & created & tb & Hfetch & Hbulk & -> & ->).
  exists existing. split; [done|]. split; [|split].
  - intros name id Hex. apply lookup_union_Some_raw. right. split; [|done].
    destruct (created !! name) as [i|] eqn:Hc; [|done]. exfalso.
    assert (name ∈ (filter (fun nd => existing !! nd.1 = None) asset_classes).*1) as Hin.
    { eapply bulk_create_asset_classes_inner_keys; eauto. }
    apply list_elem_of_fmap in Hin as ([n d] & -> & Hin).
    apply list_elem_of_filter in Hin as [Hnone _]. simpl in *. congruence.
  - intros data Hsent.
    unfold asset_classes_sent in Hsent. rewrite bind_cons in Hsent. simpl in Hsent.
    destruct (bulk_create_asset_classes_inner_trace _ _ _ _ Hbulk) as [[_ ->]|Hshape].
    { by apply elem_of_nil in Hsent. }
    apply (sent_of_bulk_trace _ _ _ Hshape) in Hsent.
    apply list_elem_of_fmap in Hsent as ([n d] & -> & Hin).
    apply list_elem_of_filter in Hin as [Hnone Hin]. by exists n.
  - intros Hall.
    destruct (filter (fun nd => existing !! nd.1 = None) asset_classes)
      as [|[n d] news] eqn:Hnew.
    + injection Hbulk as <- <-. split; [done|apply (left_id_L ∅ (∪))].
    + exfalso.
      assert ((n, d) ∈ filter (fun nd => existing !! nd.1 = None)
                         asset_classes) as Hin by (rewrite Hnew; left).
      apply list_elem_of_filter in Hin as [Hnone Hin].
      destruct (Hall n) as [i Hi]; [|simpl in *; congruence].
      apply list_elem_of_fmap. by exists (n, d).
Qed.



Lemma fetch_investor_pages_trace client :
  ∀ fuel page acc r t,
    (fetch_investor_pages fuel client page acc : Run _) = Some (r, t) ->
    Forall (fun c => ∃ p, c = GetInvestors p) t.
Proof.
  induction fuel as [|fuel IH]; intros page acc r t; [done|].
  cbn [fetch_investor_pages]. rewrite call_bind.
  destruct (inv_get_page client page) as [|status_code body].
  { intros [= <- <-]. repeat constructor. by eexists. }
  destruct (status_code =? 200);
    [|intros [= <- <-]; repeat constructor; by eexists].
  destruct body as [data|];
    [|intros [= <- <-]; repeat constructor; by eexists].
  destruct (investors_has_next data);
    [|intros [= <- <-]; repeat constructor; by eexists].
  destruct (fetch_investor_pages fuel client (S page) _)
    as [[r' t']|] eqn:E; [|done].
  intros [= <- <-]. constructor; [by eexists|]. eapply IH. exact E.
Qed.

Lemma fetch_existing_investors_trace fuel client names m t :
  (_fetch_existing_investors fuel client names : Run _) = Some (m, t) ->
  Forall (fun c => ∃ p, c = GetInvestors p) t.
Proof.
  unfold _fetch_existing_investors. intros H.
  apply bind_Some in H as (r & t1 & t2 & Hpages & Hret & ->).
  apply Forall_app. split; [by eapply fetch_investor_pages_trace|].
  destruct r; injection Hret as <- <-; constructor.
Qed.

(** The resolver of the investors, taken apart. *)
Lemma bulk_create_investors_steps fuel client invs m t :
  invs ≠ [] ->
  (bulk_create_investors fuel client invs : Run _) = Some (m, t) ->
  ∃ existing created tf tb,
    (_fetch_existing_investors fuel client invs.*1 : Run _)
      = Some (existing, tf)
    ∧ (_bulk_create_investors client
         (filter (fun nd => existing !! nd.1 = None) invs) : Run _)
      = Some (created, tb)
    ∧ m = created ∪ existing
    ∧ t = tf ++ tb.
Proof.
  intros Hne. unfold bulk_create_investors.
  destruct invs as [|a rest]; [done|].
  intros H. apply bind_Some in H as (existing & u1 & u2 & Hfetch & Hrest & ->).
  exists existing.
  destruct (filter _ (a :: rest)) as [|n news] eqn:Hnew.
  - injection Hrest as <- <-. exists ∅, u1, []. rewrite Hfetch.
    split; [done|]. split; [done|]. split; [by rewrite (left_id_L ∅ (∪))|done].
  - apply bind_Some in Hrest as (created & v1 & v2 & Hbulk & [= <- <-] & ->).
    exists created, u1, v1. rewrite Hfetch, app_nil_r. done.
Qed.

(** X6: the investor resolver keeps every id of its snapshot in the mapping
    it returns, sends for creation only investors whose name the snapshot
    lacks, and when the snapshot has every requested name its only requests
    are those of the snapshot. *)
Theorem known_investors_are_not_created fuel client
    (investors_ : list (string * InvestorData))
    (name_to_id : gmap string string) (t : list (@Call Amount)) :
  investors_ ≠ [] ->
  bulk_create_investors fuel client investors_ = Some (name_to_id, t) ->
  ∃ existing tf,
    (_fetch_existing_investors fuel client investors_.*1 : Run _)
      = Some (existing, tf)
    ∧ (∀ name id, existing !! name = Some id -> name_to_id !! name = Some id)
    ∧ (∀ data, data ∈ investors_sent t ->
         ∃ name, (name, data) ∈ investors_ ∧ existing !! name = None)
    ∧ ((∀ name, name ∈ investors_.*1 -> is_Some (existing !! name)) ->
       t = tf ∧ name_to_id = existing).
Proof.
  intros Hne Hrun.
  destruct (bulk_create_investors_steps _ _ _ _ _ Hne Hrun)
    as (existing & created & tf & tb & Hfetch & Hbulk & -> & ->).
  exists existing, tf. split; [done|]. split; [|split].
  - intros name id Hex. apply lookup_union_Some_raw. right. split; [|done].
    destruct (created !! name) as [i|] eqn:Hc; [|done]. exfalso.
    assert (name ∈ (filter (fun nd => existing !! nd.1 = None) investors_).*1)
      as Hin.
    { eapply bulk_create_investors_inner_keys; eauto. }
    apply list_elem_of_fmap in Hin as ([n d] & -> & Hin).
    apply list_elem_of_filter in Hin as [Hnone _]. simpl in *. congruence.
  - intros data Hsent.
    unfold investors_sent in Hsent. rewrite bind_app in Hsent.
    apply elem_of_app in Hsent as [Hsent|Hsent].
    { exfalso. apply list_elem_of_bind in Hsent as (c & Hd & Hc).
      pose proof (fetch_existing_investors_trace _ _ _ _ _ Hfetch) as Htf.
      rewrite Forall_forall in Htf. destruct (Htf c Hc) as [p ->].
      by apply elem_of_nil in Hd. }
    destruct (bulk_create_investors_inner_trace _ _ _ _ Hbulk)
      as [[_ ->]|Hshape].
    { by apply elem_of_nil in Hsent. }
    apply (investors_sent_of_bulk_trace _ _ _ Hshape) in Hsent.
    apply list_elem_of_fmap in Hsent as ([n d] & -> & Hin).
    apply list_elem_of_filter in Hin as [Hnone Hin]. by exists n.
  - intros Hall.
    destruct (filter (fun nd => existing !! nd.1 = None) investors_)
      as [|[n d] news] eqn:Hnew.
    + injection Hbulk as <- <-.
      split; [by rewrite app_nil_r|apply (left_id_L ∅ (∪))].
    + exfalso.
      assert ((n, d) ∈ filter (fun nd => existing !! nd.1 = None)
                         investors_) as Hin by (rewrite Hnew; left).
      apply list_elem_of_filter in Hin as [Hnone Hin].
      destruct (Hall n) as [i Hi]; [|simpl in *; congruence].
      apply list_elem_of_fmap. by exists (n, d).
Qed.

Lemma zip_created_not_object names :
  ∀ items i k (acc : gmap string string),
    items !! k = Some ItemNotObject ->
    i + k < length names ->
    zip_created names i items acc = None.
Proof.
  induction items as [|c rest IH]; intros i k acc Hk Hlen; [done|].
  cbn [zip_created].
  destruct (lookup_lt_is_Some_2 names i) as [n Hn]; [lia|]. rewrite Hn.
  destruct k as [|k].
  - injection Hk as ->. done.
  - destruct c as [oid|]; [|done]. apply (IH (S i) k); [done|lia].
Qed.

(** X7: when the bulk endpoint answers 200 with a list in which an element
    at a position below the number of requested asset classes is no object,
    none of the ids of that answer is used: every asset class is created
    again one by one, and the mapping holds exactly the names whose
    individual create succeeded. *)
Theorem malformed_bulk_element_discards_the_answer
    (client : AssetClassService)
    (asset_classes : list (string * AssetClassData))
    (items : list BulkItem) (k : nat) :
  NoDup asset_classes.*1 ->
  ac_post_bulk client asset_classes.*2 = Reply 200 (BodyList items) ->
  items !! k = Some ItemNotObject ->
  k < length asset_classes ->
  ∃ name_to_id,
    (_bulk_create_asset_classes client asset_classes : Run _)
      = Some (name_to_id,
              PostAssetClassesBulk asset_classes.*2
                :: (PostAssetClass <$> asset_classes.*2))
    ∧ ∀ name id,
        name_to_id !! name = Some id
        ↔ ∃ data, (name, data) ∈ asset_classes
                  ∧ asset_class_created client data id.
Proof.
  intros Hnd Hreply Hk Hlen.
  destruct (asset_class_fallback (Amount:=Amount) client asset_classes)
    as (m & Hf & _ & Hm).
  exists m. split; [|by apply Hm].
  unfold _bulk_create_asset_classes.
  destruct asset_classes as [|a rest]; [simpl in Hlen; lia|].
  rewrite call_bind, Hf, Hreply, Nat.eqb_refl.
  rewrite (zip_created_not_object _ items 0 k); [done|done|].
  by rewrite length_fmap.
Qed.


(** ** The commitment resolver and the orchestrator *)


Lemma fetch_commitment_pages_trace client page keys :
  ∀ fuel requests r t,
    fetch_commitment_pages amount_str fuel client requests page keys
      = Some (r, t) ->
    ∃ k, k < fuel
      ∧ (∀ j, requests <= j < requests + k ->
           cm_get_page client j page = TransportError)
      ∧ cm_get_page client (requests + k) page ≠ TransportError
      ∧ t = replicate (S k) (GetCommitments page)
      ∧ r = keys.
Proof.
  induction fuel as [|fuel IH]; intros requests r t; [done|].
  cbn [fetch_commitment_pages]. rewrite call_bind.
  destruct (cm_get_page client requests page) as [|status_code body] eqn:E.
  - destruct (fetch_commitment_pages _ fuel _ _ _ _) as [[r' t']|] eqn:E';
      [|done].
    intros [= <- <-].
    destruct (IH _ _ _ E') as (k & Hk & Hdown & Hup & -> & ->).
    exists (S k). split; [lia|]. split; [|split].
    + intros j Hj. destruct (decide (j = requests)) as [->|]; [done|].
      apply Hdown. lia.
    + by replace (requests + S k) with (S requests + k) by lia.
    + done.
  - intros H. exists 0. split; [lia|]. split; [intros j Hj; lia|].
    rewrite Nat.add_0_r, E. split; [done|].
    destruct (status_code =? 200); simpl in H; by injection H as <- <-.
Qed.

Lemma candidate_request_counted (existing : gset string) im am
    (cms : list (@CommitmentData Amount)) :
  length (omap (candidate_request amount_str existing im am) cms)
  <= _count_valid_commitments cms im am.
Proof.
  induction cms as [|c rest IH]; [done|].
  cbn [omap list_omap _count_valid_commitments].
  destruct (candidate_request _ _ _ _ c) as [q|] eqn:Hq; [|fold (omap (candidate_request amount_str existing im am) rest); lia].
  apply candidate_request_sound in Hq as (Hi & Ha & _).
  rewrite !bool_decide_eq_true_2 by eauto. simpl.
  fold (omap (candidate_request amount_str existing im am) rest). lia.
Qed.

(** X8: whenever the commitment resolver returns, it asked for page 1 of the
    commitment list once per transport error plus once, never for another
    page, and the set of existing keys it filters with is empty: the
    payload is every row whose two names resolved to non-empty ids, which
    are at most the rows counted as valid, sent in a single bulk request, or
    no request at all when there is no such row. *)
Theorem commitment_snapshot_never_filters
    (fuel : nat) (client : CommitmentService)
    (commitments_ : list (@CommitmentData Amount))
    (investor_name_to_id asset_class_name_to_id : gmap string string)
    (n : nat) (t : list Call) :
  bulk_create_commitments amount_str fuel client commitments_
    investor_name_to_id asset_class_name_to_id = Some (n, t) ->
  ∃ k payload,
    k < fuel
    ∧ (∀ j, j < k -> cm_get_page client j 1 = TransportError)
    ∧ cm_get_page client k 1 ≠ TransportError
    ∧ payload
      = omap (candidate_request amount_str ∅ investor_name_to_id
                asset_class_name_to_id) commitments_
    ∧ length payload
      <= _count_valid_commitments commitments_ investor_name_to_id
           asset_class_name_to_id
    ∧ ((payload = [] ∧ n = 0 ∧ t = replicate (S k) (GetCommitments 1))
       ∨ (payload ≠ []
          ∧ t = replicate (S k) (GetCommitments 1)
                ++ [PostCommitmentsBulk payload])).
Proof.
  unfold bulk_create_commitments, _fetch_existing_commitments. intros H.
  apply bind_Some in H as (keys & t1 & t2 & Hfetch & Hrest & ->).
  apply fetch_commitment_pages_trace in Hfetch
    as (k & Hk & Hdown & Hup & -> & ->).
  exists k, (omap (candidate_request amount_str ∅ investor_name_to_id
                     asset_class_name_to_id) commitments_).
  split; [done|]. split; [intros j Hj; apply Hdown; lia|].
  split; [done|]. split; [done|].
  split; [apply candidate_request_counted|].
  destruct (omap _ commitments_) as [|q qs] eqn:Hbulk.
  - left. injection Hrest as <- <-. by rewrite app_nil_r.
  - right. split; [done|]. f_equal.
    rewrite call_bind in Hrest.
    destruct (cm_post_bulk client (q :: qs)) as [|status_code body].
    { by injection Hrest as <- <-. }
    destruct (status_code =? 200); [|by injection Hrest as <- <-].
    destruct body; by injection Hrest as <- <-.
Qed.

Lemma bulk_create_asset_classes_target client acs m (t : list (@Call Amount)) :
  (bulk_create_asset_classes client acs : Run _) = Some (m, t) ->
  Forall (fun c => call_target c = ToAssetClassService) t.
Proof.
  destruct acs as [|a rest] eqn:Hacs.
  { intros [= <- <-]. constructor. }
  rewrite <- Hacs. intros H.
  apply bulk_create_asset_classes_steps in H
    as (existing & created & tb & _ & Hbulk & _ & ->); [|by rewrite Hacs].
  constructor; [done|].
  apply bulk_create_asset_classes_inner_trace in Hbulk as [[_ ->]|[->| ->]].
  - constructor.
  - by repeat constructor.
  - constructor; [done|]. apply Forall_fmap, Forall_true. done.
Qed.

Lemma bulk_create_investors_target fuel client invs m (t : list (@Call Amount)) :
  (bulk_create_investors fuel client invs : Run _) = Some (m, t) ->
  Forall (fun c => call_target c = ToInvestorService) t.
Proof.
  destruct invs as [|a rest] eqn:Hinvs.
  { intros [= <- <-]. constructor. }
  rewrite <- Hinvs. intros H.
  apply bulk_create_investors_steps in H
    as (existing & created & tf & tb & Hfetch & Hbulk & _ & ->);
    [|by rewrite Hinvs].
  apply Forall_app. split.
  - apply fetch_existing_investors_trace in Hfetch.
    eapply Forall_impl; [exact Hfetch|]. by intros c [p ->].
  - apply bulk_create_investors_inner_trace in Hbulk as [[_ ->]|[->| ->]].
    + constructor.
    + by repeat constructor.
    + constructor; [done|]. apply Forall_fmap, Forall_true. done.
Qed.

Lemma bulk_create_commitments_target fuel client cms im am n
    (t : list (@Call Amount)) :
  bulk_create_commitments amount_str fuel client cms im am = Some (n, t) ->
  Forall (fun c => call_target c = ToCommitmentService) t.
Proof.
  unfold bulk_create_commitments, _fetch_existing_commitments. intros H.
  apply bind_Some in H as (keys & t1 & t2 & Hfetch & Hrest & ->).
  apply fetch_commitment_pages_trace in Hfetch as (k & _ & _ & _ & -> & _).
  apply Forall_app. split.
  { apply Forall_forall. by intros c [-> _]%elem_of_replicate. }
  destruct (omap _ cms) as [|q qs]; [injection Hrest as <- <-; constructor|].
  rewrite call_bind in Hrest.
  assert (t2 = [PostCommitmentsBulk (q :: qs)]) as ->; [|by repeat constructor].
  destruct (cm_post_bulk client (q :: qs)) as [|status_code body].
  { by injection Hrest as <- <-. }
  destruct (status_code =? 200); [|by injection Hrest as <- <-].
  destruct body; by injection Hrest as <- <-.
Qed.

Lemma size_keys_le (m : gmap string string) (names : list string) :
  (∀ k, is_Some (m !! k) -> k ∈ names) -> size m <= length names.
Proof.
  intros Hsub. rewrite <- size_dom.
  transitivity (size (list_to_set names : gset string)).
  - apply subseteq_size. intros k Hk%elem_of_dom.
    apply elem_of_list_to_set. by apply Hsub.
  - clear. induction names as [|a l IH]; [done|].
    simpl. rewrite size_union_alt, size_singleton.
    assert (list_to_set l ∖ {[a]} ⊆ (list_to_set l : gset string)) as Hs
      by (by intros x [Hx _]%elem_of_difference).
    apply subseteq_size in Hs. lia.
Qed.

Lemma bulk_create_asset_classes_keys client acs m (t : list (@Call Amount)) :
  (bulk_create_asset_classes client acs : Run _) = Some (m, t) ->
  ∀ k, is_Some (m !! k) -> k ∈ acs.*1.
Proof.
  destruct acs as [|a rest] eqn:Hacs.
  { intros [= <- <-] k Hk. rewrite lookup_empty in Hk. by destruct Hk. }
  rewrite <- Hacs. intros H k Hk.
  apply bulk_create_asset_classes_steps in H
    as (existing & created & tb & Hfetch & Hbulk & -> & ->); [|by rewrite Hacs].
  apply lookup_union_is_Some in Hk as [Hk|Hk].
  - eapply filter_names_subseteq.
    eapply bulk_create_asset_classes_inner_keys; eauto.
  - eapply fetch_existing_asset_classes_keys; eauto.
Qed.

Lemma bulk_create_investors_keys fuel client invs m (t : list (@Call Amount)) :
  (bulk_create_investors fuel client invs : Run _) = Some (m, t) ->
  ∀ k, is_Some (m !! k) -> k ∈ invs.*1.
Proof.
  destruct invs as [|a rest] eqn:Hinvs.
  { intros [= <- <-] k Hk. rewrite lookup_empty in Hk. by destruct Hk. }
  rewrite <- Hinvs. intros H k Hk.
  apply bulk_create_investors_steps in H
    as (existing & created & tf & tb & Hfetch & Hbulk & -> & ->);
    [|by rewrite Hinvs].
  apply lookup_union_is_Some in Hk as [Hk|Hk].
  - eapply filter_names_subseteq.
    eapply bulk_create_investors_inner_keys; eauto.
  - eapply fetch_existing_investors_keys; eauto.
Qed.

Lemma count_valid_commitments_le (cms : list (@CommitmentData Amount)) im am :
  _count_valid_commitments cms im am <= length cms.
Proof.
  induction cms as [|c rest IH]; [done|].
  cbn [_count_valid_commitments length]. destruct (_ && _); lia.
Qed.

Lemma parse_rows_lengths :
  ∀ todo invs acs cms invs' acs' (cms' : list (@CommitmentData Amount)),
    parse_rows amount_positive todo invs acs cms = inr (invs', acs', cms') ->
    length invs' <= length invs + length todo
    ∧ length acs' <= length acs + length todo
    ∧ length cms' <= length cms + length todo.
Proof.
  induction todo as [|row rest IH]; intros invs acs cms invs' acs' cms'.
  { intros [= <- <- <-]. simpl. lia. }
  cbn [parse_rows]. cbv zeta.
  destruct (cell_commitment_amount row) as [a|e]; [|done].
  intros H. apply IH in H as (H1 & H2 & H3).
  revert H1 H2 H3.
  repeat case_bool_decide; destruct (amount_positive a);
    rewrite ?length_app; simpl; lia.
Qed.

(** X9: the requests of a run come in three blocks, first those to the
    asset-class service, then those to the investor service, then those to
    the commitment service; a failed run sent nothing to the commitment
    service and reports 0 created commitments, and a run that failed on the
    asset classes sent nothing to the investor service either. *)
Theorem phases_run_in_order
    (fuel : nat) (self : DataProcessor) (df : DataFrame) (job : string)
    (result : JobResult) (t : list Call) :
  process_dataframe amount_str amount_positive fuel self df job
    = Some (result, t) ->
  ∃ t1 t2 t3,
    t = t1 ++ t2 ++ t3
    ∧ Forall (fun c => call_target c = ToAssetClassService) t1
    ∧ Forall (fun c => call_target c = ToInvestorService) t2
    ∧ Forall (fun c => call_target c = ToCommitmentService) t3
    ∧ (status result = failed -> t3 = [] ∧ commitments_created result = 0)
    ∧ (error result = Some "Failed to create asset classes" ->
       t2 = [] ∧ asset_classes_created result = 0)
    ∧ (error result = Some "Failed to create investors" ->
       investors_created result = 0).
Proof.
  unfold process_dataframe.
  destruct (validate_csv_structure df); simpl.
  2:{ intros [= <- <-]. exists [], [], []. by repeat split. }
  destruct (parse_csv_data amount_positive df)
    as [e|[[invs acs] cms]] eqn:Hparse.
  { intros [= <- <-]. exists [], [], []. by repeat split. }
  intros H. apply bind_Some in H as (am & t1 & u & Hac & H & ->).
  pose proof (bulk_create_asset_classes_target _ _ _ _ Hac) as Ht1.
  destruct (_ && _).
  { injection H as <- <-. exists t1, [], []. by repeat split. }
  apply bind_Some in H as (im & t2 & u' & Hinv & H & ->).
  pose proof (bulk_create_investors_target _ _ _ _ _ Hinv) as Ht2.
  destruct (_ && _).
  { injection H as <- <-. exists t1, t2, []. by repeat split. }
  destruct (_count_valid_commitments _ _ _ =? 0).
  { injection H as <- <-. exists t1, t2, []. by repeat split. }
  apply bind_Some in H as (n & t3 & u'' & Hcm & [= <- <-] & ->).
  pose proof (bulk_create_commitments_target _ _ _ _ _ _ _ Hcm) as Ht3.
  exists t1, t2, t3. rewrite app_nil_r. by repeat split.
Qed.

(** X10: a result reports the number of rows of the frame, and counts of asset
    classes and investors that are at most that number; when it carries a
    summary the run completed, the two counts are at most the numbers of
    unique names of the summary, at least one commitment had its
    dependencies resolved, and valid plus invalid dependencies add up to the
    commitment rows, which are at most the rows of the frame. *)
Theorem created_counts_are_bounded
    (fuel : nat) (self : DataProcessor) (df : DataFrame) (job : string)
    (result : JobResult) (t : list Call) :
  process_dataframe amount_str amount_positive fuel self df job
    = Some (result, t) ->
  total_rows_processed result = length (rows df)
  ∧ asset_classes_created result <= length (rows df)
  ∧ investors_created result <= length (rows df)
  ∧ ∀ s, summary result = Some s ->
      status result = completed
      ∧ asset_classes_created result <= unique_asset_classes_in_csv s
      ∧ investors_created result <= unique_investors_in_csv s
      ∧ 0 < dependencies_valid s
      ∧ dependencies_valid s + dependencies_invalid s
        = total_commitment_rows_in_csv s
      ∧ total_commitment_rows_in_csv s <= total_rows_processed result.
Proof.
  unfold process_dataframe.
  destruct (validate_csv_structure df); simpl.
  2:{ intros [= <- <-]. simpl. repeat split; try lia; done. }
  destruct (parse_csv_data amount_positive df)
    as [e|[[invs acs] cms]] eqn:Hparse.
  { intros [= <- <-]. simpl. repeat split; try lia; done. }
  unfold parse_csv_data in Hparse.
  apply parse_rows_lengths in Hparse as (Hl1 & Hl2 & Hl3). simpl in *.
  intros H. apply bind_Some in H as (am & t1 & u & Hac & H & ->).
  pose proof (size_keys_le _ _ (bulk_create_asset_classes_keys _ _ _ _ Hac))
    as Hs1. rewrite length_fmap in Hs1.
  destruct (_ && _).
  { injection H as <- <-. simpl. repeat split; try lia; done. }
  apply bind_Some in H as (im & t2 & u' & Hinv & H & ->).
  pose proof (size_keys_le _ _ (bulk_create_investors_keys _ _ _ _ _ Hinv))
    as Hs2. rewrite length_fmap in Hs2.
  destruct (_ && _).
  { injection H as <- <-. simpl. repeat split; try lia; done. }
  pose proof (count_valid_commitments_le cms im am) as Hc.
  destruct (_count_valid_commitments _ _ _ =? 0) eqn:Hz.
  { injection H as <- <-. simpl. repeat split; try lia; done. }
  apply Nat.eqb_neq in Hz.
  apply bind_Some in H as (n & t3 & u'' & Hcm & [= <- <-] & ->).
  simpl. repeat split; try lia. all: injection H as <-; simpl; lia.
Qed.


End Facts.

(** ** The runs *)

(** The frame of five rows that name "PE". *)
Lemma parsed_entities_are_consistent_witness :
  NoDup five_investors.*1
  ∧ NoDup [asset_class "PE"].*1
  ∧ Forall (fun nd => inv_name nd.2 = nd.1) five_investors
  ∧ Forall (fun nd => ac_name nd.2 = nd.1) [asset_class "PE"]
  ∧ Forall (fun c => investor_name c ∈ five_investors.*1
                     ∧ asset_class_name c ∈ [asset_class "PE"].*1
                     ∧ whole_positive (amount c) = true) five_commitments.
Proof.
  apply (parsed_entities_are_consistent whole_positive frame_with_valid_rows).
  vm_compute. reflexivity.
Defined.


Lemma missing_column_aborts_before_any_call_witness :
  process_dataframe whole_str whole_positive 1 processor
    frame_without_currency "job-1"
  = Some (_error_result "job-1" 0 "Invalid CSV structure" 0 0 0, []).
Proof.
  apply (missing_column_aborts_before_any_call whole_str whole_positive 1
           processor frame_without_currency "job-1" "Commitment Currency").
  - vm_compute. repeat constructor.
  - intros Hin. vm_compute in Hin. by repeat (apply elem_of_cons in Hin as [Hin|Hin]; [discriminate|]); apply elem_of_nil in Hin.
Defined.

(** "PE" is known, "Infra" is not and cannot be created. *)
Lemma known_asset_classes_are_not_created_witness :
  ∃ name_to_id t,
    @bulk_create_asset_classes Z asset_classes_pe_only two_asset_classes
      = Some (name_to_id, t)
    ∧ ∃ existing,
        @_fetch_existing_asset_classes Z asset_classes_pe_only
          two_asset_classes.*1
          = Some (existing, [GetAssetClasses])
        ∧ (∀ name id, existing !! name = Some id ->
             name_to_id !! name = Some id)
        ∧ (∀ data, data ∈ asset_classes_sent t ->
             ∃ name, (name, data) ∈ two_asset_classes
                     ∧ existing !! name = None)
        ∧ ((∀ name, name ∈ two_asset_classes.*1 ->
              is_Some (existing !! name)) ->
           t = [GetAssetClasses] ∧ name_to_id = existing).
Proof.
  eexists _, _. split; [vm_compute; reflexivity|].
  apply (known_asset_classes_are_not_created asset_classes_pe_only
           two_asset_classes).
  - done.
  - vm_compute. reflexivity.
Defined.

(** Three of five investors are known; the creates of the others fail. *)
Lemma known_investors_are_not_created_witness :
  ∃ name_to_id t,
    @bulk_create_investors Z 1 investors_three_known five_investors
      = Some (name_to_id, t)
    ∧ ∃ existing tf,
        @_fetch_existing_investors Z 1 investors_three_known five_investors.*1
          = Some (existing, tf)
        ∧ (∀ name id, existing !! name = Some id ->
             name_to_id !! name = Some id)
        ∧ (∀ data, data ∈ investors_sent t ->
             ∃ name, (name, data) ∈ five_investors ∧ existing !! name = None)
        ∧ ((∀ name, name ∈ five_investors.*1 -> is_Some (existing !! name)) ->
           t = tf ∧ name_to_id = existing).
Proof.
  eexists _, _. split; [vm_compute; reflexivity|].
  apply (known_investors_are_not_created 1 investors_three_known
           five_investors).
  - done.
  - vm_compute. reflexivity.
Defined.

(** The second element of the bulk answer is no object. *)
Lemma malformed_bulk_element_discards_the_answer_witness :
  ∃ name_to_id,
    @_bulk_create_asset_classes Z asset_classes_malformed_answer
      two_asset_classes
      = Some (name_to_id,
              PostAssetClassesBulk two_asset_classes.*2
                :: (PostAssetClass <$> two_asset_classes.*2))
    ∧ ∀ name id,
        name_to_id !! name = Some id
        ↔ ∃ data, (name, data) ∈ two_asset_classes
                  ∧ asset_class_created asset_classes_malformed_answer data id.
Proof.
  apply (malformed_bulk_element_discards_the_answer
           asset_classes_malformed_answer two_asset_classes
           [ItemObject (Some "ac-1"); ItemNotObject] 1).
  - compute_done.
  - reflexivity.
  - reflexivity.
  - simpl. lia.
Defined.

(** The commitment service lists the persisted record on its page 1. *)
Lemma commitment_snapshot_never_filters_witness :
  ∃ n t,
    bulk_create_commitments whole_str 1 (commitments_holding [persisted])
      [resubmitted] {[ "Alpha" := "inv-a" ]} {[ "PE" := "ac-pe" ]}
      = Some (n, t)
    ∧ ∃ k payload,
        k < 1
        ∧ (∀ j, j < k ->
             cm_get_page (commitments_holding [persisted]) j 1
             = TransportError)
        ∧ cm_get_page (commitments_holding [persisted]) k 1 ≠ TransportError
        ∧ payload
          = omap (candidate_request whole_str ∅ {[ "Alpha" := "inv-a" ]}
                    {[ "PE" := "ac-pe" ]}) [resubmitted]
        ∧ length payload
          <= _count_valid_commitments [resubmitted] {[ "Alpha" := "inv-a" ]}
               {[ "PE" := "ac-pe" ]}
        ∧ ((payload = [] ∧ n = 0 ∧ t = replicate (S k) (GetCommitments 1))
           ∨ (payload ≠ []
              ∧ t = replicate (S k) (GetCommitments 1)
                    ++ [PostCommitmentsBulk payload])).
Proof.
  eexists _, _. split; [vm_compute; reflexivity|].
  apply (commitment_snapshot_never_filters whole_str 1
           (commitments_holding [persisted]) [resubmitted]).
  vm_compute. reflexivity.
Defined.

(** The run of the five rows that name "PE". *)
Lemma phases_run_in_order_witness :
  ∃ result t,
    process_dataframe whole_str whole_positive 1 processor
      frame_with_valid_rows "job-1" = Some (result, t)
    ∧ ∃ t1 t2 t3,
        t = t1 ++ t2 ++ t3
        ∧ Forall (fun c => call_target c = ToAssetClassService) t1
        ∧ Forall (fun c => call_target c = ToInvestorService) t2
        ∧ Forall (fun c => call_target c = ToCommitmentService) t3
        ∧ (status result = failed ->
           t3 = [] ∧ commitments_created result = 0)
        ∧ (error result = Some "Failed to create asset classes" ->
           t2 = [] ∧ asset_classes_created result = 0)
        ∧ (error result = Some "Failed to create investors" ->
           investors_created result = 0).
Proof.
  eexists _, _. split; [vm_compute; reflexivity|].
  apply (phases_run_in_order whole_str whole_positive 1 processor
           frame_with_valid_rows "job-1").
  vm_compute. reflexivity.
Defined.

(** The run of the five rows again: three investors resolve. *)
Lemma created_counts_are_bounded_witness :
  ∃ result t,
    process_dataframe whole_str whole_positive 1 processor
      frame_with_valid_rows "job-2" = Some (result, t)
    ∧ total_rows_processed result = length (rows frame_with_valid_rows)
    ∧ asset_classes_created result <= length (rows frame_with_valid_rows)
    ∧ investors_created result <= length (rows frame_with_valid_rows)
    ∧ ∀ s, summary result = Some s ->
        status result = completed
        ∧ asset_classes_created result <= unique_asset_classes_in_csv s
        ∧ investors_created result <= unique_investors_in_csv s
        ∧ 0 < dependencies_valid s
        ∧ dependencies_valid s + dependencies_invalid s
          = total_commitment_rows_in_csv s
        ∧ total_commitment_rows_in_csv s <= total_rows_processed result.
Proof.
  eexists _, _. split; [vm_compute; reflexivity|].
  eapply (created_counts_are_bounded whole_str whole_positive 1 processor
            frame_with_valid_rows "job-2").
  vm_compute. reflexivity.
Defined.

End IngestionExtraProps.

Module IngestionKeyProps.
Import Ingestion IngestionSpec IngestionExtraSpec.

Lemma append_nil (r : string) : "" +:+ r = r.
Proof. reflexivity. Qed.

Lemma append_cons (c : Ascii.ascii) (s r : string) :
  String c s +:+ r = String c (s +:+ r).
Proof. reflexivity. Qed.

Lemma colon_free_prefix s : ∀ s' r r',
  colon_free s = true -> colon_free s' = true ->
  s +:+ ":" +:+ r = s' +:+ ":" +:+ r' -> s = s' ∧ r = r'.
Proof.
  induction s as [|c s IH]; intros [|c' s'] r r' Hs Hs' H;
    repeat (rewrite append_nil in H || rewrite append_cons in H);
    cbn [colon_free] in *.
  - by injection H as ->.
  - injection H as <- _. done.
  - injection H as -> _. done.
  - injection H as -> H.
    apply andb_true_iff in Hs as [_ Hs].
    apply andb_true_iff in Hs' as [_ Hs'].
    destruct (IH _ _ _ Hs Hs' H) as [-> ->]. done.
Qed.

Section WithAmount.
Context {Amount : Type}.
Variable amount_str : Amount -> string.

(** X11: two commitments with the same dedup key have the same investor id,
    asset-class id, printed amount and currency, provided the ids and the
    printed amounts hold no colon. *)
Theorem dedup_key_separates_commitments
    (investor_id asset_class_id cur investor_id' asset_class_id' cur' : string)
    (a a' : Amount) :
  colon_free investor_id = true -> colon_free investor_id' = true ->
  colon_free asset_class_id = true -> colon_free asset_class_id' = true ->
  colon_free (amount_str a) = true -> colon_free (amount_str a') = true ->
  unique_commitment_key amount_str investor_id asset_class_id a cur
    = unique_commitment_key amount_str investor_id' asset_class_id' a' cur' ->
  investor_id = investor_id' ∧ asset_class_id = asset_class_id'
  ∧ amount_str a = amount_str a' ∧ cur = cur'.
Proof.
  intros H1 H1' H2 H2' H3 H3'. unfold unique_commitment_key. intros H.
  apply colon_free_prefix in H as [-> H]; [|done..].
  apply colon_free_prefix in H as [-> H]; [|done..].
  apply colon_free_prefix in H as [-> H]; [|done..].
  done.
Qed.

End WithAmount.

(** Two rows for the same investor, asset class, amount and currency. *)
Lemma dedup_key_separates_commitments_witness :
  "inv-a" = "inv-a" ∧ "ac-pe" = "ac-pe"
  ∧ whole_str 100 = whole_str 100 ∧ "USD" = "USD".
Proof.
  apply (dedup_key_separates_commitments whole_str "inv-a" "ac-pe" "USD"
           "inv-a" "ac-pe" "USD" 100%Z 100%Z); reflexivity.
Defined.

End IngestionKeyProps.

Module IngestionStartupProps.
Import Ingestion IngestionStartup IngestionStartupSpec.

Lemma poll_services_spec health attempt :
  ∀ todo all_ready,
    poll_services health attempt todo all_ready
    = (all_ready && forallb (fun s => ready (health attempt s)) todo,
       GetHealth <$> todo).
Proof.
  induction todo as [|s rest IH]; intros b; simpl.
  - by rewrite andb_true_r.
  - rewrite IH. f_equal.
    destruct (health attempt s) as [|status_code body]; simpl.
    + by rewrite andb_false_r.
    + destruct (status_code =? 200); simpl; [done|].
      by rewrite andb_false_r.
Qed.

Lemma attempts_unfold health max_retries attempt remaining :
  attempts health max_retries attempt (S remaining)
  = if all_ready_at health attempt then (Ready, round)
    else
      let '(outcome, later) :=
        attempts health max_retries (S attempt) remaining in
      (outcome,
       round ++ (if attempt <? max_retries - 1 then [Sleep] else [])
         ++ later).
Proof.
  cbn [attempts]. rewrite poll_services_spec.
  change (true && ?b) with b.
  change (forallb _ services) with (all_ready_at health attempt).
  by destruct (all_ready_at health attempt).
Qed.

Lemma attempts_ready health max_retries :
  ∀ k attempt remaining,
    attempt + k < max_retries ->
    k < remaining ->
    (∀ j, attempt <= j < attempt + k -> all_ready_at health j = false) ->
    all_ready_at health (attempt + k) = true ->
    attempts health max_retries attempt remaining
    = (Ready, concat (replicate k (round ++ [Sleep])) ++ round).
Proof.
  induction k as [|k IH]; intros attempt remaining Hmax Hrem Hdown Hup;
    (destruct remaining as [|remaining]; [lia|]); rewrite attempts_unfold.
  - rewrite Nat.add_0_r in Hup. by rewrite Hup.
  - rewrite Hdown by lia.
    rewrite (IH (S attempt) remaining); [|lia|lia| |].
    + replace (attempt <? max_retries - 1) with true
        by (symmetry; apply Nat.ltb_lt; lia).
      cbn [replicate concat]. by rewrite <- !app_assoc.
    + intros j Hj. apply Hdown. lia.
    + by replace (S attempt + k) with (attempt + S k) by lia.
Qed.

Lemma attempts_exhausted health max_retries :
  ∀ remaining attempt,
    attempt + remaining = max_retries ->
    (∀ j, attempt <= j < max_retries -> all_ready_at health j = false) ->
    attempts health max_retries attempt remaining
    = (NotReady max_retries,
       match remaining with
       | 0 => []
       | S r => concat (replicate r (round ++ [Sleep])) ++ round
       end).
Proof.
  induction remaining as [|remaining IH]; intros attempt Hsum Hdown; [done|].
  rewrite attempts_unfold, Hdown by lia.
  rewrite (IH (S attempt)); [|lia|intros j Hj; apply Hdown; lia].
  destruct remaining as [|r].
  - replace (attempt <? max_retries - 1) with false
      by (symmetry; apply Nat.ltb_ge; lia).
    by rewrite !app_nil_r.
  - replace (attempt <? max_retries - 1) with true
      by (symmetry; apply Nat.ltb_lt; lia).
    cbn [replicate concat]. by rewrite <- !app_assoc.
Qed.

(** X12: when attempt k (below max_retries) is the first at which all three
    services answer 200, wait_for_services returns after k + 1 rounds of
    three health requests, each service asked in every round, with one sleep
    after each of the k rounds that were not ready. *)
Theorem wait_for_services_returns_at_first_ready_attempt
    (health : nat -> Service -> Http unit) (max_retries k : nat) :
  k < max_retries ->
  (∀ j, j < k -> all_ready_at health j = false) ->
  all_ready_at health k = true ->
  wait_for_services health max_retries
  = (Ready, concat (replicate k (round ++ [Sleep])) ++ round).
Proof.
  intros Hk Hdown Hup. unfold wait_for_services.
  apply attempts_ready; [lia|lia| |done].
  intros j Hj. apply Hdown. lia.
Qed.

(** X13: when no attempt finds all three services ready, wait_for_services
    raises after max_retries rounds of health requests, having slept between
    the rounds and not after the last one; with max_retries 0 it raises at
    once. *)
Theorem wait_for_services_gives_up_without_a_last_sleep
    (health : nat -> Service -> Http unit) (max_retries : nat) :
  (∀ j, j < max_retries -> all_ready_at health j = false) ->
  wait_for_services health max_retries
  = (NotReady max_retries,
     match max_retries with
     | 0 => []
     | S r => concat (replicate r (round ++ [Sleep])) ++ round
     end).
Proof.
  intros Hdown. unfold wait_for_services.
  apply attempts_exhausted; [lia|]. intros j Hj. apply Hdown. lia.
Qed.


(** The commitment service is up from the third attempt on. *)
Lemma wait_for_services_returns_at_first_ready_attempt_witness :
  wait_for_services (commitment_service_up_at 2) 30
  = (Ready, concat (replicate 2 (round ++ [Sleep])) ++ round).
Proof.
  apply (wait_for_services_returns_at_first_ready_attempt
           (commitment_service_up_at 2) 30 2).
  - lia.
  - intros j Hj. destruct j as [|[|j]]; [reflexivity|reflexivity|lia].
  - reflexivity.
Defined.

(** Three attempts, and the commitment service is up at the sixth only. *)
Lemma wait_for_services_gives_up_without_a_last_sleep_witness :
  wait_for_services (commitment_service_up_at 5) 3
  = (NotReady 3, concat (replicate 2 (round ++ [Sleep])) ++ round).
Proof.
  apply (wait_for_services_gives_up_without_a_last_sleep
           (commitment_service_up_at 5) 3).
  intros j Hj. destruct j as [|[|[|j]]]; [reflexivity..|lia].
Defined.

End IngestionStartupProps.

(* ===================================================================== *)
(** * Further properties of the commitment service *)
(* ===================================================================== *)

Module CommitmentQueriesProps.
Import CommitmentService CommitmentSpec CommitmentQueries CommitmentQueriesSpec.

Lemma total_pages_bounds (skip size_ total_ : nat) :
  1 <= size_ ->
  total_ <= total_pages (__get_pagination_info skip size_ total_) * size_
  ∧ total_pages (__get_pagination_info skip size_ total_) * size_
    < total_ + size_.
Proof.
  intros Hsize. unfold __get_pagination_info. simpl.
  pose proof (Nat.div_mod_eq (total_ + size_ - 1) size_) as Hdiv.
  pose proof (Nat.mod_upper_bound (total_ + size_ - 1) size_) as Hmod.
  nia.
Qed.

(** X14: for a page and a size of at least 1, the pagination of the list
    route reports that page and size, a number of pages that is the least
    one holding all rows, a previous page exactly from page 2 on, and a next
    page exactly when the page is below the number of pages. *)
Theorem pagination_is_consistent (page_ size_ total_ : nat)
    (info : PaginationInfo) :
  1 <= page_ -> 1 <= size_ ->
  info = __get_pagination_info ((page_ - 1) * size_) size_ total_ ->
  page info = page_
  ∧ size info = size_
  ∧ total_ <= total_pages info * size_
  ∧ total_pages info * size_ < total_ + size_
  ∧ (has_prev info = true ↔ 1 < page_)
  ∧ (has_next info = true ↔ page_ < total_pages info).
Proof.
  intros Hpage Hsize ->. unfold __get_pagination_info. simpl.
  pose proof (Nat.div_mod_eq (total_ + size_ - 1) size_) as Hdiv.
  pose proof (Nat.mod_upper_bound (total_ + size_ - 1) size_) as Hmod.
  set (q := (total_ + size_ - 1) / size_) in *.
  set (r := (total_ + size_ - 1) mod size_) in *.
  split; [rewrite Nat.div_mul by lia; lia|].
  split; [done|].
  split; [nia|]. split; [nia|]. split.
  - rewrite Nat.ltb_lt. nia.
  - rewrite Nat.ltb_lt. nia.
Qed.

Lemma where_holds_listed inv ac cur r :
  where_holds
    (__build_where_clause
       [("investor_id", inv); ("asset_class_id", or_none ac);
        ("currency", or_none cur)]) r
  = listed inv ac cur r.
Proof.
  unfold listed, keeps, where_holds.
  destruct inv as [i|], (or_none ac) as [a|], (or_none cur) as [c|];
    cbn; repeat case_bool_decide; simplify_eq/=; done.
Qed.

Lemma filter_bool_ext {A : Type} (f g : A -> bool) (l : list A) :
  (∀ x, f x = g x) ->
  filter (fun x => f x = true) l = filter (fun x => g x = true) l.
Proof.
  intros Hfg. induction l as [|x l IH]; [done|].
  rewrite !filter_cons, IH, (Hfg x). done.
Qed.

Section WithOrder.
Variable order_by : string -> string -> list CommitmentResponse ->
                    list CommitmentResponse.

Lemma get_commitments_runs skip limit inv ac cur sort_by sort_order w :
  get_commitments order_by false skip limit inv ac cur sort_by sort_order w
  = (Returned
       {| commitments :=
            take limit
              (drop skip
                 (order_by (sort_column sort_by) (sort_direction sort_order)
                    (listed_rows inv ac cur w)));
          total := length (listed_rows inv ac cur w);
          total_amount :=
            foldr Z.add 0%Z (amount <$> listed_rows inv None cur w);
          pagination :=
            __get_pagination_info skip limit
              (length (listed_rows inv ac cur w)) |},
     w).
Proof.
  unfold get_commitments, try_except, select_where, mbind, P_bind, mret,
    P_ret, listed_rows, table, sort_column, sort_direction.
  cbv zeta. cbn match.
  rewrite (filter_bool_ext
             (where_holds
                (__build_where_clause
                   [("investor_id", inv); ("asset_class_id", or_none ac);
                    ("currency", or_none cur)]))
             (listed inv ac cur)) by apply where_holds_listed.
  rewrite (filter_bool_ext
             (where_holds
                (__build_where_clause
                   [("investor_id", inv); ("asset_class_id", None);
                    ("currency", or_none cur)]))
             (listed inv None cur)) by apply (where_holds_listed inv None).
  reflexivity.
Qed.

End WithOrder.

(** Page 2 of 25 rows in pages of 10. *)
Lemma pagination_is_consistent_witness :
  page (__get_pagination_info 10 10 25) = 2
  ∧ size (__get_pagination_info 10 10 25) = 10
  ∧ 25 <= total_pages (__get_pagination_info 10 10 25) * 10
  ∧ total_pages (__get_pagination_info 10 10 25) * 10 < 25 + 10
  ∧ (has_prev (__get_pagination_info 10 10 25) = true ↔ 1 < 2)
  ∧ (has_next (__get_pagination_info 10 10 25) = true
     ↔ 2 < total_pages (__get_pagination_info 10 10 25)).
Proof.
  apply (pagination_is_consistent 2 10 25 (__get_pagination_info 10 10 25)).
  - lia.
  - lia.
  - reflexivity.
Defined.

End CommitmentQueriesProps.

Module CommitmentExtraProps.
Import CommitmentService CommitmentSpec CommitmentExtraSpec CommitmentProps.

Lemma publish_delivers self created w :
  delivers self ->
  publish_commitment_created self created w
  = (Returned tt,
     {| committed := committed w; pending := pending w;
        channel := channel w ++ [event_of created];
        log := log w
               ++ [(INFO, "Published commitment_created event for investor");
                   (INFO, "Stopped publishing events")] |}).
Proof.
  intros (connection & Hc & Hnone).
  unfold publish_commitment_created, try_finally, try_except.
  rewrite Hc, Hnone. unfold mbind, P_bind, redis_publish, logger, event_of.
  cbn [committed pending channel log]. by rewrite <- app_assoc.
Qed.









(** X17: when the INSERT raises, the single create returns None and the bulk
    create returns the empty list; the committed rows and the channel are as
    before, and the rollback leaves no row pending. *)
Theorem failed_insert_leaves_no_row_and_no_event
    (self : CommitmentRepository) (commitment_data : CommitmentCreate)
    (commitments : list CommitmentCreate) (w : World) :
  insert_raises self = true ->
  commitments ≠ [] ->
  (∃ w',
     create_commitment self commitment_data w = (Returned None, w')
     ∧ committed w' = committed w ∧ pending w' = []
     ∧ channel w' = channel w)
  ∧ (∃ w',
       bulk_create_commitments self commitments w = (Returned [], w')
       ∧ committed w' = committed w ∧ pending w' = []
       ∧ channel w' = channel w).
Proof.
  intros Hins Hne. split.
  - unfold create_commitment, try_except.
    unfold mbind at 1, P_bind at 1. cbn [logger].
    unfold mbind at 1, P_bind at 1. unfold execute_insert at 1. rewrite Hins.
    cbn. eexists. by repeat split.
  - destruct commitments as [|c rest]; [done|].
    unfold bulk_create_commitments, try_except.
    unfold mbind at 1, P_bind at 1. cbn [logger].
    unfold mbind at 1, P_bind at 1. unfold execute_insert at 1. rewrite Hins.
    cbn. eexists. by repeat split.
Qed.

(** X19: after a single create whose INSERT did not raise, the row is
    committed and get_commitment_by_id returns it, whether the call returned
    the row or None; with a connected publisher the call returns the row and
    appends exactly its event to the channel. *)
Theorem created_row_is_stored_whatever_the_publish_does
    (self : CommitmentRepository) (commitment_data : CommitmentCreate)
    (w : World) :
  insert_raises self = false ->
  fresh_ids self 1 w ->
  ∃ answer w',
    create_commitment self commitment_data w = (Returned answer, w')
    ∧ get_commitment_by_id (uuid4 self 0) w'
      = (Returned
           (Some (prepare_commitment_for_db (uuid4 self 0) commitment_data)),
         w')
    ∧ pending w' = []
    ∧ (answer = None ∨
       answer
       = Some (prepare_commitment_for_db (uuid4 self 0) commitment_data))
    ∧ (delivers (event_publisher self) ->
       answer
       = Some (prepare_commitment_for_db (uuid4 self 0) commitment_data)
       ∧ channel w'
         = channel w
           ++ [event_of
                 (prepare_commitment_for_db (uuid4 self 0) commitment_data)]).
Proof.
  intros Hins Hfresh. specialize (Hfresh 0 (Nat.lt_0_1)).
  rewrite (create_runs_to_publish self commitment_data w Hins Hfresh).
  cbv zeta.
  set (doc := prepare_commitment_for_db (uuid4 self 0) commitment_data).
  set (w1 := {| committed := committed w ++ pending w ++ [doc];
                pending := []; channel := channel w; log := _ |}).
  assert (∀ w2, committed w2 = committed w1 -> pending w2 = [] ->
            get_commitment_by_id (uuid4 self 0) w2 = (Returned (Some doc), w2))
    as Hget.
  { intros w2 Hc Hp. unfold get_commitment_by_id, mbind, P_bind, select_where.
    rewrite Hc, Hp, app_nil_r. subst w1. cbn [committed].
    rewrite app_assoc.
    change (uuid4 self 0) with (id doc).
    by rewrite (select_fresh_row _ doc Hfresh). }
  pose proof (publish_keeps_table (event_publisher self) doc w1) as [Hc Hp].
  destruct (publish_commitment_created (event_publisher self) doc w1)
    as [[[]|e] w2] eqn:Hpub; cbn [snd] in Hc, Hp.
  - exists (Some doc), w2. split; [done|]. split; [by apply Hget|].
    split; [done|]. split; [by right|]. intros Hd. split; [done|].
    rewrite (publish_delivers _ _ _ Hd) in Hpub. by injection Hpub as <-.
  - eexists None, _. split; [done|]. split; [by apply Hget|].
    split; [done|]. split; [by left|]. intros Hd.
    by rewrite (publish_delivers _ _ _ Hd) in Hpub.
Qed.


(** ** The runs *)


Lemma failed_insert_leaves_no_row_and_no_event_witness :
  (∃ w',
     create_commitment repository_insert_fails (commitment_of "inv-1" 10000)
       world_with_pending = (Returned None, w')
     ∧ committed w' = committed world_with_pending ∧ pending w' = []
     ∧ channel w' = channel world_with_pending)
  ∧ (∃ w',
       bulk_create_commitments repository_insert_fails
         [commitment_of "inv-1" 10000; commitment_of "inv-2" 25000]
         world_with_pending = (Returned [], w')
       ∧ committed w' = committed world_with_pending ∧ pending w' = []
       ∧ channel w' = channel world_with_pending).
Proof.
  apply (failed_insert_leaves_no_row_and_no_event repository_insert_fails
           (commitment_of "inv-1" 10000)
           [commitment_of "inv-1" 10000; commitment_of "inv-2" 25000]
           world_with_pending).
  - reflexivity.
  - done.
Defined.

(** The publisher never connected: the call returns [None]. *)
Lemma created_row_is_stored_whatever_the_publish_does_witness :
  ∃ answer w',
    create_commitment repository_without_redis one_commitment empty_world
      = (Returned answer, w')
    ∧ get_commitment_by_id (uuid4 repository_without_redis 0) w'
      = (Returned
           (Some (prepare_commitment_for_db (uuid4 repository_without_redis 0)
                    one_commitment)),
         w')
    ∧ pending w' = []
    ∧ (answer = None ∨
       answer
       = Some (prepare_commitment_for_db (uuid4 repository_without_redis 0)
                 one_commitment))
    ∧ (delivers (event_publisher repository_without_redis) ->
       answer
       = Some (prepare_commitment_for_db (uuid4 repository_without_redis 0)
                 one_commitment)
       ∧ channel w'
         = channel empty_world
           ++ [event_of
                 (prepare_commitment_for_db
                    (uuid4 repository_without_redis 0) one_commitment)]).
Proof.
  apply (created_row_is_stored_whatever_the_publish_does
           repository_without_redis one_commitment empty_world).
  - reflexivity.
  - intros i Hi. constructor.
Defined.

End CommitmentExtraProps.

Module CommitmentListProps.
Import CommitmentService CommitmentSpec CommitmentQueries CommitmentQueriesSpec
  CommitmentQueriesProps.

Lemma concat_pages {A : Type} (size_ : nat) (l : list A) :
  ∀ n,
    concat ((fun p => take size_ (drop ((p - 1) * size_) l)) <$> seq 1 n)
    = take (n * size_) l.
Proof.
  induction n as [|n IH]; [done|].
  rewrite seq_S, fmap_app, concat_app, IH. cbn [fmap list_fmap concat].
  rewrite app_nil_r. replace (1 + n - 1) with n by lia.
  rewrite take_take_drop. f_equal. lia.
Qed.

Section WithOrder.
Variable order_by : string -> string -> list CommitmentResponse ->
                    list CommitmentResponse.


Lemma list_commitments_runs page_ size_ inv ac cur sort_by sort_order w :
  1 <= page_ -> 1 <= size_ <= 100 ->
  sort_order = "asc" ∨ sort_order = "desc" ->
  page_served order_by w size_ inv ac cur sort_by sort_order page_
  = take size_
      (drop ((page_ - 1) * size_)
         (order_by (sort_column sort_by) (sort_direction sort_order)
            (listed_rows inv ac cur w))).
Proof.
  intros Hpage [Hs1 Hs2] Horder.
  unfold page_served, list_commitments.
  replace (1 <=? page_) with true by (symmetry; by apply Nat.leb_le).
  replace (1 <=? size_) with true by (symmetry; by apply Nat.leb_le).
  replace (size_ <=? 100) with true by (symmetry; by apply Nat.leb_le).
  replace (String.eqb sort_order "asc" || String.eqb sort_order "desc")
    with true by (by destruct Horder as [-> | ->]).
  cbn [andb negb].
  unfold mbind at 1, P_bind at 1. cbn [logger].
  unfold mbind at 1, P_bind at 1. rewrite get_commitments_runs.
  reflexivity.
Qed.

(** X16: with parameters the route accepts and an ORDER BY that permutes the
    rows, the pages 1 to total_pages of the list route, read from the same
    table, put end to end are the filtered rows in the requested order, each
    row once, and every page after them is empty. *)
Theorem pages_cover_the_listed_rows
    (size_ pages : nat) (investor_id_ asset_class_id_ currency_ : option string)
    (sort_by sort_order : string) (w : World) :
  1 <= size_ <= 100 ->
  sort_order = "asc" ∨ sort_order = "desc" ->
  (∀ column direction rows, order_by column direction rows ≡ₚ rows) ->
  pages
  = total_pages
      (__get_pagination_info 0 size_
         (length (listed_rows investor_id_ asset_class_id_ currency_ w))) ->
  concat (page_served order_by w size_ investor_id_ asset_class_id_
            currency_ sort_by sort_order <$> seq 1 pages)
  = order_by (sort_column sort_by) (sort_direction sort_order)
      (listed_rows investor_id_ asset_class_id_ currency_ w)
  ∧ concat (page_served order_by w size_ investor_id_ asset_class_id_
              currency_ sort_by sort_order <$> seq 1 pages)
    ≡ₚ listed_rows investor_id_ asset_class_id_ currency_ w
  ∧ ∀ page_, pages < page_ ->
      page_served order_by w size_ investor_id_ asset_class_id_ currency_
        sort_by sort_order page_ = [].
Proof.
  intros Hsize Horder Hperm Hpages.
  set (rows := listed_rows investor_id_ asset_class_id_ currency_ w) in *.
  pose proof (Permutation_length
                (Hperm (sort_column sort_by) (sort_direction sort_order) rows))
    as Hlen.
  destruct (total_pages_bounds 0 size_ (length rows) (proj1 Hsize))
    as [Hge Hlt].
  rewrite <- Hpages in Hge, Hlt.
  assert (concat (page_served order_by w size_ investor_id_ asset_class_id_
            currency_ sort_by sort_order <$> seq 1 pages)
          = order_by (sort_column sort_by) (sort_direction sort_order) rows)
    as Hcat.
  { rewrite <- (take_ge (order_by _ _ rows) (pages * size_)) by lia.
    rewrite <- concat_pages. f_equal. apply list_fmap_ext.
    intros i p Hp. apply lookup_seq in Hp as [-> _].
    apply list_commitments_runs; [lia|done|done]. }
  split; [done|]. split; [rewrite Hcat; apply Hperm|].
  intros page_ Hp. rewrite list_commitments_runs by (done || lia).
  fold rows. rewrite drop_ge; [by rewrite take_nil|]. nia.
Qed.

End WithOrder.

(** Four of the five rows are of investor inv-1: two pages of two. *)
Lemma pages_cover_the_listed_rows_witness :
  concat (page_served by_insertion five_rows 2 (Some "inv-1") None None
            "id" "asc" <$> seq 1 2)
  = by_insertion (sort_column "id") (sort_direction "asc")
      (listed_rows (Some "inv-1") None None five_rows)
  ∧ concat (page_served by_insertion five_rows 2 (Some "inv-1") None None
              "id" "asc" <$> seq 1 2)
    ≡ₚ listed_rows (Some "inv-1") None None five_rows
  ∧ ∀ page_, 2 < page_ ->
      page_served by_insertion five_rows 2 (Some "inv-1") None None
        "id" "asc" page_ = [].
Proof.
  apply (pages_cover_the_listed_rows by_insertion 2 2 (Some "inv-1") None
           None "id" "asc" five_rows).
  - lia.
  - by left.
  - intros column direction rows. unfold by_insertion.
    destruct (String.eqb direction "DESC"); [apply reverse_Permutation|done].
  - vm_compute. reflexivity.
Defined.

End CommitmentListProps.

Module PipelineProps.
Import CommitmentService CommitmentSpec CommitmentExtraSpec CommitmentExtraProps.
Import InvestorService InvestorSpec InvestorProps.




End PipelineProps.

(* ===================================================================== *)
(** * Further properties of the investor service *)
(* ===================================================================== *)

Module InvestorExtraProps.
Import InvestorService InvestorSpec InvestorQueries InvestorExtraSpec.

Lemma grown_refl doc : grown doc doc.
Proof. by repeat split. Qed.

Lemma grown_trans a b c : grown a b -> grown b c -> grown a c.
Proof.
  intros (H1 & H2 & H3) (H4 & H5 & H6). repeat split; [congruence..|lia].
Qed.

(** What one message does to the collection: nothing, or one more
    commitment on the investor the event names. *)
Lemma handle_message_cases message (collection final : Collection) r :
  _handle_message message collection = (final, r) ->
  final = collection
  ∨ ∃ event_data x a investor,
      message = JsonObject event_data
      ∧ event_type event_data = Some "commitment_created"
      ∧ investor_id event_data = Some x
      ∧ amount event_data = AmountNumber a
      ∧ collection !! x = Some investor
      ∧ r = Returned
      ∧ final = <[x := with_metrics investor (commitment_count investor + 1)
                         (total_commitment_amount investor + a)]> collection.
Proof.
  unfold _handle_message. destruct message as [| |event_data];
    try (intros [= <- <-]; by left).
  destruct (Ingestion.falsy_id _); [intros [= <- <-]; by left|].
  case_bool_decide as Hty; [|intros [= <- <-]; by left].
  unfold _handle_commitment_created, get_investor_by_id,
    update_commitment_metrics.
  destruct (investor_id event_data) as [x|] eqn:Hx;
    [|intros [= <- <-]; by left].
  destruct (amount event_data) as [a| | |] eqn:Ha;
    try (intros [= <- <-]; by left).
  destruct (collection !! x) as [investor|] eqn:Hin;
    [|intros [= <- <-]; by left].
  intros [= <- <-]. right. exists event_data, x, a, investor.
  by repeat split.
Qed.

Lemma handle_message_grows message (collection final : Collection) r :
  _handle_message message collection = (final, r) ->
  ∀ k,
    match collection !! k with
    | Some doc => ∃ doc', final !! k = Some doc' ∧ grown doc doc'
                          ∧ commitment_count doc' <= commitment_count doc + 1
    | None => final !! k = None
    end.
Proof.
  intros H k.
  apply handle_message_cases in H
    as [->|(ed & x & a & investor & _ & _ & _ & _ & Hx & _ & ->)].
  - destruct (collection !! k) as [doc|] eqn:Hk; [|done].
    exists doc. split; [done|]. split; [apply grown_refl|lia].
  - destruct (decide (k = x)) as [->|Hne].
    + rewrite Hx, lookup_insert_eq. eexists. split; [done|].
      split; [|simpl; lia]. repeat split; simpl; lia.
    + rewrite lookup_insert_ne by done.
      destruct (collection !! k) as [doc|] eqn:Hk; [|done].
      exists doc. split; [done|]. split; [apply grown_refl|lia].
Qed.

Lemma listener_grows (polls : list Poll) :
  ∀ (collection final : Collection) (state : Listener) (k : string)
    (doc : InvestorResponse),
    start_listening polls collection = (final, state) ->
    collection !! k = Some doc ->
    ∃ doc', final !! k = Some doc' ∧ grown doc doc'
            ∧ commitment_count doc' <= commitment_count doc + length polls.
Proof.
  induction polls as [|poll rest IH]; intros collection final state k doc.
  - intros [= <- <-] Hk. exists doc.
    split; [done|]. split; [apply grown_refl|simpl; lia].
  - destruct poll as [|message|]; cbn [start_listening length].
    + intros Hrun Hk.
      destruct (IH _ _ _ _ _ Hrun Hk) as (doc' & Hf & Hg & Hc).
      exists doc'. split; [done|]. split; [done|lia].
    + destruct (_handle_message message collection) as [mid r] eqn:Hm.
      pose proof (handle_message_grows _ _ _ _ Hm k) as Hstep.
      intros Hrun Hk. rewrite Hk in Hstep.
      destruct Hstep as (doc1 & Hmid & Hg1 & Hc1).
      destruct r.
      * destruct (IH _ _ _ _ _ Hrun Hmid) as (doc' & Hf & Hg & Hc).
        exists doc'. split; [done|].
        split; [by eapply grown_trans|lia].
      * injection Hrun as <- <-. exists doc1.
        split; [done|]. split; [done|lia].
    + intros [= <- <-] Hk. exists doc.
      split; [done|]. split; [apply grown_refl|lia].
Qed.

Lemma listener_keeps_unknown (polls : list Poll) :
  ∀ (collection final : Collection) (state : Listener) (k : string),
    start_listening polls collection = (final, state) ->
    collection !! k = None ->
    final !! k = None.
Proof.
  induction polls as [|poll rest IH]; intros collection final state k.
  - by intros [= <- <-].
  - destruct poll as [|message|]; cbn [start_listening].
    + apply IH.
    + destruct (_handle_message message collection) as [mid r] eqn:Hm.
      pose proof (handle_message_grows _ _ _ _ Hm k) as Hstep.
      intros Hrun Hk. rewrite Hk in Hstep.
      destruct r; [by eapply IH|]. by injection Hrun as <- <-.
    + by intros [= <- <-].
Qed.

(** X21: whatever the channel delivers and however the loop ends, every
    investor of the collection is still there with its id and name, its
    commitment count is no smaller and has grown by at most the number of
    polls, and no investor was added. *)
Theorem listener_only_raises_metrics (polls : list Poll)
    (collection final : Collection) (state : Listener) :
  start_listening polls collection = (final, state) ->
  (∀ k doc, collection !! k = Some doc ->
     ∃ doc', final !! k = Some doc' ∧ grown doc doc'
             ∧ commitment_count doc' <= commitment_count doc + length polls)
  ∧ (∀ k, collection !! k = None -> final !! k = None).
Proof.
  intros Hrun. split.
  - intros k doc. by eapply listener_grows.
  - intros k. by eapply listener_keeps_unknown.
Qed.

(** X22: once a Redis failure has stopped the loop or a handler has crashed
    it, the polls that follow change nothing; a loop that is still
    listening goes on with them from the collection it has reached. *)
Theorem stopped_listener_handles_no_later_message (before after : list Poll)
    (collection final : Collection) (state : Listener) :
  start_listening before collection = (final, state) ->
  start_listening (before ++ after) collection
  = match state with
    | Listening => start_listening after final
    | _ => (final, state)
    end.
Proof.
  revert collection. induction before as [|poll rest IH]; intros collection.
  - by intros [= <- <-].
  - destruct poll as [|message|]; cbn [app start_listening].
    + apply IH.
    + destruct (_handle_message message collection) as [mid r].
      destruct r; [apply IH|]. by intros [= <- <-].
    + by intros [= <- <-].
Qed.

Lemma scan_existing_from names (existing : list Ingestion.ListItem) :
  ∀ (acc : gmap string string) k,
    is_Some (Ingestion.scan_existing names existing acc !! k) ->
    is_Some (acc !! k)
    ∨ (k ∈ names ∧ ∃ e, e ∈ existing ∧ Ingestion.item_name e = Some k).
Proof.
  induction existing as [|e rest IH]; intros acc k; simpl; [auto|].
  destruct (Ingestion.item_name e) as [n|] eqn:Hn; [|auto].
  case_bool_decide as Hin.
  - destruct (Ingestion.item_id e) as [i|]; [|auto].
    intros H. apply IH in H as [H|(Hk & e' & He' & Hname)].
    + rewrite lookup_insert in H. case_decide; subst; [|auto].
      right. split; [done|]. exists e. split; [left|done].
    + right. split; [done|]. exists e'. split; [by right|done].
  - intros H. apply IH in H as [H|(Hk & e' & He' & Hname)]; [auto|].
    right. split; [done|]. exists e'. split; [by right|done].
Qed.

Lemma scan_existing_keeps names (existing : list Ingestion.ListItem) :
  ∀ (acc : gmap string string) k,
    is_Some (acc !! k) ->
    is_Some (Ingestion.scan_existing names existing acc !! k).
Proof.
  induction existing as [|e rest IH]; intros acc k Hk; simpl; [done|].
  destruct (Ingestion.item_name e) as [n|]; [|done].
  case_bool_decide; [|by apply IH].
  destruct (Ingestion.item_id e) as [i|]; [|done].
  apply IH. rewrite lookup_insert. case_decide; [by eexists|done].
Qed.

Lemma scan_existing_finds names (docs : list InvestorResponse) :
  ∀ (acc : gmap string string) doc,
    doc ∈ docs -> name doc ∈ names ->
    is_Some (Ingestion.scan_existing names (list_item <$> docs) acc
               !! name doc).
Proof.
  induction docs as [|d rest IH]; intros acc doc Hin Hname.
  { by apply elem_of_nil in Hin. }
  cbn [fmap list_fmap Ingestion.scan_existing list_item
       Ingestion.item_name Ingestion.item_id].
  apply elem_of_cons in Hin as [->|Hin].
  - rewrite bool_decide_eq_true_2 by done.
    apply scan_existing_keeps. rewrite lookup_insert_eq. by eexists.
  - case_bool_decide; by apply IH.
Qed.

Section WithCursor.
Variable find_sorted : Collection -> string -> bool -> list InvestorResponse.

(** X23: against the list route of the investor service, whose response model
    has no has_next field, the snapshot of the ingestion service sends one
    request, for page 1, and maps exactly the requested names found among
    the first 100 investors in name order: an investor beyond them is not
    recognised as existing. *)
Theorem investor_snapshot_reads_the_first_page_only (Amount : Type)
    (faults : MongoFaults) (collection : Collection)
    (client : Ingestion.InvestorService) (fuel : nat)
    (investor_names : list string) :
  Ingestion.inv_get_page client = served_page find_sorted faults collection ->
  0 < fuel ->
  find_raises faults = false ->
  ∃ name_to_id,
    @Ingestion._fetch_existing_investors Amount fuel client investor_names
      = Some (name_to_id, [Ingestion.GetInvestors 1])
    ∧ (∀ name_, is_Some (name_to_id !! name_) ->
         name_ ∈ investor_names
         ∧ ∃ doc, doc ∈ take 100 (find_sorted collection "name" true)
                  ∧ name doc = name_)
    ∧ (∀ doc, doc ∈ take 100 (find_sorted collection "name" true) ->
         name doc ∈ investor_names ->
         is_Some (name_to_id !! name doc)).
Proof.
  intros Hclient Hfuel Hfind. destruct fuel as [|fuel]; [lia|].
  assert (served_page find_sorted faults collection 1
          = Ingestion.Reply 200
              (Some {| Ingestion.investors :=
                         list_item
                           <$> take 100 (find_sorted collection "name" true);
                       Ingestion.investors_has_next := false |})) as Hpage.
  { unfold served_page, get_investors, get_all_investors.
    rewrite Hfind. reflexivity. }
  exists (Ingestion.scan_existing investor_names
            (list_item <$> take 100 (find_sorted collection "name" true)) ∅).
  split; [|split].
  - unfold Ingestion._fetch_existing_investors.
    cbn [Ingestion.fetch_investor_pages].
    rewrite Hclient, Hpage. reflexivity.
  - intros name_ H. apply scan_existing_from in H as [H|(Hn & e & He & Hname)].
    { rewrite lookup_empty in H. by destruct H. }
    split; [done|].
    apply list_elem_of_fmap in He as (doc & -> & Hdoc).
    exists doc. split; [done|]. simpl in Hname. congruence.
  - intros doc Hdoc Hname. by apply scan_existing_finds.
Qed.

End WithCursor.

(** ** The runs *)

(** An event for the stored investor, an idle poll, and a text that is no
    JSON. *)
Lemma listener_only_raises_metrics_witness :
  ∃ final state,
    start_listening
      [Message (decode (commitment_created "inv-1" 10000)); NoMessage;
       Message InvalidJson]
      one_investor = (final, state)
    ∧ (∀ k doc, one_investor !! k = Some doc ->
         ∃ doc', final !! k = Some doc' ∧ grown doc doc'
                 ∧ commitment_count doc'
                   <= commitment_count doc
                      + length [Message (decode (commitment_created "inv-1"
                                                   10000));
                                NoMessage; Message InvalidJson])
    ∧ (∀ k, one_investor !! k = None -> final !! k = None).
Proof.
  eexists _, _. split; [vm_compute; reflexivity|].
  eapply (listener_only_raises_metrics
            [Message (decode (commitment_created "inv-1" 10000)); NoMessage;
             Message InvalidJson] one_investor).
  vm_compute. reflexivity.
Defined.

(** A Redis failure after the first event: the second event is not
    handled. *)
Lemma stopped_listener_handles_no_later_message_witness :
  ∃ final,
    start_listening
      [Message (decode (commitment_created "inv-1" 10000)); RedisFailure]
      one_investor = (final, Stopped)
    ∧ start_listening
        ([Message (decode (commitment_created "inv-1" 10000)); RedisFailure]
         ++ [Message (decode (commitment_created "inv-1" 25000))])
        one_investor
      = (final, Stopped).
Proof.
  eexists. split; [vm_compute; reflexivity|].
  apply (stopped_listener_handles_no_later_message
           [Message (decode (commitment_created "inv-1" 10000)); RedisFailure]
           [Message (decode (commitment_created "inv-1" 25000))]
           one_investor _ Stopped).
  vm_compute. reflexivity.
Defined.

(** The investor service holds one investor, Acme. *)
Lemma investor_snapshot_reads_the_first_page_only_witness :
  ∃ name_to_id,
    @Ingestion._fetch_existing_investors Z 1
      (client_of by_key no_faults one_investor) ["Acme"; "Beta"]
      = Some (name_to_id, [Ingestion.GetInvestors 1])
    ∧ (∀ name_, is_Some (name_to_id !! name_) ->
         name_ ∈ ["Acme"; "Beta"]
         ∧ ∃ doc, doc ∈ take 100 (by_key one_investor "name" true)
                  ∧ name doc = name_)
    ∧ (∀ doc, doc ∈ take 100 (by_key one_investor "name" true) ->
         name doc ∈ ["Acme"; "Beta"] ->
         is_Some (name_to_id !! name doc)).
Proof.
  apply (investor_snapshot_reads_the_first_page_only by_key Z no_faults
           one_investor (client_of by_key no_faults one_investor) 1
           ["Acme"; "Beta"]).
  - reflexivity.
  - lia.
  - reflexivity.
Defined.

End InvestorExtraProps.
